(** * BigFin financial state engine: a shallow embedding and its properties

    The development follows the TypeScript sources of the repository:
    - [Ledger]          modules/ledger/{types,service}.ts
    - [LedgerBook]      the posting templates and the balance queries of
                        modules/ledger/service.ts
    - [Routing]         modules/payments/services/routing-service.ts
    - [RoutingRules]    the rail selection of the same service
    - [Transfer]        modules/payments/services/transfer-service.ts
    - [TransferExecution]  initiateTransfer and executeTransfer of the same
                        service
    - [Waterfall]       the repayment routes of modules/payments
                        (POST /loan-contracts/:contract_id/repayments)
    - [Reconciliation]  modules/reconciliation/{types,service}.ts
    - [ReconciliationChecks]  the ledger check of the same service
    - [Prefund]         modules/prefund/routes.ts, with the prefund waiver of
                        the routing service and the prefund check of the
                        reconciliation
    - [Webhook]         modules/payments/{routes.ts,services/webhook-handler.ts}
    - [Operator]        the journal reversal of modules/operator/routes.ts

    Monetary amounts are JavaScript numbers holding integers (cents); they are
    modelled as [Z], with exact arithmetic: that is the arithmetic of the
    code as long as the amounts stay within the safe integers
    ([Ledger.MAX_SAFE_INTEGER]); [Ledger.Doubles] has the sums of the
    balance validation as the code computes them on every input.  A string
    holds the UTF-8 bytes of the JavaScript string.

    Prisma tables keyed by a primary key are finite maps,
    the append-only table of ledger entries is a list in insertion order
    (which is the [createdAt] order used by the queries).  Functions that
    throw return a [Result]. *)

From Stdlib Require Import ZArith Lia Bool.
From Stdlib Require Import Ascii String.
From stdpp Require Import base option list strings gmap pretty sorting.
From Equations Require Import Equations.

Local Open Scope Z_scope.

(* ===================================================================== *)
(** ** Errors (common/errors/app-error.ts, as used by the modules below)   *)
(* ===================================================================== *)

Module Common.

Inductive ErrorCode :=
| INVALID_REQUEST
| INVALID_STATE
| NOT_FOUND
| PROVIDER_ERROR.

(** An [AppError]: its code and the fixed part of its message. *)
Record AppError := mkAppError { code : ErrorCode; message : string }.

Inductive Result (A : Type) :=
| Ok (a : A)
| Err (e : AppError).
Arguments Ok {A} a.
Arguments Err {A} e.

(** Sequencing of calls that may throw: the first error propagates. *)
#[global] Instance Result_bind : MBind Result := fun A B k r =>
  match r with
  | Ok a => k a
  | Err e => Err e
  end.
#[global] Instance Result_ret : MRet Result := fun A a => Ok a.

Definition invalidRequest {A} (msg : string) : Result A :=
  Err (mkAppError INVALID_REQUEST msg).
Definition invalidState {A} (msg : string) : Result A :=
  Err (mkAppError INVALID_STATE msg).
Definition notFound {A} (what : string) : Result A :=
  Err (mkAppError NOT_FOUND what).

(** The call threw an [AppError] with code [c]. *)
Definition failsWith {A} (c : ErrorCode) (r : Result A) : Prop :=
  exists msg, r = Err (mkAppError c msg).

Definition isOk {A} (r : Result A) : bool :=
  match r with Ok _ => true | Err _ => false end.

End Common.

(* ===================================================================== *)
(** ** Ledger engine (modules/ledger/types.ts, modules/ledger/service.ts)  *)
(* ===================================================================== *)

Module Ledger.
Import Common.

Inductive AccountType := ASSET | LIABILITY | EQUITY | REVENUE | EXPENSE.

Inductive JournalType :=
| DISBURSEMENT | REPAYMENT | FEE_ASSESSMENT | INTEREST_ACCRUAL
| ADJUSTMENT | REVERSAL.

(** [interface LedgerEntry] *)
Record LedgerEntry := mkLedgerEntry {
  accountCode : string;
  debitCents : Z;
  creditCents : Z
}.

(** [interface CreateJournalInput] *)
Record CreateJournalInput := mkCreateJournalInput {
  in_contractId : option string;
  in_type : JournalType;
  in_description : string;
  in_entries : list LedgerEntry;
  in_createdBy : option string
}.

(** A row of the [ledgerEntry] table. *)
Record EntryRow := mkEntryRow {
  row_journalId : nat;
  row_accountCode : string;
  row_debitCents : Z;
  row_creditCents : Z;
  row_balanceAfterCents : Z
}.

(** A row of the [ledgerJournal] table (the key is the journal id). *)
Record JournalRow := mkJournalRow {
  j_contractId : option string;
  j_type : JournalType;
  j_description : string;
  j_isReversal : bool;
  j_reversesJournalId : option nat;
  j_reversedByJournalId : option nat;
  j_reversalReason : option string;
  j_createdBy : option string
}.

(** [interface JournalWithEntries] *)
Record JournalWithEntries := mkJournalWithEntries {
  jw_id : nat;
  jw_contractId : option string;
  jw_type : JournalType;
  jw_description : string;
  jw_isReversal : bool;
  jw_reversesJournalId : option nat;
  jw_reversedByJournalId : option nat;
  jw_entries : list EntryRow
}.

(** The three ledger tables.  [ledgerEntry] is in insertion order. *)
Record Store := mkStore {
  ledgerAccount : gmap string AccountType;
  ledgerJournal : gmap nat JournalRow;
  ledgerEntry : list EntryRow
}.

(** [AccountCodes] *)
Module AccountCodes.
Definition CASH_OPERATING : string := "assets:cash:operating".
Definition CASH_PREFUND : string := "assets:cash:prefund".
Definition LOANS_PRINCIPAL : string := "assets:loans_receivable:principal".
Definition LOANS_INTEREST : string := "assets:loans_receivable:interest".
Definition LOANS_FEES : string := "assets:loans_receivable:fees".
Definition PREFUND_BALANCES : string := "liabilities:prefund_balances".
Definition PENDING_DISBURSEMENTS : string := "liabilities:pending_disbursements".
Definition PENDING_SETTLEMENTS : string := "liabilities:pending_settlements".
Definition INTEREST_INCOME : string := "revenue:interest_income".
Definition FEE_EXPRESS : string := "revenue:fees:express_disbursement".
Definition FEE_LATE : string := "revenue:fees:late_payment".
Definition FEE_NSF : string := "revenue:fees:nsf".
Definition PAYMENT_PROCESSING : string := "expenses:payment_processing".
Definition BAD_DEBT : string := "expenses:bad_debt".
End AccountCodes.

(** [interface DisbursementInput] *)
Record DisbursementInput := mkDisbursementInput {
  d_contractId : string;
  d_principalCents : Z;
  d_expressFeeCents : Z;
  d_fromPrefund : bool;
  d_lenderId : string;
  d_createdBy : option string
}.

(** *** Validation helpers *)

(** [entries.reduce((sum, e) => sum + e.debitCents, 0)] *)
Definition totalDebits (entries : list LedgerEntry) : Z :=
  fold_left (fun sum e => sum + debitCents e) entries 0.

(** [entries.reduce((sum, e) => sum + e.creditCents, 0)] *)
Definition totalCredits (entries : list LedgerEntry) : Z :=
  fold_left (fun sum e => sum + creditCents e) entries 0.

(** The [for (const entry of entries)] loop of [validateBalance]. *)
Fixpoint validateEachEntry (entries : list LedgerEntry) : Result unit :=
  match entries with
  | [] => Ok tt
  | entry :: rest =>
      if (debitCents entry >? 0) && (creditCents entry >? 0) then
        invalidRequest "Entry has both debit and credit"
      else if (debitCents entry =? 0) && (creditCents entry =? 0) then
        invalidRequest "Entry has no debit or credit"
      else if (debitCents entry <? 0) || (creditCents entry <? 0) then
        invalidRequest "Entry has negative amount"
      else validateEachEntry rest
  end.

(** [LedgerService.validateBalance], on the exact sums. *)
Definition validateBalance (entries : list LedgerEntry) : Result unit :=
  if negb (totalDebits entries =? totalCredits entries) then
    invalidRequest "Journal is not balanced"
  else validateEachEntry entries.

(** *** The sums of [validateBalance] on JavaScript numbers

    The amounts are integers held in JavaScript numbers, which are IEEE 754
    doubles: an integer is held exactly when it has at most 53 significant
    bits, and [sum + e.debitCents] is the exact sum rounded to 53
    significant bits, ties to the even significand, and to an infinity from
    2^1024 on.  [totalDebits] and [totalCredits] above are the exact sums;
    they are the sums the code computes as long as the amounts stay within
    [Number.MAX_SAFE_INTEGER] (see [safeAmounts]).  The definitions of this
    module are the sums and the comparison as the code computes them on
    every list of integer amounts. *)
Module Doubles.

(** The values a sum of integer amounts can take. *)
Inductive Number :=
| Finite (z : Z)
| Infinite (negative : bool)
| NaN.

(** The double nearest to the integer [x]. *)
Definition roundToDouble (x : Z) : Number :=
  let a := Z.abs x in
  if a <? 2 ^ 53 then Finite x
  else
    let e := Z.log2 a - 52 in
    let q := a / 2 ^ e in
    let r := a mod 2 ^ e in
    let half := 2 ^ (e - 1) in
    let q' := if r <? half then q
              else if half <? r then q + 1
              else if Z.even q then q else q + 1 in
    if 2 ^ 1024 <=? q' * 2 ^ e then Infinite (x <? 0)
    else Finite (Z.sgn x * (q' * 2 ^ e)).

(** [x + y] *)
Definition add (x y : Number) : Number :=
  match x, y with
  | NaN, _ | _, NaN => NaN
  | Infinite a, Infinite b => if Bool.eqb a b then Infinite a else NaN
  | Infinite a, Finite _ => Infinite a
  | Finite _, Infinite b => Infinite b
  | Finite a, Finite b => roundToDouble (a + b)
  end.

(** [x === y] *)
Definition strictEquals (x y : Number) : bool :=
  match x, y with
  | Finite a, Finite b => a =? b
  | Infinite a, Infinite b => Bool.eqb a b
  | _, _ => false
  end.

(** [entries.reduce((sum, e) => sum + e.debitCents, 0)] *)
Definition totalDebits (entries : list LedgerEntry) : Number :=
  fold_left (fun sum e => add sum (Finite (debitCents e))) entries (Finite 0).

(** [entries.reduce((sum, e) => sum + e.creditCents, 0)] *)
Definition totalCredits (entries : list LedgerEntry) : Number :=
  fold_left (fun sum e => add sum (Finite (creditCents e))) entries (Finite 0).

(** [LedgerService.validateBalance] *)
Definition validateBalance (entries : list LedgerEntry) : Result unit :=
  if negb (strictEquals (totalDebits entries) (totalCredits entries)) then
    invalidRequest "Journal is not balanced"
  else validateEachEntry entries.

End Doubles.

(** *** Database access

    A call runs against the store and returns the store it leaves and its
    result.  [transaction] is [prisma.$transaction]: when the body throws,
    its writes are rolled back. *)

Definition Db (A : Type) : Type := Store -> Store * Result A.

#[global] Instance Db_ret : MRet Db := fun A a st => (st, Ok a).
#[global] Instance Db_bind : MBind Db := fun A B k m st =>
  match m st with
  | (st1, Ok a) => k a st1
  | (st1, Err e) => (st1, Err e)
  end.

Definition throw {A} (r : Result A) : Db A := fun st => (st, r).

Definition query {A} (read : Store -> A) : Db A := fun st => (st, Ok (read st)).

Definition transaction {A} (body : Db A) : Db A := fun st =>
  match body st with
  | (st', Ok a) => (st', Ok a)
  | (_, Err e) => (st, Err e)
  end.

(** The id given to a new journal row: one that is not in the table. *)
Definition freshJournalId (st : Store) : nat := fresh (dom (ledgerJournal st)).

(** [tx.ledgerJournal.create({ data })] *)
Definition ledgerJournal_create (row : JournalRow) : Db nat := fun st =>
  let id := freshJournalId st in
  (mkStore (ledgerAccount st) (<[id := row]> (ledgerJournal st)) (ledgerEntry st),
   Ok id).

(** [tx.ledgerJournal.update({ where: { id }, data })] *)
Definition ledgerJournal_update (id : nat) (data : JournalRow -> JournalRow)
  : Db unit := fun st =>
  match ledgerJournal st !! id with
  | Some row =>
      (mkStore (ledgerAccount st) (<[id := data row]> (ledgerJournal st))
               (ledgerEntry st),
       Ok tt)
  | None => (st, notFound "Record to update not found")
  end.

(** [tx.ledgerEntry.create({ data })] *)
Definition ledgerEntry_create (row : EntryRow) : Db EntryRow := fun st =>
  (mkStore (ledgerAccount st) (ledgerJournal st) (ledgerEntry st ++ [row]),
   Ok row).

(** [LedgerService.validateAccountCodes]: the codes (duplicates removed)
    that have no row in [ledgerAccount] are reported. *)
Definition validateAccountCodes (codes : list string) : Db unit := fun st =>
  let uniqueCodes := remove_dups codes in
  let missingCodes :=
    filter (fun c => ledgerAccount st !! c = None) uniqueCodes in
  if (0 <? length missingCodes)%nat then
    (st, invalidRequest "Unknown account codes")
  else (st, Ok tt).

(** *** Balances *)

(** [findFirst({ where: { accountCode }, orderBy: { createdAt: 'desc' } })]:
    the most recently inserted row of the account. *)
Definition lastEntryOf (rows : list EntryRow) (code : string) : option EntryRow :=
  last (filter (fun r => row_accountCode r = code) rows).

(** [LedgerService.getAccountBalanceInternal] *)
Definition getAccountBalanceInternal (tx : Store) (code : string) : Z :=
  match lastEntryOf (ledgerEntry tx) code with
  | Some lastEntry => row_balanceAfterCents lastEntry
  | None => 0
  end.

(** [LedgerService.getAccountBalance] *)
Definition getAccountBalance (st : Store) (code : string) : Z :=
  getAccountBalanceInternal st code.

(** [account?.type === 'ASSET' || account?.type === 'EXPENSE'] *)
Definition isDebitNormal (account : option AccountType) : bool :=
  match account with
  | Some ASSET | Some EXPENSE => true
  | _ => false
  end.

(** *** Posting *)

(** One iteration of the posting loop, the same in [createJournal] and
    [reverseJournal]: read the running balance, compute the new one on the
    account's normal side, insert the entry row. *)
Definition postEntry (journalId : nat) (entry : LedgerEntry) : Db EntryRow :=
  currentBalance ← query (fun tx => getAccountBalanceInternal tx (accountCode entry));
  account ← query (fun tx => ledgerAccount tx !! accountCode entry);
  let newBalance :=
    if isDebitNormal account
    then currentBalance + debitCents entry - creditCents entry
    else currentBalance + creditCents entry - debitCents entry in
  ledgerEntry_create
    (mkEntryRow journalId (accountCode entry) (debitCents entry)
                (creditCents entry) newBalance).

(** The [for (const entry of ...)] loop: entries are posted in input order. *)
Fixpoint postEntries (journalId : nat) (entries : list LedgerEntry)
  : Db (list EntryRow) :=
  match entries with
  | [] => mret []
  | entry :: rest =>
      createdEntry ← postEntry journalId entry;
      created ← postEntries journalId rest;
      mret (createdEntry :: created)
  end.

(** [LedgerService.createJournal] *)
Definition createJournal (input : CreateJournalInput) : Db JournalWithEntries :=
  _ ← throw (validateBalance (in_entries input));
  _ ← validateAccountCodes (map accountCode (in_entries input));
  transaction (
    let journal :=
      mkJournalRow (in_contractId input) (in_type input) (in_description input)
                   false None None None (in_createdBy input) in
    id ← ledgerJournal_create journal;
    entries ← postEntries id (in_entries input);
    mret (mkJournalWithEntries id (j_contractId journal) (j_type journal)
            (j_description journal) (j_isReversal journal)
            (j_reversesJournalId journal) (j_reversedByJournalId journal)
            entries)).

(** [include: { entries: true }]: the rows of a journal. *)
Definition entriesOfJournal (st : Store) (journalId : nat) : list EntryRow :=
  filter (fun r => row_journalId r = journalId) (ledgerEntry st).

(** The swap of [reverseJournal]:
    [{ accountCode, debitCents: entry.creditCents, creditCents: entry.debitCents }] *)
Definition swapRow (entry : EntryRow) : LedgerEntry :=
  mkLedgerEntry (row_accountCode entry) (row_creditCents entry)
                (row_debitCents entry).

Definition markReversedBy (reversalId : nat) (j : JournalRow) : JournalRow :=
  mkJournalRow (j_contractId j) (j_type j) (j_description j) (j_isReversal j)
    (j_reversesJournalId j) (Some reversalId) (j_reversalReason j)
    (j_createdBy j).

(** [LedgerService.reverseJournal] *)
Definition reverseJournal (journalId : nat) (reason : string)
           (createdBy : option string) : Db JournalWithEntries :=
  original ← query (fun st => ledgerJournal st !! journalId);
  originalEntries ← query (fun st => entriesOfJournal st journalId);
  match original with
  | None => throw (notFound "Ledger journal")
  | Some original =>
      match j_reversedByJournalId original with
      | Some _ => throw (invalidState "Journal has already been reversed")
      | None =>
          (* Create reversal entries (swap debits and credits) *)
          let reversalEntries := map swapRow originalEntries in
          transaction (
            let reversalJournal :=
              mkJournalRow (j_contractId original) REVERSAL
                ("Reversal of " +:+ pretty journalId +:+ ": " +:+ reason)
                true (Some journalId) None (Some reason) createdBy in
            id ← ledgerJournal_create reversalJournal;
            entries ← postEntries id reversalEntries;
            (* Mark original as reversed *)
            _ ← ledgerJournal_update journalId (markReversedBy id);
            mret (mkJournalWithEntries id (j_contractId reversalJournal)
                    (j_type reversalJournal) (j_description reversalJournal)
                    true (Some journalId) None entries))
      end
  end.

(** The entries built by [LedgerService.recordDisbursement]. *)
Definition disbursementEntries (input : DisbursementInput) : list LedgerEntry :=
  if d_fromPrefund input then
    (* Principal from prefund *)
    [ mkLedgerEntry AccountCodes.LOANS_PRINCIPAL (d_principalCents input) 0;
      mkLedgerEntry AccountCodes.PREFUND_BALANCES (d_principalCents input) 0 ]
    ++ (if d_expressFeeCents input >? 0 then
          [ mkLedgerEntry AccountCodes.CASH_OPERATING (d_expressFeeCents input) 0;
            mkLedgerEntry AccountCodes.FEE_EXPRESS 0 (d_expressFeeCents input) ]
        else [])
  else
    (* Direct disbursement *)
    [ mkLedgerEntry AccountCodes.LOANS_PRINCIPAL (d_principalCents input) 0;
      mkLedgerEntry AccountCodes.CASH_OPERATING 0 (d_principalCents input) ]
    ++ (if d_expressFeeCents input >? 0 then
          [ mkLedgerEntry AccountCodes.CASH_OPERATING (d_expressFeeCents input) 0;
            mkLedgerEntry AccountCodes.FEE_EXPRESS 0 (d_expressFeeCents input) ]
        else []).

(** [LedgerService.recordDisbursement]; of the description only the fixed
    words are kept (the source adds the amount in dollars). *)
Definition recordDisbursement (input : DisbursementInput) : Db JournalWithEntries :=
  createJournal
    (mkCreateJournalInput (Some (d_contractId input)) DISBURSEMENT
       (if d_fromPrefund input then "Disbursement from prefund" else "Disbursement")
       (disbursementEntries input) (d_createdBy input)).

(** *** Vocabulary of the statements *)

(** An entry the validation must refuse: both sides non-zero, both zero,
    or a negative amount. *)
Definition entryRefused (e : LedgerEntry) : Prop :=
  (debitCents e <> 0 /\ creditCents e <> 0)
  \/ (debitCents e = 0 /\ creditCents e = 0)
  \/ debitCents e < 0 \/ creditCents e < 0.

(** A list of entries the validation must refuse. *)
Definition journalRefused (entries : list LedgerEntry) : Prop :=
  (exists e, In e entries /\ entryRefused e)
  \/ totalDebits entries <> totalCredits entries.

(** [Number.MAX_SAFE_INTEGER] *)
Definition MAX_SAFE_INTEGER : Z := 2 ^ 53 - 1.

(** Amounts whose absolute values add up to a safe integer: every sum of
    some of them, in any order, is computed exactly on JavaScript
    numbers. *)
Definition safeSum (amounts : list Z) : Prop :=
  fold_right (fun a acc => Z.abs a + acc) 0 amounts <= MAX_SAFE_INTEGER.

(** Entries whose debits, and whose credits, add up to a safe integer. *)
Definition safeAmounts (entries : list LedgerEntry) : Prop :=
  safeSum (map debitCents entries) /\ safeSum (map creditCents entries).

(** The signed effect of posting [entries] on the running balance of the
    account [code]: debits minus credits on a debit-normal account, credits
    minus debits otherwise. *)
Definition netEffect (accounts : gmap string AccountType) (code : string)
           (entries : list LedgerEntry) : Z :=
  fold_right
    (fun e acc =>
       if bool_decide (accountCode e = code) then
         (if isDebitNormal (accounts !! code)
          then debitCents e - creditCents e
          else creditCents e - debitCents e) + acc
       else acc)
    0 entries.

(** Referential integrity of the entry table: every row belongs to a
    journal of the journal table. *)
Definition entriesHaveJournals (st : Store) : Prop :=
  forall r, In r (ledgerEntry st) -> is_Some (ledgerJournal st !! row_journalId r).

(** The input of an entry row. *)
Definition entryOfRow (r : EntryRow) : LedgerEntry :=
  mkLedgerEntry (row_accountCode r) (row_debitCents r) (row_creditCents r).

(** *** Store used in examples: the seeded chart of accounts, no postings. *)
Definition chartOfAccounts : gmap string AccountType :=
  list_to_map
    [ (AccountCodes.CASH_OPERATING, ASSET);
      (AccountCodes.CASH_PREFUND, ASSET);
      (AccountCodes.LOANS_PRINCIPAL, ASSET);
      (AccountCodes.LOANS_INTEREST, ASSET);
      (AccountCodes.LOANS_FEES, ASSET);
      (AccountCodes.PREFUND_BALANCES, LIABILITY);
      (AccountCodes.PENDING_DISBURSEMENTS, LIABILITY);
      (AccountCodes.PENDING_SETTLEMENTS, LIABILITY);
      (AccountCodes.INTEREST_INCOME, REVENUE);
      (AccountCodes.FEE_EXPRESS, REVENUE);
      (AccountCodes.FEE_LATE, REVENUE);
      (AccountCodes.FEE_NSF, REVENUE);
      (AccountCodes.PAYMENT_PROCESSING, EXPENSE);
      (AccountCodes.BAD_DEBT, EXPENSE) ].

Definition emptyLedger : Store := mkStore chartOfAccounts ∅ [].

(** A balanced journal: DR Cash:Operating 10 000, CR Interest_Income 10 000. *)
Definition exampleJournal : CreateJournalInput :=
  mkCreateJournalInput None ADJUSTMENT "Test balanced journal"
    [ mkLedgerEntry AccountCodes.CASH_OPERATING 10000 0;
      mkLedgerEntry AccountCodes.INTEREST_INCOME 0 10000 ]
    None.

(** Amounts beyond [MAX_SAFE_INTEGER]: debits of 2^53 and of 1 against a
    credit of 2^53. *)
Definition exampleUnsafeEntries : list LedgerEntry :=
  [ mkLedgerEntry AccountCodes.CASH_OPERATING (2 ^ 53) 0;
    mkLedgerEntry AccountCodes.CASH_OPERATING 1 0;
    mkLedgerEntry AccountCodes.INTEREST_INCOME 0 (2 ^ 53) ].

(** The store and the journal returned when [exampleJournal] is posted to
    the empty ledger. *)
Definition examplePosted : Store * JournalWithEntries :=
  match createJournal exampleJournal emptyLedger with
  | (st, Ok j) => (st, j)
  | (st, Err _) => (st, mkJournalWithEntries 0 None ADJUSTMENT "" false None None [])
  end.

End Ledger.

(* ===================================================================== *)
(** ** Ledger engine: transaction templates, balance queries and the trial
       balance (modules/ledger/types.ts, modules/ledger/service.ts)        *)
(* ===================================================================== *)

Module LedgerBook.
Import Common Ledger.

(** [interface RepaymentInput] *)
Record RepaymentInput := mkRepaymentInput {
  rp_contractId : string;
  rp_totalCents : Z;
  rp_principalCents : Z;
  rp_interestCents : Z;
  rp_feesCents : Z;
  rp_createdBy : option string
}.

Inductive FeeType := late | nsf | express.

(** [interface FeeAssessmentInput] *)
Record FeeAssessmentInput := mkFeeAssessmentInput {
  fa_contractId : string;
  fa_feeType : FeeType;
  fa_amountCents : Z;
  fa_description : string;
  fa_createdBy : option string
}.

(** [interface InterestAccrualInput]; the two dates are epoch times. *)
Record InterestAccrualInput := mkInterestAccrualInput {
  ia_contractId : string;
  ia_amountCents : Z;
  ia_periodStart : Z;
  ia_periodEnd : Z;
  ia_createdBy : option string
}.

(** [interface WriteOffInput] *)
Record WriteOffInput := mkWriteOffInput {
  wo_contractId : string;
  wo_principalCents : Z;
  wo_interestCents : Z;
  wo_feesCents : Z;
  wo_reason : string;
  wo_createdBy : option string
}.


(** [interface LoanBalances] *)
Record LoanBalances := mkLoanBalances {
  principalBalance : Z;
  interestBalance : Z;
  feesBalance : Z;
  totalBalance : Z
}.


(** *** Transaction templates

    Of the descriptions built with amounts in dollars only the fixed words
    are kept, as for [recordDisbursement]. *)

(** The entries built by [LedgerService.recordRepayment]. *)
Definition repaymentEntries (input : RepaymentInput) : list LedgerEntry :=
  (* Cash received *)
  [ mkLedgerEntry AccountCodes.CASH_OPERATING (rp_totalCents input) 0 ]
  (* Apply to fees first *)
  ++ (if rp_feesCents input >? 0
      then [ mkLedgerEntry AccountCodes.LOANS_FEES 0 (rp_feesCents input) ]
      else [])
  (* Then interest *)
  ++ (if rp_interestCents input >? 0
      then [ mkLedgerEntry AccountCodes.LOANS_INTEREST 0 (rp_interestCents input) ]
      else [])
  (* Then principal *)
  ++ (if rp_principalCents input >? 0
      then [ mkLedgerEntry AccountCodes.LOANS_PRINCIPAL 0 (rp_principalCents input) ]
      else []).

(** [LedgerService.recordRepayment] *)
Definition recordRepayment (input : RepaymentInput) : Db JournalWithEntries :=
  createJournal
    (mkCreateJournalInput (Some (rp_contractId input)) REPAYMENT "Repayment"
       (repaymentEntries input) (rp_createdBy input)).

(** [feeAccountMap] *)
Definition feeAccountMap (feeType : FeeType) : string :=
  match feeType with
  | late => AccountCodes.FEE_LATE
  | nsf => AccountCodes.FEE_NSF
  | express => AccountCodes.FEE_EXPRESS
  end.

Definition feeAssessmentEntries (input : FeeAssessmentInput) : list LedgerEntry :=
  [ mkLedgerEntry AccountCodes.LOANS_FEES (fa_amountCents input) 0;
    mkLedgerEntry (feeAccountMap (fa_feeType input)) 0 (fa_amountCents input) ].

(** [LedgerService.recordFeeAssessment] *)
Definition recordFeeAssessment (input : FeeAssessmentInput)
  : Db JournalWithEntries :=
  createJournal
    (mkCreateJournalInput (Some (fa_contractId input)) FEE_ASSESSMENT
       (fa_description input) (feeAssessmentEntries input) (fa_createdBy input)).

Definition interestAccrualEntries (input : InterestAccrualInput)
  : list LedgerEntry :=
  [ mkLedgerEntry AccountCodes.LOANS_INTEREST (ia_amountCents input) 0;
    mkLedgerEntry AccountCodes.INTEREST_INCOME 0 (ia_amountCents input) ].

(** [LedgerService.recordInterestAccrual] *)
Definition recordInterestAccrual (input : InterestAccrualInput)
  : Db JournalWithEntries :=
  createJournal
    (mkCreateJournalInput (Some (ia_contractId input)) INTEREST_ACCRUAL
       "Interest accrual" (interestAccrualEntries input) (ia_createdBy input)).

Definition prefundDepositEntries (amountCents : Z) : list LedgerEntry :=
  [ mkLedgerEntry AccountCodes.CASH_PREFUND amountCents 0;
    mkLedgerEntry AccountCodes.PREFUND_BALANCES 0 amountCents ].

(** [LedgerService.recordPrefundDeposit]: a journal without contract. *)
Definition recordPrefundDeposit (customerId : string) (amountCents : Z)
           (createdBy : option string) : Db JournalWithEntries :=
  createJournal
    (mkCreateJournalInput None ADJUSTMENT
       ("Prefund deposit for customer " +:+ customerId)
       (prefundDepositEntries amountCents) createdBy).

Definition prefundWithdrawalEntries (amountCents : Z) : list LedgerEntry :=
  [ mkLedgerEntry AccountCodes.PREFUND_BALANCES amountCents 0;
    mkLedgerEntry AccountCodes.CASH_PREFUND 0 amountCents ].

(** [LedgerService.recordPrefundWithdrawal]: a journal without contract. *)
Definition recordPrefundWithdrawal (customerId : string) (amountCents : Z)
           (createdBy : option string) : Db JournalWithEntries :=
  createJournal
    (mkCreateJournalInput None ADJUSTMENT
       ("Prefund withdrawal for customer " +:+ customerId)
       (prefundWithdrawalEntries amountCents) createdBy).

(** [input.principalCents + input.interestCents + input.feesCents] as the
    code computes it on JavaScript numbers; within the safe integers it is
    the [totalWriteOff] of [writeOffEntries]. *)
Definition totalWriteOffNumber (input : WriteOffInput) : Doubles.Number :=
  Doubles.add
    (Doubles.add (Doubles.Finite (wo_principalCents input))
                 (Doubles.Finite (wo_interestCents input)))
    (Doubles.Finite (wo_feesCents input)).

(** The entries built by [LedgerService.recordWriteOff]. *)
Definition writeOffEntries (input : WriteOffInput) : list LedgerEntry :=
  let totalWriteOff :=
    wo_principalCents input + wo_interestCents input + wo_feesCents input in
  [ mkLedgerEntry AccountCodes.BAD_DEBT totalWriteOff 0 ]
  ++ (if wo_principalCents input >? 0
      then [ mkLedgerEntry AccountCodes.LOANS_PRINCIPAL 0 (wo_principalCents input) ]
      else [])
  ++ (if wo_interestCents input >? 0
      then [ mkLedgerEntry AccountCodes.LOANS_INTEREST 0 (wo_interestCents input) ]
      else [])
  ++ (if wo_feesCents input >? 0
      then [ mkLedgerEntry AccountCodes.LOANS_FEES 0 (wo_feesCents input) ]
      else []).

(** [LedgerService.recordWriteOff] *)
Definition recordWriteOff (input : WriteOffInput) : Db JournalWithEntries :=
  createJournal
    (mkCreateJournalInput (Some (wo_contractId input)) ADJUSTMENT
       ("Write-off: " +:+ wo_reason input)
       (writeOffEntries input) (wo_createdBy input)).

(** *** Balance queries *)

(** [findMany({ orderBy: { code: 'asc' } })] on the account table: the
    rows in ascending order of their code. *)
Definition codeAsc (a b : string * AccountType) : Prop :=
  String.leb a.1 b.1 = true.

#[global] Instance codeAsc_dec : RelDecision codeAsc.
Proof. intros a b. unfold codeAsc. apply _. Defined.





(** [where: { accountCode, journal: { contractId } }]: the rows of the
    account whose journal belongs to the contract. *)
Definition ofContract (st : Store) (contractId accountCode : string)
           (r : EntryRow) : bool :=
  bool_decide (row_accountCode r = accountCode)
  && match ledgerJournal st !! row_journalId r with
     | Some journal => bool_decide (j_contractId journal = Some contractId)
     | None => false
     end.

(** [LedgerService.getContractAccountBalance]; [_sum] of no row is null,
    replaced by 0. *)
Definition getContractAccountBalance (st : Store) (contractId accountCode : string)
  : Z :=
  let rows := List.filter (ofContract st contractId accountCode) (ledgerEntry st) in
  let debits := fold_left (fun sum r => sum + row_debitCents r) rows 0 in
  let credits := fold_left (fun sum r => sum + row_creditCents r) rows 0 in
  (* For asset accounts, balance = debits - credits *)
  debits - credits.

(** [LedgerService.getLoanBalances] *)
Definition getLoanBalances (st : Store) (contractId : string) : LoanBalances :=
  let principal :=
    getContractAccountBalance st contractId AccountCodes.LOANS_PRINCIPAL in
  let interest :=
    getContractAccountBalance st contractId AccountCodes.LOANS_INTEREST in
  let fees := getContractAccountBalance st contractId AccountCodes.LOANS_FEES in
  mkLoanBalances principal interest fees (principal + interest + fees).

(** *** Vocabulary of the statements *)






(** Every entry posts to an account of the chart. *)
Definition allAccountsExist (st : Store) (entries : list LedgerEntry) : Prop :=
  forall e, In e entries -> is_Some (ledgerAccount st !! accountCode e).

(** Debits minus credits of the entries posted to the account [code]. *)
Definition debitsLessCredits (code : string) (entries : list LedgerEntry) : Z :=
  fold_right
    (fun e acc =>
       if bool_decide (accountCode e = code)
       then debitCents e - creditCents e + acc
       else acc)
    0 entries.

(** Sum of [f] over a list. *)
Definition sumOver {A} (f : A -> Z) (l : list A) : Z :=
  fold_right (fun x acc => f x + acc) 0 l.





(** Loan balances moved by the given amounts. *)
Definition adjustLoanBalances (b : LoanBalances) (principal interest fees : Z)
  : LoanBalances :=
  mkLoanBalances (principalBalance b + principal) (interestBalance b + interest)
    (feesBalance b + fees) (totalBalance b + (principal + interest + fees)).

(** The positive part of a template component: the [if (x > 0)] of the
    templates. *)
Definition positivePart (x : Z) : Z := if x >? 0 then x else 0.

(** The accounts the templates post to all exist. *)
Definition chartSeeded (st : Store) : Prop :=
  forall code, is_Some (chartOfAccounts !! code) ->
               is_Some (ledgerAccount st !! code).


Definition exampleFeeInput : FeeAssessmentInput :=
  mkFeeAssessmentInput "c1" late 2500 "Late fee" None.

Definition orNoJournal (out : Store * Result JournalWithEntries)
  : Store * JournalWithEntries :=
  match out with
  | (st, Ok j) => (st, j)
  | (st, Err _) => (st, mkJournalWithEntries 0 None ADJUSTMENT "" false None None [])
  end.

Definition exampleFeePosted : Store * JournalWithEntries :=
  orNoJournal (recordFeeAssessment exampleFeeInput emptyLedger).

Definition exampleLoanLedger : Store :=
  (recordFeeAssessment exampleFeeInput
     (recordDisbursement
        (mkDisbursementInput "c1" 10000 299 false "lender-1" None)
        emptyLedger).1).1.


(** The late fee posted after [exampleJournal]. *)
Definition exampleSecondPosted : Store * JournalWithEntries :=
  orNoJournal (recordFeeAssessment exampleFeeInput examplePosted.1).

End LedgerBook.

(* ===================================================================== *)
(** ** Routing engine: express fee (payments/services/routing-service.ts)  *)
(* ===================================================================== *)

Module Routing.

Inductive PaymentSpeed := standard | instant.

Record FeeBand := mkFeeBand { minCents : Z; maxCents : Z; feeCents : Z }.

(** [EXPRESS_FEE_BANDS] *)
Definition EXPRESS_FEE_BANDS : list FeeBand :=
  [ mkFeeBand 10000 50000 299;
    mkFeeBand 50001 200000 499;
    mkFeeBand 200001 500000 799;
    mkFeeBand 500001 1000000 999;
    mkFeeBand 1000001 2500000 1499;
    mkFeeBand 2500001 5000000 1999 ].

(** [PaymentRoutingService.calculateFee] *)
Definition calculateFee (speed : PaymentSpeed) (amountCents : Z) : Z :=
  match speed with
  | standard => 0
  | instant =>
      match List.find (fun band => (amountCents >=? minCents band)
                                   && (amountCents <=? maxCents band))
                      EXPRESS_FEE_BANDS with
      | Some band => feeCents band
      | None =>
          let firstBand := head EXPRESS_FEE_BANDS in
          let lastBand := last EXPRESS_FEE_BANDS in
          let lastFee := match lastBand with
                         | Some b => feeCents b
                         | None => 1999
                         end in
          match firstBand with
          | Some b => if amountCents <? minCents b then feeCents b else lastFee
          | None => lastFee
          end
      end
  end.

(** The fee table of the specification, written out band by band. *)
Definition bandedFee (x : Z) : Z :=
  if x <=? 50000 then 299
  else if x <=? 200000 then 499
  else if x <=? 500000 then 799
  else if x <=? 1000000 then 999
  else if x <=? 2500000 then 1499
  else 1999.

End Routing.

(* ===================================================================== *)
(** ** Routing engine: rail selection (payments/types.ts,
       payments/services/routing-service.ts)                               *)
(* ===================================================================== *)

Module RoutingRules.
Import Common Routing.

Inductive PaymentRail := ach | same_day_ach | rtp | fednow | push_to_card.

#[global] Instance PaymentRail_eq_dec : EqDecision PaymentRail.
Proof. solve_decision. Defined.

Inductive PaymentDirection := credit | debit.

Inductive InstrumentType := bank_account | debit_card.

(** [interface InstrumentCapabilities] *)
Record InstrumentCapabilities := mkInstrumentCapabilities {
  inst_id : string;
  inst_type : InstrumentType;
  supportedRails : list PaymentRail;
  verified : bool
}.

(** [interface RoutingInput] *)
Record RoutingInput := mkRoutingInput {
  speed : PaymentSpeed;
  direction : PaymentDirection;
  amountCents : Z;
  sourceInstrument : InstrumentCapabilities;
  destinationInstrument : option InstrumentCapabilities
}.

(** [interface RoutingDecision]; a [Date] is its epoch time. *)
Record RoutingDecision := mkRoutingDecision {
  rail : PaymentRail;
  estimatedArrival : Z;
  fee : Z;
  fallbackRails : list PaymentRail;
  reason : string
}.

(** The result of [getRoutingOptions]. *)
Record RoutingOptions := mkRoutingOptions {
  opt_standard : RoutingDecision;
  opt_instant : option RoutingDecision;
  instantAvailable : bool
}.

(** Rail priority for instant payments (highest to lowest) *)
Definition INSTANT_RAIL_PRIORITY : list PaymentRail :=
  [ rtp; fednow; push_to_card; same_day_ach; ach ].

(** Standard payments always use ACH *)
Definition STANDARD_RAIL : PaymentRail := ach.

(** Fallback rails when primary fails *)
Definition FALLBACK_CHAIN (r : PaymentRail) : option PaymentRail :=
  match r with
  | rtp => Some fednow
  | fednow => Some push_to_card
  | push_to_card => Some ach
  | same_day_ach => Some ach
  | ach => None
  end.

(** [availableRails.includes(rail)] *)
Definition includes (availableRails : list PaymentRail) (r : PaymentRail) : bool :=
  bool_decide (r ∈ availableRails).

(** [PaymentRoutingService.getAvailableRails]; its last [return ['ach']] is
    for an instrument that is neither a bank account nor a debit card, which
    the type of instruments excludes. *)
Definition getAvailableRails (source : InstrumentCapabilities)
           (destination : option InstrumentCapabilities)
           (direction : PaymentDirection) : list PaymentRail :=
  (* For credits (disbursements), we care about destination capabilities
     For debits (repayments), we care about source capabilities *)
  let relevantInstrument :=
    match direction with
    | credit => default source destination
    | debit => source
    end in
  (* If instrument has explicit supported rails, use those *)
  if (0 <? length (supportedRails relevantInstrument))%nat then
    supportedRails relevantInstrument
  else
    (* Default rails by instrument type *)
    match inst_type relevantInstrument with
    | bank_account =>
        if verified relevantInstrument
        then [ rtp; fednow; same_day_ach; ach ]
        else [ ach ]
    | debit_card => [ push_to_card ]
    end.

(** The [reasons] table of [selectInstantRail]. *)
Definition instantReasons (r : PaymentRail) : string :=
  match r with
  | rtp => "RTP available; using fastest rail"
  | fednow => "FedNow available; RTP not supported"
  | push_to_card => "Push-to-card available; real-time rails not supported"
  | same_day_ach => "Same-day ACH available; faster rails not supported"
  | ach => "Standard ACH; no instant rails available"
  end.

(** [PaymentRoutingService.selectInstantRail] *)
Definition selectInstantRail (availableRails : list PaymentRail)
  : PaymentRail * string :=
  (* Try rails in priority order *)
  match List.find (includes availableRails) INSTANT_RAIL_PRIORITY with
  | Some r => (r, instantReasons r)
  | None => (ach, "Fallback to ACH")
  end.

(** The number of steps of [FALLBACK_CHAIN] left from a rail: the measure
    under which the loop of [buildFallbackChain] ends. *)
Definition chainLength (currentRail : option PaymentRail) : nat :=
  match currentRail with
  | Some rtp => 4
  | Some fednow => 3
  | Some push_to_card => 2
  | Some same_day_ach => 2
  | Some ach => 1
  | None => 0
  end.

(** The [while (currentRail)] loop of [buildFallbackChain]. *)
Equations fallbackLoop (availableRails : list PaymentRail)
          (currentRail : option PaymentRail) : list PaymentRail
  by wf (chainLength currentRail) lt :=
  fallbackLoop availableRails None := [];
  fallbackLoop availableRails (Some current) :=
    (if includes availableRails current then [current] else [])
    ++ fallbackLoop availableRails (FALLBACK_CHAIN current).
Next Obligation. destruct current; cbn; lia. Qed.

(** [PaymentRoutingService.buildFallbackChain] *)
Definition buildFallbackChain (primaryRail : PaymentRail)
           (availableRails : list PaymentRail) : list PaymentRail :=
  fallbackLoop availableRails (FALLBACK_CHAIN primaryRail).

(** [{ ...input, speed }] *)
Definition withSpeed (input : RoutingInput) (s : PaymentSpeed) : RoutingInput :=
  mkRoutingInput s (direction input) (amountCents input)
    (sourceInstrument input) (destinationInstrument input).

Section Decisions.

(** [calculateEstimatedArrival] reads the clock; the routing decision is
    taken for a given value of it on each rail. *)
Variable calculateEstimatedArrival : PaymentRail -> Z.

(** [PaymentRoutingService.routePayment] *)
Definition routePayment (input : RoutingInput) : Result RoutingDecision :=
  (* Validate amount *)
  if amountCents input <=? 0 then invalidRequest "Amount must be positive"
  else
    (* Get available rails based on instruments *)
    let availableRails :=
      getAvailableRails (sourceInstrument input) (destinationInstrument input)
        (direction input) in
    if (length availableRails =? 0)%nat then
      invalidRequest "No payment rails available for this instrument combination"
    else
      (* Select rail based on speed preference *)
      selected ←
        match speed input with
        | standard =>
            (* Standard always uses ACH if available *)
            if includes availableRails ach
            then Ok (ach, "Standard speed requested; using ACH")
            else invalidRequest "ACH not available for this instrument"
        | instant =>
            (* Instant: try rails in priority order *)
            Ok (selectInstantRail availableRails)
        end;
      let selectedRail := selected.1 in
      (* Calculate fee *)
      let fee := calculateFee (speed input) (amountCents input) in
      (* Calculate estimated arrival *)
      let estimatedArrival := calculateEstimatedArrival selectedRail in
      (* Build fallback chain *)
      let fallbackRails := buildFallbackChain selectedRail availableRails in
      Ok (mkRoutingDecision selectedRail estimatedArrival fee fallbackRails
            selected.2).

(** [PaymentRoutingService.getRoutingOptions] *)
Definition getRoutingOptions (input : RoutingInput) : Result RoutingOptions :=
  (* Get standard routing *)
  standardDecision ← routePayment (withSpeed input standard);
  (* Try instant routing *)
  match routePayment (withSpeed input instant) with
  | Ok instantDecision =>
      (* Instant is only truly available if we got a non-ACH rail *)
      Ok (mkRoutingOptions standardDecision (Some instantDecision)
            (negb (bool_decide (rail instantDecision = ach))))
  | Err _ =>
      (* Instant not available *)
      Ok (mkRoutingOptions standardDecision None false)
  end.

End Decisions.

(** *** Vocabulary of the statements *)

(** The place of a rail in [INSTANT_RAIL_PRIORITY] (0 is the fastest). *)
Definition priorityRank (r : PaymentRail) : nat :=
  match list_find (fun x => x = r) INSTANT_RAIL_PRIORITY with
  | Some (i, _) => i
  | None => length INSTANT_RAIL_PRIORITY
  end.

(** The rails the decision for [input] is taken among. *)
Definition railsOf (input : RoutingInput) : list PaymentRail :=
  getAvailableRails (sourceInstrument input) (destinationInstrument input)
    (direction input).

(** *** An example: 500 dollars sent at instant speed to a verified bank
    account that lists no rail of its own. *)
Definition exampleBankAccount : InstrumentCapabilities :=
  mkInstrumentCapabilities "fi-1" bank_account [] true.

Definition exampleRoutingInput : RoutingInput :=
  mkRoutingInput instant credit 50000 exampleBankAccount (Some exampleBankAccount).

Definition exampleClock (r : PaymentRail) : Z := 0.

Definition exampleDecision : RoutingDecision :=
  match routePayment exampleClock exampleRoutingInput with
  | Ok d => d
  | Err _ => mkRoutingDecision ach 0 0 [] ""
  end.

End RoutingRules.

(* ===================================================================== *)
(** ** Repayment application waterfall (payments/repayment.routes.ts)      *)
(* ===================================================================== *)

Module Waterfall.

(** [interface LoanBalances] (ledger/types.ts) *)
Record LoanBalances := mkLoanBalances {
  principalBalance : Z;
  interestBalance : Z;
  feesBalance : Z
}.

(** The split stored on the repayment record
    ([appliedFeeCents], [appliedInterestCents], [appliedPrincipalCents])
    and the local variable [remaining] when the record is created. *)
Record Application := mkApplication {
  appliedFees : Z;
  appliedInterest : Z;
  appliedPrincipal : Z;
  remaining : Z
}.

(** One step of the waterfall:
    [if (remaining > 0 && balance > 0) { applied = Math.min(remaining, balance); remaining -= applied; }] *)
Definition applyTo (remaining balance : Z) : Z * Z :=
  if (remaining >? 0) && (balance >? 0)
  then (Z.min remaining balance, remaining - Z.min remaining balance)
  else (0, remaining).

(** The waterfall of [POST /loan-contracts/:contract_id/repayments]:
    fees, then interest, then principal. *)
Definition applyWaterfall (amount_cents : Z) (balances : LoanBalances)
  : Application :=
  let remaining := amount_cents in
  let '(appliedFees, remaining) := applyTo remaining (feesBalance balances) in
  let '(appliedInterest, remaining) := applyTo remaining (interestBalance balances) in
  let '(appliedPrincipal, remaining) := applyTo remaining (principalBalance balances) in
  mkApplication appliedFees appliedInterest appliedPrincipal remaining.

(** *** Vocabulary of the statements *)

(** The split in which the whole amount is applied: each component is the
    minimum of what is left and the balance, and the three components add
    up to the amount. *)
Definition splitsWholeAmount (amount_cents : Z) (balances : LoanBalances) : Prop :=
  let a := applyWaterfall amount_cents balances in
  appliedFees a = Z.min amount_cents (feesBalance balances)
  /\ appliedInterest a
     = Z.min (amount_cents - appliedFees a) (interestBalance balances)
  /\ appliedPrincipal a
     = Z.min (amount_cents - appliedFees a - appliedInterest a)
             (principalBalance balances)
  /\ appliedFees a + appliedInterest a + appliedPrincipal a = amount_cents.

End Waterfall.

(* ===================================================================== *)
(** ** Transfer status ingestion (payments/services/transfer-service.ts)   *)
(* ===================================================================== *)

Module Transfer.
Import Common.

(** [type TransferStatus] (payments/types.ts) *)
Inductive TransferStatus :=
| pending | processing | completed | failed | returned | canceled.

(** Prisma enums of the domain records. *)
Inductive RecordStatus :=
| INITIATED | SCHEDULED | PENDING | COMPLETED | FAILED | RETURNED | CANCELLED.

Inductive AvailabilityState :=
| AV_INITIATED | AV_PENDING | AV_RECEIVED | AV_HELD | AV_AVAILABLE | AV_FAILED.

Inductive ContractStatus :=
| PENDING_DISBURSEMENT | ACTIVE | PAID_OFF | DEFAULTED | CONTRACT_CANCELLED.

(** Rows of the [disbursement], [repayment] and [loanContract] tables (the
    key of each table is the row id).  Dates are milliseconds. *)
Record Disbursement := mkDisbursement {
  disb_contractId : string;
  disb_amountCents : Z;
  disb_status : RecordStatus;
  disb_availabilityState : AvailabilityState;
  disb_providerRef : option string;
  disb_initiatedAt : Z;
  disb_completedAt : option Z;
  disb_failedAt : option Z;
  disb_failureReason : option string
}.

Record Repayment := mkRepayment {
  rep_contractId : string;
  rep_amountCents : Z;
  rep_status : RecordStatus;
  rep_availabilityState : AvailabilityState;
  rep_providerRef : option string;
  rep_initiatedAt : option Z;
  rep_completedAt : option Z;
  rep_failedAt : option Z;
  rep_returnedAt : option Z;
  rep_failureReason : option string
}.

Record LoanContract := mkLoanContract {
  lc_tenantId : string;
  lc_status : ContractStatus;
  lc_disbursedAt : option Z
}.

Record Store := mkStore {
  disbursement : gmap string Disbursement;
  repayment : gmap string Repayment;
  loanContract : gmap string LoanContract;
  ledger : Ledger.Store
}.

(** [interface TransferStatusUpdate] (the fields the service reads) *)
Record TransferStatusUpdate := mkTransferStatusUpdate {
  providerTransferId : string;
  status : TransferStatus;
  failureReason : option string
}.

(** *** Database access

    A call runs against the store and may throw.  Statements issued outside
    [prisma.$transaction] commit one by one, so the store reached when a
    later statement throws keeps the earlier writes; the log lists the
    commits in order, each with the rows it wrote. *)

Inductive Write :=
| W_disbursement (id : string)
| W_repayment (id : string)
| W_loanContract (id : string)
| W_ledgerJournal (id : nat).

Definition Commit : Type := list Write.

Definition Db (A : Type) : Type := Store -> Store * list Commit * Result A.

#[global] Instance Db_ret : MRet Db := fun A a st => (st, [], Ok a).
#[global] Instance Db_bind : MBind Db := fun A B k m st =>
  match m st with
  | (st1, log1, Ok a) =>
      match k a st1 with
      | (st2, log2, r) => (st2, log1 ++ log2, r)
      end
  | (st1, log1, Err e) => (st1, log1, Err e)
  end.

(** A Prisma [data] field that is [undefined] leaves the column as it is. *)
Definition orKeep {A} (new old : option A) : option A :=
  match new with
  | Some v => Some v
  | None => old
  end.

(** [prisma.disbursement.update({ where: { id }, data })] *)
Definition disbursement_update (id : string) (data : Disbursement -> Disbursement)
  : Db unit := fun st =>
  match disbursement st !! id with
  | Some d =>
      (mkStore (<[id := data d]> (disbursement st)) (repayment st)
               (loanContract st) (ledger st),
       [[W_disbursement id]], Ok tt)
  | None => (st, [], notFound "Record to update not found")
  end.

(** [prisma.repayment.update({ where: { id }, data })] *)
Definition repayment_update (id : string) (data : Repayment -> Repayment)
  : Db unit := fun st =>
  match repayment st !! id with
  | Some r =>
      (mkStore (disbursement st) (<[id := data r]> (repayment st))
               (loanContract st) (ledger st),
       [[W_repayment id]], Ok tt)
  | None => (st, [], notFound "Record to update not found")
  end.

(** [prisma.loanContract.update({ where: { id }, data })] *)
Definition loanContract_update (id : string) (data : LoanContract -> LoanContract)
  : Db unit := fun st =>
  match loanContract st !! id with
  | Some c =>
      (mkStore (disbursement st) (repayment st)
               (<[id := data c]> (loanContract st)) (ledger st),
       [[W_loanContract id]], Ok tt)
  | None => (st, [], notFound "Record to update not found")
  end.

(** [prisma.disbursement.findUnique({ where: { id } })] *)
Definition disbursement_findUnique (id : string) : Db (option Disbursement) :=
  fun st => (st, [], Ok (disbursement st !! id)).

(** [prisma.disbursement.findFirst({ where: { providerRef } })] *)
Definition disbursement_findFirst (providerRef : string)
  : Db (option (string * Disbursement)) := fun st =>
  (st, [],
   Ok (List.find (fun row => bool_decide (disb_providerRef row.2 = Some providerRef))
                 (map_to_list (disbursement st)))).

(** [prisma.repayment.findFirst({ where: { providerRef } })] *)
Definition repayment_findFirst (providerRef : string)
  : Db (option (string * Repayment)) := fun st =>
  (st, [],
   Ok (List.find (fun row => bool_decide (rep_providerRef row.2 = Some providerRef))
                 (map_to_list (repayment st)))).

(** *** Status maps *)

(** [statusMap] of [updateDisbursementStatus] *)
Definition disbursementStatusMap (s : TransferStatus) : RecordStatus :=
  match s with
  | pending => PENDING
  | processing => PENDING
  | completed => COMPLETED
  | failed => FAILED
  | returned => FAILED
  | canceled => FAILED
  end.

(** [statusMap] of [updateRepaymentStatus] *)
Definition repaymentStatusMap (s : TransferStatus) : RecordStatus :=
  match s with
  | pending => PENDING
  | processing => PENDING
  | completed => COMPLETED
  | failed => FAILED
  | returned => RETURNED
  | canceled => CANCELLED
  end.

(** [availabilityMap] (the same in both functions) *)
Definition availabilityMap (s : TransferStatus) : AvailabilityState :=
  match s with
  | pending => AV_PENDING
  | processing => AV_PENDING
  | completed => AV_AVAILABLE
  | failed => AV_FAILED
  | returned => AV_FAILED
  | canceled => AV_FAILED
  end.

Definition isCompleted (s : TransferStatus) : bool :=
  match s with completed => true | _ => false end.
Definition isFailed (s : TransferStatus) : bool :=
  match s with failed => true | _ => false end.
Definition isReturned (s : TransferStatus) : bool :=
  match s with returned => true | _ => false end.

(** [cond ? new Date() : undefined] *)
Definition dateIf (cond : bool) (now : Z) : option Z :=
  if cond then Some now else None.

(** *** The service *)

(** The [data] of the update in [updateDisbursementStatus], applied to
    the row: status and availability from the maps, [completedAt] on
    'completed', [failedAt] on 'failed' or 'returned', the failure reason
    when the update carries one. *)
Definition disbursementAfter (update : TransferStatusUpdate) (now : Z)
           (d : Disbursement) : Disbursement :=
  mkDisbursement (disb_contractId d) (disb_amountCents d)
    (disbursementStatusMap (status update))
    (availabilityMap (status update))
    (disb_providerRef d) (disb_initiatedAt d)
    (orKeep (dateIf (isCompleted (status update)) now) (disb_completedAt d))
    (orKeep (dateIf (isFailed (status update) || isReturned (status update)) now)
            (disb_failedAt d))
    (orKeep (failureReason update) (disb_failureReason d)).

(** The [data] of the update in [updateRepaymentStatus]. *)
Definition repaymentAfter (update : TransferStatusUpdate) (now : Z)
           (r : Repayment) : Repayment :=
  mkRepayment (rep_contractId r) (rep_amountCents r)
    (repaymentStatusMap (status update))
    (availabilityMap (status update))
    (rep_providerRef r) (rep_initiatedAt r)
    (orKeep (dateIf (isCompleted (status update)) now) (rep_completedAt r))
    (orKeep (dateIf (isFailed (status update)) now) (rep_failedAt r))
    (orKeep (dateIf (isReturned (status update)) now) (rep_returnedAt r))
    (orKeep (failureReason update) (rep_failureReason r)).

(** [TransferService.updateDisbursementStatus]; [now] is the clock read by
    [new Date()]. *)
Definition updateDisbursementStatus (disbursementId : string)
           (update : TransferStatusUpdate) (now : Z) : Db unit :=
  _ ← disbursement_update disbursementId (disbursementAfter update now);
  (* If completed, update the contract status *)
  if isCompleted (status update) then
    found ← disbursement_findUnique disbursementId;
    match found with
    | Some d =>
        loanContract_update (disb_contractId d) (fun c =>
          mkLoanContract (lc_tenantId c) ACTIVE (Some now))
    | None => mret tt
    end
  else mret tt.

(** [TransferService.updateRepaymentStatus] *)
Definition updateRepaymentStatus (repaymentId : string)
           (update : TransferStatusUpdate) (now : Z) : Db unit :=
  repayment_update repaymentId (repaymentAfter update now).

(** [TransferService.processStatusUpdate] *)
Definition processStatusUpdate (update : TransferStatusUpdate) (now : Z)
  : Db unit :=
  d ← disbursement_findFirst (providerTransferId update);
  match d with
  | Some (id, _) => updateDisbursementStatus id update now
  | None =>
      r ← repayment_findFirst (providerTransferId update);
      match r with
      | Some (id, _) => updateRepaymentStatus id update now
      | None => mret tt (* Unknown transfer - log and skip *)
      end
  end.

(** *** A store used in examples: one disbursement of contract [c1] that
    has been sent to the provider, one repayment, an empty ledger. *)
Definition exampleDisbursement (s : RecordStatus) (a : AvailabilityState)
  : Disbursement :=
  mkDisbursement "c1" 50000 s a (Some "moov-xfer-1") 1000 None None None.

Definition exampleRepayment (s : RecordStatus) (a : AvailabilityState)
  : Repayment :=
  mkRepayment "c1" 20000 s a (Some "moov-xfer-2") (Some 2000) None None None None.

Definition exampleStore (s : RecordStatus) (a : AvailabilityState)
           (cs : ContractStatus) : Store :=
  mkStore {[ "disb-1" := exampleDisbursement s a ]}
          {[ "rep-1" := exampleRepayment s a ]}
          {[ "c1" := mkLoanContract "tenant-1" cs None ]}
          Ledger.emptyLedger.

End Transfer.

(* ===================================================================== *)
(** ** Transfer execution (payments/services/transfer-service.ts:
       initiateTransfer, executeTransfer and their helpers)                *)
(* ===================================================================== *)

Module TransferExecution.
Import Common Routing RoutingRules.

(** A row of the [fundingInstrument] table (the key is the row id); the
    type and the status are the strings the service compares. *)
Record FundingInstrument := mkFundingInstrument {
  fi_type : string;
  fi_status : string;
  fi_providerRef : option string
}.

(** A payment method returned by the provider. *)
Record PaymentMethod := mkPaymentMethod {
  paymentMethodID : string;
  paymentMethodType : string
}.

Inductive Role := source | destination.

(** The argument of [moov.createTransfer]; its metadata is the rail and the
    caller's metadata. *)
Record CreateTransferInput := mkCreateTransferInput {
  ct_sourceAccountId : string;
  ct_sourcePaymentMethodId : string;
  ct_destinationAccountId : string;
  ct_destinationPaymentMethodId : string;
  ct_amountCents : Z;
  ct_description : string;
  ct_rail : PaymentRail;
  ct_metadata : option (list (string * string))
}.

(** [interface InitiateTransferInput] *)
Record InitiateTransferInput := mkInitiateTransferInput {
  it_contractId : option string;
  it_sourceAccountId : string;
  it_destinationAccountId : string;
  it_amountCents : Z;
  it_speed : PaymentSpeed;
  it_direction : PaymentDirection;
  it_description : string;
  it_metadata : option (list (string * string));
  it_idempotencyKey : option string
}.

(** [interface TransferResult] *)
Record TransferResult := mkTransferResult {
  tr_id : string;
  tr_providerTransferId : string;
  tr_rail : PaymentRail;
  tr_status : Transfer.TransferStatus;
  tr_amountCents : Z;
  tr_feeCents : Z;
  tr_estimatedArrival : Z;
  tr_initiatedAt : Z;
  tr_completedAt : option Z;
  tr_failureReason : option string
}.

(** The string of a rail. *)
Definition railName (r : PaymentRail) : string :=
  match r with
  | ach => "ach"
  | same_day_ach => "same_day_ach"
  | rtp => "rtp"
  | fednow => "fednow"
  | push_to_card => "push_to_card"
  end.

(** [TransferService.getPaymentMethodTypesForRail] *)
Definition getPaymentMethodTypesForRail (r : PaymentRail) (role : Role)
  : list string :=
  match r with
  | rtp => [ "rtp-credit" ]
  | fednow => [ "fednow-credit" ]
  | push_to_card => [ "push-to-card" ]
  | same_day_ach =>
      match role with
      | source => [ "ach-debit-fund"; "ach-debit-collect" ]
      | destination => [ "ach-credit-same-day" ]
      end
  | ach =>
      match role with
      | source => [ "ach-debit-fund"; "ach-debit-collect" ]
      | destination => [ "ach-credit-standard" ]
      end
  end.

Section Service.

(** The [fundingInstrument] table, which the service only reads. *)
Variable fundingInstrument : gmap string FundingInstrument.

(** The provider: the answer of Moov to a call, as a function of the
    call's arguments (an [Err] is a thrown error). *)
Variable listPaymentMethods : string -> Result (list PaymentMethod).
Variable createTransfer : CreateTransferInput -> Result string.

(** The clock: [calculateEstimatedArrival] of the routing service and
    [new Date()]. *)
Variable calculateEstimatedArrival : PaymentRail -> Z.
Variable now : Z.

(** [`pm-${rail}-${instrumentId}`] *)
Definition mockPaymentMethodId (r : PaymentRail) (instrumentId : string) : string :=
  "pm-" +:+ railName r +:+ "-" +:+ instrumentId.

(** [TransferService.getPaymentMethodId] *)
Definition getPaymentMethodId (instrumentId : string) (r : PaymentRail)
           (role : Role) : Result string :=
  match fundingInstrument !! instrumentId ≫= fi_providerRef with
  | Some providerRef =>
      if bool_decide (providerRef = EmptyString) then
        Ok (mockPaymentMethodId r instrumentId)
      else
        (* Get payment methods from Moov *)
        paymentMethods ← listPaymentMethods providerRef;
        (* Find matching payment method for the rail *)
        let targetTypes := getPaymentMethodTypesForRail r role in
        match List.find (fun pm => bool_decide (paymentMethodType pm ∈ targetTypes))
                        paymentMethods with
        | Some matched => Ok (paymentMethodID matched)
        | None => Ok (mockPaymentMethodId r instrumentId)
        end
  | None =>
      (* Return a mock payment method ID for testing *)
      Ok (mockPaymentMethodId r instrumentId)
  end.

(** The body of the [try] of [executeTransfer] for one rail: the id of
    the transfer the provider created, or the error thrown. *)
Definition attemptRail (src dst : InstrumentCapabilities) (amountCents : Z)
           (description : string) (metadata : option (list (string * string)))
           (r : PaymentRail) : Result string :=
  sourcePaymentMethodId ← getPaymentMethodId (inst_id src) r source;
  destPaymentMethodId ← getPaymentMethodId (inst_id dst) r destination;
  createTransfer
    (mkCreateTransferInput (inst_id src) sourcePaymentMethodId (inst_id dst)
       destPaymentMethodId amountCents description r metadata).

(** The [for (const rail of railsToTry)] loop of [executeTransfer] and the
    [throw] after it. *)
Fixpoint tryRails (routing : RoutingDecision) (src dst : InstrumentCapabilities)
         (amountCents : Z) (description : string)
         (metadata : option (list (string * string)))
         (railsToTry triedRails : list PaymentRail) (lastError : option AppError)
  : Result TransferResult :=
  match railsToTry with
  | [] =>
      (* All rails failed *)
      Err (mkAppError PROVIDER_ERROR
             ("Transfer failed on all rails ("
              +:+ String.concat ", " (map railName triedRails) +:+ "): "
              +:+ match lastError with
                  | Some e => message e
                  | None => "undefined"
                  end))
  | r :: rest =>
      if includes triedRails r then
        tryRails routing src dst amountCents description metadata rest
          triedRails lastError
      else
        let triedRails := triedRails ++ [r] in
        match attemptRail src dst amountCents description metadata r with
        | Ok transferID =>
            Ok (mkTransferResult transferID transferID r Transfer.processing
                  amountCents (fee routing) (estimatedArrival routing) now
                  None None)
        | Err e =>
            (* Continue to next rail *)
            tryRails routing src dst amountCents description metadata rest
              triedRails (Some e)
        end
  end.

(** [TransferService.executeTransfer] *)
Definition executeTransfer (routing : RoutingDecision)
           (src dst : InstrumentCapabilities) (amountCents : Z)
           (description : string) (metadata : option (list (string * string)))
  : Result TransferResult :=
  (* Try primary rail, then fallbacks *)
  let railsToTry := rail routing :: fallbackRails routing in
  tryRails routing src dst amountCents description metadata railsToTry [] None.

(** [TransferService.getInstrumentCapabilities] *)
Definition getInstrumentCapabilities (instrumentId : string)
  : Result InstrumentCapabilities :=
  match fundingInstrument !! instrumentId with
  | None => notFound "Funding instrument"
  | Some instrument =>
      let isVerified := bool_decide (fi_status instrument = "VERIFIED") in
      (* Determine supported rails based on instrument type and verification *)
      let supportedRails :=
        if bool_decide (fi_type instrument = "BANK_ACCOUNT") then
          if isVerified
          then [ rtp; fednow; same_day_ach; ach ]
          else [ ach ]
        else if bool_decide (fi_type instrument = "DEBIT_CARD") then
          [ push_to_card ]
        else [] in
      Ok (mkInstrumentCapabilities instrumentId
            (if bool_decide (fi_type instrument = "BANK_ACCOUNT")
             then bank_account else debit_card)
            supportedRails isVerified)
  end.

(** [TransferService.initiateTransfer] *)
Definition initiateTransfer (tenantId : string) (input : InitiateTransferInput)
  : Result TransferResult :=
  (* Get instrument capabilities *)
  sourceInstrument ← getInstrumentCapabilities (it_sourceAccountId input);
  destInstrument ← getInstrumentCapabilities (it_destinationAccountId input);
  (* Route the payment *)
  routingDecision ←
    routePayment calculateEstimatedArrival
      (mkRoutingInput (it_speed input) (it_direction input)
         (it_amountCents input) sourceInstrument (Some destInstrument));
  (* Execute the transfer *)
  executeTransfer routingDecision sourceInstrument destInstrument
    (it_amountCents input) (it_description input) (it_metadata input).

End Service.

End TransferExecution.

(* ===================================================================== *)
(** ** JSON documents and JavaScript strings                               *)
(* ===================================================================== *)

Module JS.

(** The JSON documents the services build and read back: [JSON.parse] of
    a [JSON.stringify]ed document is the document, so a field holding JSON
    text is modelled by the document it encodes.  Objects list their own
    properties, each name once. *)
#[warnings="-register-all"]
Inductive Json :=
| JNull
| JBool (b : bool)
| JNum (n : Z)
| JStr (s : string)
| JObj (fields : list (string * Json)).

(** Property access [doc.key] on a value other than [null]; [None] is
    [undefined]. *)
Definition get (key : string) (doc : Json) : option Json :=
  match doc with
  | JObj fields =>
      snd <$> List.find (fun kv => String.eqb (fst kv) key) fields
  | _ => None
  end.

(** JavaScript truthiness. *)
Definition truthy (v : Json) : bool :=
  match v with
  | JNull => false
  | JBool b => b
  | JNum n => negb (n =? 0)
  | JStr s => negb (String.eqb s "")
  | JObj _ => true
  end.

Definition lowerChar (c : ascii) : ascii :=
  let n := nat_of_ascii c in
  if (65 <=? n)%nat && (n <=? 90)%nat then ascii_of_nat (n + 32) else c.

(** [String.prototype.toLowerCase] on ASCII text. *)
Fixpoint toLowerCase (s : string) : string :=
  match s with
  | EmptyString => EmptyString
  | String c rest => String (lowerChar c) (toLowerCase rest)
  end.

(** Text of ASCII characters only. *)
Definition asciiChar (c : ascii) : bool := (nat_of_ascii c <? 128)%nat.

Fixpoint asciiText (s : string) : bool :=
  match s with
  | EmptyString => true
  | String c rest => asciiChar c && asciiText rest
  end.

(** The [length] of a JavaScript string, in UTF-16 code units, read off the
    UTF-8 bytes that hold the string here: the first byte of a character
    counts one unit, two when the character lies outside the basic plane (a
    sequence of four bytes, first byte 0xF0 or more), and the bytes that
    continue a character (0x80 to 0xBF) count none. *)
Definition codeUnits (c : ascii) : nat :=
  let n := nat_of_ascii c in
  if (n <? 128)%nat then 1%nat
  else if (n <? 192)%nat then 0%nat
  else if (n <? 240)%nat then 1%nat
  else 2%nat.

Fixpoint utf16Length (s : string) : nat :=
  match s with
  | EmptyString => 0%nat
  | String c rest => (codeUnits c + utf16Length rest)%nat
  end.

(** The names of the properties of [Object.prototype], which an object
    literal inherits: [literal[name]] is a function or an object, not
    [undefined], for each of them. *)
Definition Object_prototype : list string :=
  [ "constructor"; "__defineGetter__"; "__defineSetter__"; "hasOwnProperty";
    "__lookupGetter__"; "__lookupSetter__"; "isPrototypeOf";
    "propertyIsEnumerable"; "toString"; "valueOf"; "__proto__";
    "toLocaleString" ].

Definition inherited (name : string) : bool :=
  bool_decide (name ∈ Object_prototype).

(** A JavaScript [Map]: keys in insertion order, one entry per key. *)
Definition JsMap (V : Type) : Type := list (string * V).

Definition mapGet {V} (m : JsMap V) (k : string) : option V :=
  snd <$> List.find (fun kv => String.eqb (fst kv) k) m.

Fixpoint mapSet {V} (m : JsMap V) (k : string) (v : V) : JsMap V :=
  match m with
  | [] => [(k, v)]
  | (k', v') :: rest =>
      if String.eqb k' k then (k', v) :: rest else (k', v') :: mapSet rest k v
  end.

Definition mapDelete {V} (m : JsMap V) (k : string) : JsMap V :=
  List.filter (fun kv => negb (String.eqb (fst kv) k)) m.

(** [new Map(pairs)] *)
Definition mapOfPairs {V} (pairs : list (string * V)) : JsMap V :=
  fold_left (fun m kv => mapSet m (fst kv) (snd kv)) pairs [].

End JS.

(* ===================================================================== *)
(** ** Reconciliation engine (modules/reconciliation/{types,service}.ts)   *)
(* ===================================================================== *)

Module Reconciliation.
Import Common JS.

Inductive ReconciliationType :=
| transfer_status | transfer_missing | transfer_orphaned
| amount_mismatch | ledger_imbalance | prefund_mismatch.

Inductive ExceptionSeverity := low | medium | high | critical.

Inductive ExceptionStatus := open | investigating | resolved | ignored.

Inductive ResolutionType :=
| auto_corrected | manual_adjustment | provider_confirmed | local_confirmed
| written_off | duplicate | false_positive.

Inductive LocalRecordType := disbursement | repayment | prefund | ledger.

(** [interface ReconciliationException]; the random [id] is left out, no
    function of the service reads it. *)
Record ReconciliationException := mkException {
  tenantId : string;
  type : ReconciliationType;
  severity : ExceptionSeverity;
  status : ExceptionStatus;
  localRecordType : option LocalRecordType;
  localRecordId : option string;
  providerRecordId : option string;
  localValue : option Json;
  providerValue : option Json;
  discrepancyAmountCents : option Z;
  description : string;
  reconciliationDate : Z;
  detectedAt : Z;
  resolvedAt : option Z;
  resolvedBy : option string;
  resolutionType : option ResolutionType;
  resolutionNotes : option string
}.

(** [interface ReconciliationConfig] *)
Record ReconciliationConfig := mkConfig {
  defaultLookbackDays : Z;
  autoResolveStatusUpdates : bool;
  autoResolveThresholdCents : Z;
  highSeverityThresholdCents : Z;
  criticalSeverityThresholdCents : Z;
  notifyOnCritical : bool;
  notifyOnHighCount : Z
}.

(** [DEFAULT_RECONCILIATION_CONFIG] *)
Definition DEFAULT_RECONCILIATION_CONFIG : ReconciliationConfig :=
  mkConfig 7 true 100 10000 100000 true 10.

(** [interface ProviderTransferRecord] *)
Record ProviderTransferRecord := mkProviderTransfer {
  transferId : string;
  pt_status : string;
  pt_amountCents : Z;
  pt_createdAt : Z;
  pt_completedAt : option Z;
  pt_metadata : option (list (string * string))
}.

(** The per-table section of [interface ReconciliationSummary]. *)
Record TransferSummary := mkTransferSummary {
  checked : Z;
  matched : Z;
  statusMismatch : Z;
  amountMismatch : Z;
  missing : Z;
  orphaned : Z
}.

(** *** Status normalization *)

(** [statusMap] of [normalizeStatus] *)
Definition statusMap : gmap string string :=
  list_to_map
    [ ("PENDING", "pending");
      ("PROCESSING", "pending");
      ("COMPLETED", "completed");
      ("FAILED", "failed");
      ("RETURNED", "returned");
      ("CANCELLED", "cancelled");
      ("created", "pending");
      ("pending", "pending");
      ("completed", "completed");
      ("failed", "failed");
      ("reversed", "returned") ].

(** [ReconciliationService.normalizeStatus]:
    [statusMap[status] || status.toLowerCase()].
    Status tokens are ASCII text and are not names of [Object.prototype]
    members ([asciiText], [inherited]). *)
Definition normalizeStatus (status : string) : string :=
  match statusMap !! status with
  | Some v => if String.eqb v "" then toLowerCase status else v
  | None => toLowerCase status
  end.

(** *** Severity *)

(** [ReconciliationService.calculateSeverity] *)
Definition calculateSeverity (cfg : ReconciliationConfig) (amountCents : Z)
  : ExceptionSeverity :=
  if amountCents >=? criticalSeverityThresholdCents cfg then critical
  else if amountCents >=? highSeverityThresholdCents cfg then high
  else if amountCents >=? 1000 then medium
  else low.

(** [ReconciliationService.getStatusMismatchSeverity] *)
Definition getStatusMismatchSeverity (localStatus providerStatus : string)
  : ExceptionSeverity :=
  if String.eqb localStatus "completed" && String.eqb providerStatus "failed"
  then critical
  else if String.eqb localStatus "pending" && String.eqb providerStatus "completed"
  then high
  else medium.

(** *** Auto-resolution *)

(** [normalizeStatus(doc.status || '')] for [doc = JSON.parse(value || '{}')];
    [None] when the evaluation throws (property access on [null], or
    [toLowerCase] on a truthy value that is not a string). *)
Definition statusOfValue (value : option Json) : option string :=
  let doc := default (JObj []) value in
  match doc with
  | JNull => None
  | _ =>
      match get "status" doc with
      | Some (JStr s) => Some (normalizeStatus s)
      | Some v => if truthy v then None else Some (normalizeStatus "")
      | None => Some (normalizeStatus "")
      end
  end.

Definition isTransferStatus (t : ReconciliationType) : bool :=
  match t with transfer_status => true | _ => false end.

(** [ReconciliationService.canAutoResolve] *)
Definition canAutoResolve (cfg : ReconciliationConfig)
           (exception : ReconciliationException) : bool :=
  if negb (isTransferStatus (type exception)) then false
  else if match discrepancyAmountCents exception with
          | Some d => negb (d =? 0) && (d >? autoResolveThresholdCents cfg)
          | None => false
          end
  then false
  else
    (* try *)
    match statusOfValue (localValue exception),
          statusOfValue (providerValue exception) with
    | Some localStatus, Some providerStatus =>
        String.eqb localStatus "pending" && String.eqb providerStatus "completed"
    | _, _ => false (* catch *)
    end.

(** The assignments at the end of the [try] block of [autoResolveException]. *)
Definition markResolved (exception : ReconciliationException) (now : Z)
  : ReconciliationException :=
  mkException (tenantId exception) (type exception) (severity exception)
    resolved
    (localRecordType exception) (localRecordId exception)
    (providerRecordId exception) (localValue exception)
    (providerValue exception) (discrepancyAmountCents exception)
    (description exception) (reconciliationDate exception)
    (detectedAt exception)
    (Some now) (resolvedBy exception) (Some auto_corrected)
    (Some "Auto-resolved: updated status from provider").

(** [data: { status: 'COMPLETED', availabilityState: 'AVAILABLE', completedAt: new Date() }] *)
Definition completeDisbursement (now : Z) (d : Transfer.Disbursement)
  : Transfer.Disbursement :=
  Transfer.mkDisbursement (Transfer.disb_contractId d) (Transfer.disb_amountCents d)
    Transfer.COMPLETED Transfer.AV_AVAILABLE
    (Transfer.disb_providerRef d) (Transfer.disb_initiatedAt d)
    (Some now) (Transfer.disb_failedAt d) (Transfer.disb_failureReason d).

Definition completeRepayment (now : Z) (r : Transfer.Repayment)
  : Transfer.Repayment :=
  Transfer.mkRepayment (Transfer.rep_contractId r) (Transfer.rep_amountCents r)
    Transfer.COMPLETED Transfer.AV_AVAILABLE
    (Transfer.rep_providerRef r) (Transfer.rep_initiatedAt r)
    (Some now) (Transfer.rep_failedAt r) (Transfer.rep_returnedAt r)
    (Transfer.rep_failureReason r).

(** [ReconciliationService.autoResolveException]: the store after the
    call, its commits, and the exception object after the call (it is
    mutated in place).  A failed update is caught and logged. *)
Definition autoResolveException (exception : ReconciliationException)
           (now : Z) (st : Transfer.Store)
  : Transfer.Store * list Transfer.Commit * ReconciliationException :=
  match localRecordId exception, localRecordType exception with
  | Some id, Some recordType =>
      if String.eqb id "" then (st, [], exception)
      else
        (* try; JSON.parse(exception.providerValue || '{}') is not used *)
        let update : Transfer.Db unit :=
          match recordType with
          | disbursement =>
              Transfer.disbursement_update id (completeDisbursement now)
          | repayment =>
              Transfer.repayment_update id (completeRepayment now)
          | _ => mret tt
          end in
        match update st with
        | (st', log, Ok _) => (st', log, markResolved exception now)
        | (st', log, Err _) => (st', log, exception) (* catch *)
        end
  | _, _ => (st, [], exception)
  end.

(** *** Detection *)

(** The name of a Prisma enum value, as the service reads it. *)
Definition statusName (s : Transfer.RecordStatus) : string :=
  match s with
  | Transfer.INITIATED => "INITIATED"
  | Transfer.SCHEDULED => "SCHEDULED"
  | Transfer.PENDING => "PENDING"
  | Transfer.COMPLETED => "COMPLETED"
  | Transfer.FAILED => "FAILED"
  | Transfer.RETURNED => "RETURNED"
  | Transfer.CANCELLED => "CANCELLED"
  end.

(** [ReconciliationService.createException]: an open exception detected
    [now], with the fields given by the caller. *)
Definition createException (now : Z) (tenantId : string)
           (type : ReconciliationType) (severity : ExceptionSeverity)
           (localRecordType : option LocalRecordType)
           (localRecordId providerRecordId : option string)
           (localValue providerValue : option Json)
           (discrepancyAmountCents : option Z) (description : string)
  : ReconciliationException :=
  mkException tenantId type severity open localRecordType localRecordId
    providerRecordId localValue providerValue discrepancyAmountCents
    description now now None None None None.

Definition bump_matched (s : TransferSummary) : TransferSummary :=
  mkTransferSummary (checked s) (matched s + 1) (statusMismatch s)
    (amountMismatch s) (missing s) (orphaned s).
Definition bump_statusMismatch (s : TransferSummary) : TransferSummary :=
  mkTransferSummary (checked s) (matched s) (statusMismatch s + 1)
    (amountMismatch s) (missing s) (orphaned s).
Definition bump_amountMismatch (s : TransferSummary) : TransferSummary :=
  mkTransferSummary (checked s) (matched s) (statusMismatch s)
    (amountMismatch s + 1) (missing s) (orphaned s).
Definition bump_missing (s : TransferSummary) : TransferSummary :=
  mkTransferSummary (checked s) (matched s) (statusMismatch s)
    (amountMismatch s) (missing s + 1) (orphaned s).
Definition bump_orphaned (s : TransferSummary) : TransferSummary :=
  mkTransferSummary (checked s) (matched s) (statusMismatch s)
    (amountMismatch s) (missing s) (orphaned s + 1).
Definition set_checked (s : TransferSummary) (n : Z) : TransferSummary :=
  mkTransferSummary n (matched s) (statusMismatch s)
    (amountMismatch s) (missing s) (orphaned s).

(** [hoursSinceInitiated > 24], on milliseconds. *)
Definition olderThan24h (now initiatedAt : Z) : bool :=
  now - initiatedAt >? 24 * (1000 * 60 * 60).

Section Detection.

(** [Date.prototype.toISOString], used by [JSON.stringify] on dates. *)
Variable toISOString : Z -> string.

Variable cfg : ReconciliationConfig.

(** [JSON.stringify(providerRecord)] as a document. *)
Definition providerRecordJson (t : ProviderTransferRecord) : Json :=
  JObj ([ ("transferId", JStr (transferId t));
          ("status", JStr (pt_status t));
          ("amountCents", JNum (pt_amountCents t));
          ("createdAt", JStr (toISOString (pt_createdAt t))) ]
        ++ match pt_completedAt t with
           | Some c => [ ("completedAt", JStr (toISOString c)) ]
           | None => []
           end
        ++ match pt_metadata t with
           | Some md => [ ("metadata", JObj (map (fun kv => (fst kv, JStr (snd kv))) md)) ]
           | None => []
           end).

(** The comparison of one local record that the provider knows, shared
    by the two loops: status first, then amount. *)
Definition compareWithProvider (now : Z) (tenant : string)
           (recordType : LocalRecordType)
           (id : string) (providerRef : option string)
           (recordStatus : Transfer.RecordStatus) (amountCents : Z)
           (providerRecord : ProviderTransferRecord)
           (summary : TransferSummary)
  : TransferSummary * list ReconciliationException :=
  let localStatus := normalizeStatus (statusName recordStatus) in
  let providerStatus := normalizeStatus (pt_status providerRecord) in
  if negb (String.eqb localStatus providerStatus) then
    (bump_statusMismatch summary,
     [ createException now tenant transfer_status
         (getStatusMismatchSeverity localStatus providerStatus)
         (Some recordType) (Some id) providerRef
         (Some (JObj [ ("status", JStr (statusName recordStatus)) ]))
         (Some (JObj [ ("status", JStr (pt_status providerRecord)) ]))
         None
         ("Status mismatch: local=" +:+ statusName recordStatus
          +:+ ", provider=" +:+ pt_status providerRecord) ])
  else if negb (amountCents =? pt_amountCents providerRecord) then
    let discrepancy := Z.abs (amountCents - pt_amountCents providerRecord) in
    (bump_amountMismatch summary,
     [ createException now tenant amount_mismatch
         (calculateSeverity cfg discrepancy)
         (Some recordType) (Some id) providerRef
         (Some (JObj [ ("amountCents", JNum amountCents) ]))
         (Some (JObj [ ("amountCents", JNum (pt_amountCents providerRecord)) ]))
         (Some discrepancy)
         ("Amount mismatch: local=" +:+ pretty amountCents
          +:+ ", provider=" +:+ pretty (pt_amountCents providerRecord)) ])
  else (bump_matched summary, []).

(** The rows read by [prisma.disbursement.findMany] in
    [reconcileDisbursements]. *)
Definition disbursementsInPeriod (st : Transfer.Store) (tenant : string)
           (periodStart periodEnd : Z)
  : list (string * Transfer.Disbursement) :=
  List.filter
    (fun row =>
       match Transfer.loanContract st !! Transfer.disb_contractId (snd row) with
       | Some c => String.eqb (Transfer.lc_tenantId c) tenant
       | None => false
       end
       && (Transfer.disb_initiatedAt (snd row) >=? periodStart)
       && (Transfer.disb_initiatedAt (snd row) <=? periodEnd)
       && bool_decide (Transfer.disb_providerRef (snd row) <> None))
    (map_to_list (Transfer.disbursement st)).

(** The rows read by [prisma.repayment.findMany] in [reconcileRepayments]. *)
Definition repaymentsInPeriod (st : Transfer.Store) (tenant : string)
           (periodStart periodEnd : Z)
  : list (string * Transfer.Repayment) :=
  List.filter
    (fun row =>
       match Transfer.loanContract st !! Transfer.rep_contractId (snd row) with
       | Some c => String.eqb (Transfer.lc_tenantId c) tenant
       | None => false
       end
       && match Transfer.rep_initiatedAt (snd row) with
          | Some t => (t >=? periodStart) && (t <=? periodEnd)
          | None => false
          end
       && bool_decide (Transfer.rep_providerRef (snd row) <> None))
    (map_to_list (Transfer.repayment st)).

(** One iteration of [for (const disbursement of disbursements)]. *)
Definition checkDisbursement (now : Z) (tenant : string)
           (acc : JsMap ProviderTransferRecord * TransferSummary
                  * list ReconciliationException)
           (row : string * Transfer.Disbursement)
  : JsMap ProviderTransferRecord * TransferSummary
    * list ReconciliationException :=
  let '(providerTransferMap, summary, exceptions) := acc in
  let '(id, d) := row in
  let providerRef := Transfer.disb_providerRef d in
  match providerRef ≫= mapGet providerTransferMap with
  | None =>
      if olderThan24h now (Transfer.disb_initiatedAt d) then
        (providerTransferMap, bump_orphaned summary,
         exceptions ++
         [ createException now tenant transfer_orphaned
             (calculateSeverity cfg (Transfer.disb_amountCents d))
             (Some disbursement) (Some id) providerRef
             (Some (JObj [ ("status", JStr (statusName (Transfer.disb_status d)));
                           ("amountCents", JNum (Transfer.disb_amountCents d));
                           ("initiatedAt",
                            JStr (toISOString (Transfer.disb_initiatedAt d))) ]))
             None None
             ("Disbursement " +:+ id +:+ " not found in provider after 24 hours") ])
      else acc
  | Some providerRecord =>
      let '(summary', found) :=
        compareWithProvider now tenant disbursement id providerRef
          (Transfer.disb_status d) (Transfer.disb_amountCents d)
          providerRecord summary in
      (* Remove from map to track what's been matched *)
      (match providerRef with
       | Some ref => mapDelete providerTransferMap ref
       | None => providerTransferMap
       end,
       summary', exceptions ++ found)
  end.

(** [metadata?.type === 'disbursement'] *)
Definition isDisbursementTransfer (t : ProviderTransferRecord) : bool :=
  match pt_metadata t with
  | Some md =>
      match mapGet md "type" with
      | Some v => String.eqb v "disbursement"
      | None => false
      end
  | None => false
  end.

(** [ReconciliationService.reconcileDisbursements]; [providerTransfers]
    is the answer of [getProviderTransfers] for the period. *)
Definition reconcileDisbursements (st : Transfer.Store)
           (providerTransfers : list ProviderTransferRecord) (now : Z)
           (tenant : string) (periodStart periodEnd : Z)
           (summary : TransferSummary)
  : TransferSummary * list ReconciliationException :=
  let disbursements := disbursementsInPeriod st tenant periodStart periodEnd in
  let summary := set_checked summary (Z.of_nat (length disbursements)) in
  let providerTransferMap :=
    mapOfPairs (map (fun t => (transferId t, t)) providerTransfers) in
  let '(remainingMap, summary, exceptions) :=
    fold_left (checkDisbursement now tenant) disbursements
              (providerTransferMap, summary, []) in
  (* Any remaining in provider map are missing locally *)
  fold_left
    (fun acc entry =>
       let '(summary, exceptions) := acc in
       let '(transferId, providerRecord) := entry in
       if isDisbursementTransfer providerRecord then
         (bump_missing summary,
          exceptions ++
          [ createException now tenant transfer_missing
              (calculateSeverity cfg (pt_amountCents providerRecord))
              None None (Some transferId)
              None (Some (providerRecordJson providerRecord))
              None
              ("Provider transfer " +:+ transferId
               +:+ " not found in local disbursements") ])
       else acc)
    remainingMap (summary, exceptions).

(** One iteration of [for (const repayment of repayments)]. *)
Definition checkRepayment (now : Z) (tenant : string)
           (providerTransferMap : JsMap ProviderTransferRecord)
           (acc : TransferSummary * list ReconciliationException)
           (row : string * Transfer.Repayment)
  : TransferSummary * list ReconciliationException :=
  let '(summary, exceptions) := acc in
  let '(id, r) := row in
  let providerRef := Transfer.rep_providerRef r in
  match providerRef ≫= mapGet providerTransferMap with
  | None =>
      if match Transfer.rep_initiatedAt r with
         | Some t => olderThan24h now t
         | None => false
         end
      then
        (bump_orphaned summary,
         exceptions ++
         [ createException now tenant transfer_orphaned
             (calculateSeverity cfg (Transfer.rep_amountCents r))
             (Some repayment) (Some id) providerRef
             (Some (JObj [ ("status", JStr (statusName (Transfer.rep_status r)));
                           ("amountCents", JNum (Transfer.rep_amountCents r));
                           ("initiatedAt",
                            match Transfer.rep_initiatedAt r with
                            | Some t => JStr (toISOString t)
                            | None => JNull
                            end) ]))
             None None
             ("Repayment " +:+ id +:+ " not found in provider after 24 hours") ])
      else acc
  | Some providerRecord =>
      let '(summary', found) :=
        compareWithProvider now tenant repayment id providerRef
          (Transfer.rep_status r) (Transfer.rep_amountCents r)
          providerRecord summary in
      (summary', exceptions ++ found)
  end.

(** [ReconciliationService.reconcileRepayments] *)
Definition reconcileRepayments (st : Transfer.Store)
           (providerTransfers : list ProviderTransferRecord) (now : Z)
           (tenant : string) (periodStart periodEnd : Z)
           (summary : TransferSummary)
  : TransferSummary * list ReconciliationException :=
  let repayments := repaymentsInPeriod st tenant periodStart periodEnd in
  let summary := set_checked summary (Z.of_nat (length repayments)) in
  let providerTransferMap :=
    mapOfPairs (map (fun t => (transferId t, t)) providerTransfers) in
  fold_left (checkRepayment now tenant providerTransferMap) repayments
            (summary, []).

End Detection.

(** *** The auto-resolve block of [runReconciliation] *)

(** [for (const exception of exceptions) if (this.canAutoResolve(exception))
     { await this.autoResolveException(exception); autoResolved.push(exception); }]
    The exception objects are shared by [exceptions] and [autoResolved]:
    the first component of the result is the array [exceptions] after the
    loop, the second the array [autoResolved]. *)
Fixpoint autoResolveLoop (cfg : ReconciliationConfig) (now : Z)
         (exceptions : list ReconciliationException) (st : Transfer.Store)
  : Transfer.Store * list Transfer.Commit
    * list ReconciliationException * list ReconciliationException :=
  match exceptions with
  | [] => (st, [], [], [])
  | exception :: rest =>
      if canAutoResolve cfg exception then
        let '(st1, log1, exception') := autoResolveException exception now st in
        let '(st2, log2, rest', autoResolved) := autoResolveLoop cfg now rest st1 in
        (st2, log1 ++ log2, exception' :: rest', exception' :: autoResolved)
      else
        let '(st2, log2, rest', autoResolved) := autoResolveLoop cfg now rest st in
        (st2, log2, exception :: rest', autoResolved)
  end.

(** [if (!dryRun && this.config.autoResolveStatusUpdates) { ... }] *)
Definition autoResolveEligible (cfg : ReconciliationConfig) (dryRun : bool)
           (now : Z) (exceptions : list ReconciliationException)
           (st : Transfer.Store)
  : Transfer.Store * list Transfer.Commit
    * list ReconciliationException * list ReconciliationException :=
  if negb dryRun && autoResolveStatusUpdates cfg
  then autoResolveLoop cfg now exceptions st
  else (st, [], exceptions, []).

(** *** An example run: the store of [Transfer.exampleStore] with its
    records PENDING, and a provider that reports the disbursement's
    transfer as completed with the same amount. *)
Definition emptySummary : TransferSummary := mkTransferSummary 0 0 0 0 0 0.

Definition exampleExceptions : list ReconciliationException :=
  (reconcileDisbursements (fun t : Z => pretty t) DEFAULT_RECONCILIATION_CONFIG
     (Transfer.exampleStore Transfer.PENDING Transfer.AV_PENDING Transfer.ACTIVE)
     [ mkProviderTransfer "moov-xfer-1" "completed" 50000 1000 (Some 4000) None ]
     9000 "tenant-1" 0 10000 emptySummary).2.

(** *** Vocabulary of the statements *)

(** A record completed at [now]: COMPLETED, AVAILABLE, [completedAt = now]. *)
Definition disbursementCompletedAt (now : Z) (d : Transfer.Disbursement) : Prop :=
  Transfer.disb_status d = Transfer.COMPLETED
  /\ Transfer.disb_availabilityState d = Transfer.AV_AVAILABLE
  /\ Transfer.disb_completedAt d = Some now.

Definition repaymentCompletedAt (now : Z) (r : Transfer.Repayment) : Prop :=
  Transfer.rep_status r = Transfer.COMPLETED
  /\ Transfer.rep_availabilityState r = Transfer.AV_AVAILABLE
  /\ Transfer.rep_completedAt r = Some now.

(** The exception names a disbursement or repayment row of the store, as
    the exceptions built by [compareWithProvider] do. *)
Definition targetsRecord (st : Transfer.Store)
           (exception : ReconciliationException) : Prop :=
  match localRecordId exception, localRecordType exception with
  | Some id, Some disbursement =>
      id <> "" /\ is_Some (Transfer.disbursement st !! id)
  | Some id, Some repayment =>
      id <> "" /\ is_Some (Transfer.repayment st !! id)
  | _, _ => False
  end.

(** The row named by the exception is completed at [now]. *)
Definition recordCompleted (st : Transfer.Store) (now : Z)
           (exception : ReconciliationException) : Prop :=
  match localRecordId exception, localRecordType exception with
  | Some id, Some disbursement =>
      exists d, Transfer.disbursement st !! id = Some d
                /\ disbursementCompletedAt now d
  | Some id, Some repayment =>
      exists r, Transfer.repayment st !! id = Some r
                /\ repaymentCompletedAt now r
  | _, _ => False
  end.

(** If the exception can be auto-resolved, it names a row of the store. *)
Definition linkedTo (cfg : ReconciliationConfig) (st : Transfer.Store)
           (exception : ReconciliationException) : Prop :=
  canAutoResolve cfg exception = true -> targetsRecord st exception.

(** The exception names the row [id] of the table of [recordType]. *)
Definition namesRecord (exception : ReconciliationException)
           (recordType : LocalRecordType) (id : string) : Prop :=
  localRecordId exception = Some id /\ localRecordType exception = Some recordType.

(** No row is created or deleted, and a row completed at [now] stays so. *)
Definition keepsCompleted (now : Z) (st st' : Transfer.Store) : Prop :=
  (forall id, is_Some (Transfer.disbursement st' !! id)
              <-> is_Some (Transfer.disbursement st !! id))
  /\ (forall id, is_Some (Transfer.repayment st' !! id)
                 <-> is_Some (Transfer.repayment st !! id))
  /\ (forall id d, Transfer.disbursement st !! id = Some d ->
                   disbursementCompletedAt now d ->
                   exists d', Transfer.disbursement st' !! id = Some d'
                              /\ disbursementCompletedAt now d')
  /\ (forall id r, Transfer.repayment st !! id = Some r ->
                   repaymentCompletedAt now r ->
                   exists r', Transfer.repayment st' !! id = Some r'
                              /\ repaymentCompletedAt now r').

(** The exceptions array after the auto-resolve loop: the exceptions that
    can be auto-resolved are marked resolved, the others are as they were. *)
Definition resolvedWhereEligible (cfg : ReconciliationConfig) (now : Z)
           (exceptions : list ReconciliationException)
  : list ReconciliationException :=
  map (fun e => if canAutoResolve cfg e then markResolved e now else e) exceptions.

(** The three conditions of auto-resolution. *)
Definition autoResolvable (cfg : ReconciliationConfig)
           (exception : ReconciliationException) : Prop :=
  type exception = transfer_status
  /\ (forall d, discrepancyAmountCents exception = Some d ->
                d <= autoResolveThresholdCents cfg)
  /\ statusOfValue (localValue exception) = Some "pending"
  /\ statusOfValue (providerValue exception) = Some "completed".

End Reconciliation.

(* ===================================================================== *)
(** ** Reconciliation engine: the ledger check and the counters
       (modules/reconciliation/{types,service}.ts)                         *)
(* ===================================================================== *)

Module ReconciliationChecks.
Import Common JS Reconciliation.



(** *** Vocabulary of the statements *)

(** The order of severities. *)
Definition severityRank (s : ExceptionSeverity) : nat :=
  match s with
  | low => 0
  | medium => 1
  | high => 2
  | critical => 3
  end.

(** The counters of a summary that count exceptions. *)
Definition exceptionsCounted (s : TransferSummary) : Z :=
  statusMismatch s + amountMismatch s + missing s + orphaned s.

(** The counters of [s'] are those of [s] advanced by the exceptions
    [found] while at most [rows] local records were compared: no counter
    decreases, the counters that count exceptions grow by the number of
    exceptions, and the records matched, mismatched or orphaned are at most
    [rows]. *)
Definition accountsFor (s s' : TransferSummary)
           (found : list ReconciliationException) (rows : Z) : Prop :=
  matched s <= matched s'
  /\ statusMismatch s <= statusMismatch s'
  /\ amountMismatch s <= amountMismatch s'
  /\ missing s <= missing s'
  /\ orphaned s <= orphaned s'
  /\ exceptionsCounted s' = exceptionsCounted s + Z.of_nat (length found)
  /\ (matched s' - matched s) + (statusMismatch s' - statusMismatch s)
     + (amountMismatch s' - amountMismatch s) + (orphaned s' - orphaned s)
     <= rows.

(** An exception as [createException] builds it for the run of [tenant]
    at [now]. *)
Definition detectedBy (tenant : string) (now : Z)
           (e : ReconciliationException) : Prop :=
  status e = open /\ tenantId e = tenant /\ detectedAt e = now
  /\ resolvedAt e = None.

End ReconciliationChecks.

(* ===================================================================== *)
(** ** Prefund accounts: the routes of modules/prefund/routes.ts, the waiver
       check of payments/services/routing-service.ts and the prefund check
       of modules/reconciliation                                           *)
(* ===================================================================== *)

Module Prefund.
Import Common JS Reconciliation.

(** A row of the [prefundTransaction] table; the type and the status are
    the strings the code compares. *)
Record PrefundTransaction := mkPrefundTransaction {
  pf_customerId : string;
  pf_type : string;
  pf_amountCents : Z;
  pf_fundingInstrumentId : string;
  pf_status : string;
  pf_balanceAfterCents : Z;
  pf_availableAfterCents : Z
}.

(** The [customer] table (customer id to tenant id) and the
    [prefundTransaction] table, in insertion order (the [createdAt] order of
    the queries). *)
Record Store := mkStore {
  customer : gmap string string;
  prefundTransaction : list PrefundTransaction
}.

(** What the routes throw. *)
Inductive RouteError := CustomerNotFound | InsufficientFunds.

Inductive Reply (A : Type) :=
| Returned (a : A)
| Threw (e : RouteError).
Arguments Returned {A} a.
Arguments Threw {A} e.

(** The balance fields of the reply of [GET /customers/:customer_id/prefund]. *)
Record PrefundBalance := mkPrefundBalance {
  balance_cents : Z;
  available_cents : Z;
  held_cents : Z
}.

(** The [prefund] section of [interface ReconciliationSummary]. *)
Record PrefundSummary := mkPrefundSummary {
  accountsChecked : Z;
  balanceMatches : Z;
  balanceMismatches : Z;
  totalDiscrepancyCents : Z
}.

(** [findFirst({ where: { id: customer_id, tenantId } })] finds a row. *)
Definition customerOfTenant (st : Store) (customer_id tenantId : string) : bool :=
  match customer st !! customer_id with
  | Some t => String.eqb t tenantId
  | None => false
  end.

(** [findMany({ where: { customerId } })] *)
Definition transactionsOf (st : Store) (customerId : string)
  : list PrefundTransaction :=
  List.filter (fun tx => String.eqb (pf_customerId tx) customerId)
              (prefundTransaction st).

(** [findFirst({ where: { customerId, status: 'COMPLETED' },
                 orderBy: { createdAt: 'desc' } })] *)
Definition lastCompleted (st : Store) (customerId : string)
  : option PrefundTransaction :=
  last (List.filter (fun tx => String.eqb (pf_status tx) "COMPLETED")
                    (transactionsOf st customerId)).

(** [lastTx?.balanceAfterCents ?? 0] and [lastTx?.availableAfterCents ?? 0] *)
Definition balanceOf (lastTx : option PrefundTransaction) : Z :=
  match lastTx with Some tx => pf_balanceAfterCents tx | None => 0 end.
Definition availableOf (lastTx : option PrefundTransaction) : Z :=
  match lastTx with Some tx => pf_availableAfterCents tx | None => 0 end.

(** [GET /customers/:customer_id/prefund] *)
Definition getPrefund (st : Store) (tenantId customer_id : string)
  : Reply PrefundBalance :=
  if negb (customerOfTenant st customer_id tenantId) then Threw CustomerNotFound
  else
    let lastTx := lastCompleted st customer_id in
    Returned (mkPrefundBalance (balanceOf lastTx) (availableOf lastTx)
                (balanceOf lastTx - availableOf lastTx)).

(** [POST /customers/:customer_id/prefund/deposit] *)
Definition deposit (st : Store) (tenantId customer_id : string)
           (amount_cents : Z) (funding_instrument_id : string)
  : Store * Reply PrefundTransaction :=
  if negb (customerOfTenant st customer_id tenantId) then
    (st, Threw CustomerNotFound)
  else
    (* Get current balance *)
    let lastTx := lastCompleted st customer_id in
    let currentBalance := balanceOf lastTx in
    (* Create pending deposit transaction *)
    let transaction :=
      mkPrefundTransaction customer_id "DEPOSIT" amount_cents
        funding_instrument_id "PENDING"
        (currentBalance + amount_cents)
        (availableOf lastTx) (* Not available until settled *) in
    (mkStore (customer st) (prefundTransaction st ++ [transaction]),
     Returned transaction).

(** [POST /customers/:customer_id/prefund/withdraw] *)
Definition withdraw (st : Store) (tenantId customer_id : string)
           (amount_cents : Z) (funding_instrument_id : string)
  : Store * Reply PrefundTransaction :=
  if negb (customerOfTenant st customer_id tenantId) then
    (st, Threw CustomerNotFound)
  else
    (* Get current balance *)
    let lastTx := lastCompleted st customer_id in
    let availableBalance := availableOf lastTx in
    if amount_cents >? availableBalance then (st, Threw InsufficientFunds)
    else
      (* Create withdrawal transaction *)
      let transaction :=
        mkPrefundTransaction customer_id "WITHDRAWAL" amount_cents
          funding_instrument_id "PENDING"
          (balanceOf lastTx - amount_cents)
          (availableBalance - amount_cents) in
      (mkStore (customer st) (prefundTransaction st ++ [transaction]),
       Returned transaction).

(** [PaymentRoutingService.checkPrefundWaiver]; of the reasons the fixed
    words are kept. *)
Definition checkPrefundWaiver (st : Store) (tenantId lenderId : string)
           (principalCents : Z) : bool * string :=
  (* Get lender's most recent prefund transaction to determine balance *)
  match (if customerOfTenant st lenderId tenantId
         then lastCompleted st lenderId else None) with
  | None => (false, "No prefund balance")
  | Some latestPrefundTx =>
      let availableBalance := pf_availableAfterCents latestPrefundTx in
      (* Waiver requires 100% of principal covered by prefund *)
      if availableBalance >=? principalCents
      then (true, "Prefund balance covers principal")
      else (false, "Prefund balance insufficient for principal")
  end.

(** *** The prefund check of the reconciliation *)

(** The reducer of [calculatedBalance]. *)
Definition addTransaction (sum : Z) (tx : PrefundTransaction) : Z :=
  if negb (String.eqb (pf_status tx) "COMPLETED") then sum
  else if String.eqb (pf_type tx) "DEPOSIT" then sum + pf_amountCents tx
  else if String.eqb (pf_type tx) "WITHDRAWAL" || String.eqb (pf_type tx) "FEE"
  then sum - pf_amountCents tx
  else if String.eqb (pf_type tx) "DISBURSEMENT_HOLD" then sum - pf_amountCents tx
  else if String.eqb (pf_type tx) "DISBURSEMENT_RELEASE" then sum + pf_amountCents tx
  else sum.

(** [allTransactions.reduce(..., 0)] *)
Definition calculatedBalance (st : Store) (customerId : string) : Z :=
  fold_left addTransaction (transactionsOf st customerId) 0.

(** The customers of the tenant that have a prefund transaction. *)
Definition customersWithPrefund (st : Store) (tenantId : string) : list string :=
  map fst
    (List.filter
       (fun row => String.eqb row.2 tenantId
                   && (0 <? length (transactionsOf st row.1))%nat)
       (map_to_list (customer st))).

(** One iteration of [for (const customer of customersWithPrefund)]. *)
Definition checkCustomer (cfg : ReconciliationConfig) (st : Store) (now : Z)
           (tenantId : string)
           (acc : PrefundSummary * list ReconciliationException)
           (customerId : string)
  : PrefundSummary * list ReconciliationException :=
  let '(summary, exceptions) := acc in
  match last (transactionsOf st customerId) with
  | None => acc
  | Some latestTx =>
      let ledgerBalance := pf_availableAfterCents latestTx in
      (* Calculate expected balance from all transactions *)
      let calculatedBalance := calculatedBalance st customerId in
      if negb (ledgerBalance =? calculatedBalance) then
        let discrepancy := Z.abs (ledgerBalance - calculatedBalance) in
        (mkPrefundSummary (accountsChecked summary) (balanceMatches summary)
           (balanceMismatches summary + 1)
           (totalDiscrepancyCents summary + discrepancy),
         exceptions ++
         [ createException now tenantId prefund_mismatch
             (calculateSeverity cfg discrepancy)
             (Some prefund) (Some customerId) None
             (Some (JObj [ ("recordedBalance", JNum ledgerBalance);
                           ("calculatedBalance", JNum calculatedBalance) ]))
             None (Some discrepancy)
             ("Prefund balance mismatch for customer " +:+ customerId
              +:+ ": recorded=" +:+ pretty ledgerBalance
              +:+ ", calculated=" +:+ pretty calculatedBalance) ])
      else
        (mkPrefundSummary (accountsChecked summary) (balanceMatches summary + 1)
           (balanceMismatches summary) (totalDiscrepancyCents summary),
         exceptions)
  end.

(** [ReconciliationService.reconcilePrefundBalances] *)
Definition reconcilePrefundBalances (cfg : ReconciliationConfig) (st : Store)
           (now : Z) (tenantId : string) (summary : PrefundSummary)
  : PrefundSummary * list ReconciliationException :=
  let customers := customersWithPrefund st tenantId in
  let summary :=
    mkPrefundSummary (Z.of_nat (length customers)) (balanceMatches summary)
      (balanceMismatches summary) (totalDiscrepancyCents summary) in
  fold_left (checkCustomer cfg st now tenantId) customers (summary, []).

(** *** Vocabulary of the statements *)

(** The exceptions the prefund check raises for one customer. *)
Definition exceptionsFor (cfg : ReconciliationConfig) (st : Store) (now : Z)
           (tenantId customerId : string) : list ReconciliationException :=
  (checkCustomer cfg st now tenantId (mkPrefundSummary 0 0 0 0, []) customerId).2.

(** An account whose completed rows add up to its available balance. *)
Definition accountConsistent (st : Store) (customerId : string) : Prop :=
  calculatedBalance st customerId = availableOf (lastCompleted st customerId).

(** *** An example account: one completed deposit of 10 000. *)
Definition exampleAccount : Store :=
  mkStore {[ "lender-1" := "tenant-1" ]}
          [ mkPrefundTransaction "lender-1" "DEPOSIT" 10000 "fi-1" "COMPLETED"
              10000 10000 ].

End Prefund.

(* ===================================================================== *)
(** ** Moov webhook endpoint
       (payments/routes.ts, payments/services/webhook-handler.ts)          *)
(* ===================================================================== *)

Module Webhook.
Import Common JS.

(** The part of [env] read by the handler. *)
Record Env := mkEnv {
  MOOV_WEBHOOK_SECRET : option string;
  NODE_ENV : string
}.

(** [interface MoovWebhookEvent] *)
Record MoovWebhookEvent := mkEvent {
  eventID : Json;
  ev_type : Json;
  data : Json
}.

(** The request as the route reads it: the raw body kept by the
    [rawBody] plugin, the body parsed by the framework, the headers. *)
Record Request := mkRequest {
  rawBody : option string;
  body : option Json;
  headers : gmap string string
}.

(** The private methods [processEvent] dispatches to. *)
Inductive Handler :=
| handleTransferEvent
| handleBankAccountEvent
| handleCardEvent
| handlePaymentMethodEvent
| unhandled.

(** What the route did, in order. *)
Inductive Step :=
| CallVerifySignature
| CallParseEvent
| CallProcessEvent (h : Handler).

(** The outcome of a request: the store and its commits, the calls made,
    and the reply ([Ok tt] is [200 { received: true }]). *)
Record Outcome := mkOutcome {
  out_store : Transfer.Store;
  out_commits : list Transfer.Commit;
  out_steps : list Step;
  out_reply : Result unit
}.

(** [MOOV_TRANSFER_STATUS_MAP] *)
Definition MOOV_TRANSFER_STATUS_MAP : gmap string Transfer.TransferStatus :=
  list_to_map
    [ ("created", Transfer.pending);
      ("pending", Transfer.processing);
      ("completed", Transfer.completed);
      ("failed", Transfer.failed);
      ("reversed", Transfer.returned) ].

(** A string-valued header or property is falsy when absent or empty. *)
Definition present (v : option string) : bool :=
  match v with
  | Some s => negb (String.eqb s "")
  | None => false
  end.

(** [processEvent]'s [switch (eventType)] *)
Definition handlerOfType (eventType : string) : Handler :=
  if String.eqb eventType "transfer.created"
     || String.eqb eventType "transfer.pending"
     || String.eqb eventType "transfer.completed"
     || String.eqb eventType "transfer.failed"
     || String.eqb eventType "transfer.reversed" then handleTransferEvent
  else if String.eqb eventType "bank-account.created"
          || String.eqb eventType "bank-account.updated" then handleBankAccountEvent
  else if String.eqb eventType "card.created"
          || String.eqb eventType "card.updated" then handleCardEvent
  else if String.eqb eventType "payment-method.enabled"
          || String.eqb eventType "payment-method.disabled" then handlePaymentMethodEvent
  else unhandled.

Definition handlerOf (eventType : Json) : Handler :=
  match eventType with
  | JStr t => handlerOfType t
  | _ => unhandled
  end.

(** [!doc.key] is false. *)
Definition truthyField (key : string) (doc : Json) : bool :=
  match get key doc with
  | Some v => truthy v
  | None => false
  end.

Definition stringField (key : string) (doc : Json) : option string :=
  match get key doc with
  | Some (JStr s) => Some s
  | _ => None
  end.

(** [MoovWebhookHandler.handleTransferEvent].  The source casts
    [event.data] to [{ transferID: string; status: string; ... }]; an event
    whose data has no string [transferID] is outside that contract and is
    skipped here.  On data of the declared type ([declaredTransferData]
    below) this is what the code does; the statements about the handler
    are about such data. *)
Definition runTransferHandler (event : MoovWebhookEvent) (now : Z)
  : Transfer.Db unit :=
  match stringField "status" (data event) ≫= (MOOV_TRANSFER_STATUS_MAP !!.) with
  | None => mret tt (* Unknown transfer status *)
  | Some status =>
      match stringField "transferID" (data event) with
      | Some transferID =>
          Transfer.processStatusUpdate
            (Transfer.mkTransferStatusUpdate transferID status
               (stringField "failureReason" (data event)))
            now
      | None => mret tt
      end
  end.

(** [MoovWebhookHandler.processEvent]: the handlers other than the
    transfer handler only log. *)
Definition processEvent (event : MoovWebhookEvent) (now : Z)
  : Transfer.Db unit :=
  match handlerOf (ev_type event) with
  | handleTransferEvent => runTransferHandler event now
  | _ => mret tt
  end.

(** *** Vocabulary of the statements *)

(** The field is absent or holds a string. *)
Definition optionalString (key : string) (doc : Json) : Prop :=
  get key doc = None \/ exists s, get key doc = Some (JStr s).

(** A [status] as [handleTransferEvent] declares it: a string when there is
    one, and not the name of a property that [MOOV_TRANSFER_STATUS_MAP]
    inherits from [Object.prototype]. *)
Definition declaredStatus (d : Json) : Prop :=
  optionalString "status" d
  /\ forall s, get "status" d = Some (JStr s) -> inherited s = false.

(** Data of the type [handleTransferEvent] casts [event.data] to: an
    object with a string [transferID], a declared [status], and a
    [failureReason] that is a string when there is one. *)
Definition declaredTransferData (d : Json) : Prop :=
  (exists transferID, get "transferID" d = Some (JStr transferID))
  /\ declaredStatus d
  /\ optionalString "failureReason" d.

Section Endpoint.

(** [crypto.createHmac('sha256', secret).update(text).digest('hex')] *)
Variable hmacSha256Hex : string -> string -> string.
(** [JSON.parse]; [None] when it throws. *)
Variable JSON_parse : string -> option Json.
(** [JSON.stringify] *)
Variable JSON_stringify : Json -> string.

Variable env : Env.

(** [crypto.timingSafeEqual(Buffer.from(a), Buffer.from(b))] inside
    [try { ... } catch { return false }]: buffers of different lengths
    throw. *)
Definition timingSafeEqualOrFalse (a b : string) : bool :=
  if (String.length a =? String.length b)%nat then String.eqb a b else false.

(** [MoovWebhookHandler.verifySignature]; an absent payload is
    interpolated as the text [undefined]. *)
Definition verifySignature (payload : option string)
           (signature timestamp : string) : Result bool :=
  if negb (present (MOOV_WEBHOOK_SECRET env)) then
    (* No secret configured - skip verification in dev *)
    if String.eqb (NODE_ENV env) "development" then Ok true
    else invalidRequest "Webhook secret not configured"
  else
    let signedPayload := timestamp +:+ "." +:+ default "undefined" payload in
    let expectedSignature :=
      hmacSha256Hex (default "" (MOOV_WEBHOOK_SECRET env)) signedPayload in
    Ok (timingSafeEqualOrFalse signature expectedSignature).

(** [MoovWebhookHandler.parseEvent]: any throw inside the [try] block
    (a syntax error, a missing field) becomes [INVALID_REQUEST]. *)
Definition parseEvent (payload : option string) : Result MoovWebhookEvent :=
  match payload ≫= JSON_parse with
  | None => invalidRequest "Invalid webhook payload"
  | Some event =>
      if negb (truthyField "eventID" event)
         || negb (truthyField "type" event)
         || negb (truthyField "data" event)
      then invalidRequest "Invalid webhook payload: Invalid event structure"
      else Ok (mkEvent (default JNull (get "eventID" event))
                       (default JNull (get "type" event))
                       (default JNull (get "data" event)))
  end.

(** [rawBody || JSON.stringify(request.body)] *)
Definition requestPayload (request : Request) : option string :=
  if present (rawBody request) then rawBody request
  else JSON_stringify <$> body request.

(** The part of the route after the signature check:
    [parseEvent(rawBody || JSON.stringify(request.body))], then
    [processEvent(event)], then the acknowledgement. *)
Definition parseAndProcess (request : Request) (now : Z)
           (steps : list Step) (st : Transfer.Store) : Outcome :=
  let payload := requestPayload request in
  match parseEvent payload with
  | Err e => mkOutcome st [] (steps ++ [CallParseEvent]) (Err e)
  | Ok event =>
      let '(st', log, r) := processEvent event now st in
      mkOutcome st' log
        (steps ++ [CallParseEvent; CallProcessEvent (handlerOf (ev_type event))])
        r
  end.

(** [POST /payments/webhooks/moov] *)
Definition moovWebhookRoute (request : Request) (now : Z)
           (st : Transfer.Store) : Outcome :=
  let signature := headers request !! "moov-signature" in
  let timestamp := headers request !! "moov-timestamp" in
  (* Verify signature *)
  if present signature && present timestamp then
    match verifySignature (rawBody request) (default "" signature)
                          (default "" timestamp) with
    | Err e => mkOutcome st [] [CallVerifySignature] (Err e)
    | Ok isValid =>
        if negb isValid then
          mkOutcome st [] [CallVerifySignature]
                    (invalidRequest "Invalid webhook signature")
        else parseAndProcess request now [CallVerifySignature] st
    end
  else parseAndProcess request now [] st.

End Endpoint.

(** *** An example request: a 'transfer.completed' event for the transfer
    of the example disbursement, sent without signature headers to a
    production deployment that has a webhook secret. *)
Definition exampleEnv : Env := mkEnv (Some "whsec") "production".

Definition exampleEventJson : Json :=
  JObj [ ("eventID", JStr "evt-1");
         ("type", JStr "transfer.completed");
         ("data", JObj [ ("transferID", JStr "moov-xfer-1");
                         ("status", JStr "completed") ]) ].

Definition exampleUnsignedRequest : Request :=
  mkRequest (Some "{ event }") None ∅.

(** Stand-ins for the JavaScript built-ins in the example: the parser
    reads the example event from any text. *)
Definition exampleHmac (secret text : string) : string := "0f0f".
Definition exampleParse (text : string) : option Json := Some exampleEventJson.
Definition exampleStringify (doc : Json) : string := "{ event }".

End Webhook.

(* ===================================================================== *)
(** ** Operator console: journal reversal (modules/operator/routes.ts,
       POST /operator/ledger-journals/:journal_id/reverse)                 *)
(* ===================================================================== *)

Module Operator.
Import Common Ledger.

(** [request.user] *)
Record User := mkUser {
  sub : string;
  user_tenantId : string;
  role : string
}.

(** The request as the route reads it: the path parameter, the [reason] of
    the body when the body has one that is a string, the
    [x-step-up-token] header, the authenticated user. *)
Record ReverseRequest := mkReverseRequest {
  rq_journalId : nat;
  rq_reason : option string;
  rq_stepUpToken : option string;
  rq_user : User
}.

(** What the route throws: the error of [reversalSchema.parse], and the
    [AppError]s by their constructor. *)
Inductive RouteError :=
| ValidationFailed
| Forbidden
| Unauthorized
| JournalNotFound
| InvalidJournalState (message : string).

Inductive Reply (A : Type) :=
| Replied (a : A)
| Thrown (e : RouteError).
Arguments Replied {A} a.
Arguments Thrown {A} e.

(** A row of the [auditLog] table, with the [changes] of a reversal. *)
Record AuditLog := mkAuditLog {
  al_tenantId : string;
  al_userId : string;
  al_action : string;
  al_entityType : string;
  al_entityId : nat;
  al_reason : string;
  al_reversalJournalId : nat;
  al_originalEntries : list LedgerEntry
}.

(** The tables the route reads and writes; [auditLog] is in insertion
    order. *)
Record Store := mkStore {
  tables : Transfer.Store;
  auditLog : list AuditLog
}.

(** The body of the reply (status 201). *)
Record ReversalReply := mkReversalReply {
  rr_id : nat;
  rr_reversesJournalId : nat;
  rr_reason : string;
  rr_entries : list LedgerEntry
}.

(** [!stepUpToken] is false. *)
Definition tokenGiven (token : option string) : bool :=
  match token with
  | Some s => negb (String.eqb s "")
  | None => false
  end.

(** [journal.contract && journal.contract.tenantId !== tenantId] *)
Definition ofOtherTenant (st : Store) (journal : JournalRow) (tenantId : string)
  : bool :=
  match j_contractId journal ≫= (Transfer.loanContract (tables st) !!.) with
  | Some contract => negb (String.eqb (Transfer.lc_tenantId contract) tenantId)
  | None => false
  end.

(** The row created for an entry of the journal: the two sides swapped and
    [balanceAfterCents: 0]. *)
Definition reversedEntry (reversalId : nat) (entry : EntryRow) : EntryRow :=
  mkEntryRow reversalId (row_accountCode entry)
    (row_creditCents entry) (* Swap *)
    (row_debitCents entry) (* Swap *)
    0.

(** The writes of the [$transaction] block on the ledger tables. *)
Definition reversalWrites (ledger : Ledger.Store) (journalId : nat)
           (journal : JournalRow) (reason : string) (user : User)
  : Ledger.Store :=
  let reversalId := freshJournalId ledger in
  let reversal :=
    mkJournalRow (j_contractId journal) REVERSAL
      ("Reversal of " +:+ pretty journalId +:+ ": " +:+ reason)
      true (Some journalId) None (Some reason) (Some (sub user)) in
  Ledger.mkStore (ledgerAccount ledger)
    (<[journalId := markReversedBy reversalId journal]>
       (<[reversalId := reversal]> (ledgerJournal ledger)))
    (ledgerEntry ledger
     ++ map (reversedEntry reversalId) (entriesOfJournal ledger journalId)).

(** The handler of [POST /operator/ledger-journals/:journal_id/reverse]. *)
Definition reverseJournalRoute (request : ReverseRequest) (st : Store)
  : Store * Reply ReversalReply :=
  let user := rq_user request in
  let tenantId := user_tenantId user in
  let ledger := Transfer.ledger (tables st) in
  match rq_reason request with
  | None => (st, Thrown ValidationFailed)
  | Some reason =>
      (* reversalSchema: z.string().min(10), on the [length] of the string *)
      if (JS.utf16Length reason <? 10)%nat then (st, Thrown ValidationFailed)
      (* Require admin role for reversals *)
      else if negb (String.eqb (role user) "ADMIN") then (st, Thrown Forbidden)
      else if negb (tokenGiven (rq_stepUpToken request)) then
        (st, Thrown Unauthorized)
      else
        match ledgerJournal ledger !! rq_journalId request with
        | None => (st, Thrown JournalNotFound)
        | Some journal =>
            (* Verify tenant access *)
            if ofOtherTenant st journal tenantId then
              (st, Thrown JournalNotFound)
            else if bool_decide (j_reversedByJournalId journal <> None) then
              (st, Thrown (InvalidJournalState "Journal has already been reversed"))
            else if j_isReversal journal then
              (st, Thrown (InvalidJournalState "Cannot reverse a reversal journal"))
            else
              let entries := entriesOfJournal ledger (rq_journalId request) in
              let ledger' :=
                reversalWrites ledger (rq_journalId request) journal reason user in
              let originalEntries := map entryOfRow entries in
              (mkStore
                 (Transfer.mkStore (Transfer.disbursement (tables st))
                    (Transfer.repayment (tables st))
                    (Transfer.loanContract (tables st)) ledger')
                 (auditLog st
                  ++ [ mkAuditLog tenantId (sub user) "journal_reversal"
                         "LedgerJournal" (rq_journalId request) reason
                         (freshJournalId ledger) originalEntries ]),
               Replied (mkReversalReply (freshJournalId ledger)
                          (rq_journalId request) reason
                          (map swapRow entries)))
        end
  end.

(** *** Vocabulary of the statements *)

(** The journal has an entry on the account. *)
Definition touches (ledger : Ledger.Store) (journalId : nat) (code : string)
  : Prop :=
  exists entry, In entry (entriesOfJournal ledger journalId)
                /\ row_accountCode entry = code.

(** The conditions under which the route reverses the journal. *)
Definition reversalAllowed (request : ReverseRequest) (st : Store) : Prop :=
  (exists reason, rq_reason request = Some reason
                  /\ (10 <= JS.utf16Length reason)%nat)
  /\ role (rq_user request) = "ADMIN"
  /\ tokenGiven (rq_stepUpToken request) = true
  /\ exists journal,
       ledgerJournal (Transfer.ledger (tables st)) !! rq_journalId request
       = Some journal
       /\ ofOtherTenant st journal (user_tenantId (rq_user request)) = false
       /\ j_reversedByJournalId journal = None
       /\ j_isReversal journal = false.

(** *** An example: an admin of [tenant-1] reverses the journal of
    [Ledger.examplePosted]. *)
Definition exampleOperatorStore : Store :=
  mkStore (Transfer.mkStore ∅ ∅ ∅ examplePosted.1) [].

Definition exampleReverseRequest : ReverseRequest :=
  mkReverseRequest (jw_id examplePosted.2) (Some "Posted in error")
    (Some "step-up-token") (mkUser "user-1" "tenant-1" "ADMIN").

Definition exampleReversed : Store * ReversalReply :=
  match reverseJournalRoute exampleReverseRequest exampleOperatorStore with
  | (st, Replied reply) => (st, reply)
  | (st, Thrown _) => (st, mkReversalReply 0 0 "" [])
  end.

End Operator.

(* ===================================================================== *)
(** * Properties                                                           *)
(* ===================================================================== *)

(** ** Ledger engine *)

Module LedgerProofs.
Import Common Ledger.

Lemma ledger_bind_run {A B} (m : Db A) (k : A -> Db B) (st : Store) :
  (m ≫= k) st =
  match m st with
  | (st1, Ok a) => k a st1
  | (st1, Err e) => (st1, Err e)
  end.
Proof. reflexivity. Qed.

(** Run the sequencing at the head of a call. *)
Ltac db_steps := repeat (rewrite ledger_bind_run; cbv beta iota zeta).

(** *** Validation *)

Lemma entry_check_refused (e : LedgerEntry) :
  entryRefused e <->
  ((debitCents e >? 0) && (creditCents e >? 0)
   || (debitCents e =? 0) && (creditCents e =? 0)
   || ((debitCents e <? 0) || (creditCents e <? 0))) = true.
Proof.
  unfold entryRefused.
  rewrite !orb_true_iff, !andb_true_iff, !Z.gtb_lt, !Z.eqb_eq, !Z.ltb_lt.
  lia.
Qed.

Lemma validateEachEntry_refused (entries : list LedgerEntry) :
  (exists e, In e entries /\ entryRefused e) ->
  failsWith INVALID_REQUEST (validateEachEntry entries).
Proof.
  induction entries as [|e rest IH]; intros [x [Hin Hx]]; [destruct Hin|].
  simpl.
  destruct ((debitCents e >? 0) && (creditCents e >? 0)) eqn:E1;
    [eexists; reflexivity|].
  destruct ((debitCents e =? 0) && (creditCents e =? 0)) eqn:E2;
    [eexists; reflexivity|].
  destruct ((debitCents e <? 0) || (creditCents e <? 0)) eqn:E3;
    [eexists; reflexivity|].
  destruct Hin as [->|Hin].
  - apply entry_check_refused in Hx. rewrite E1, E2, E3 in Hx. discriminate.
  - apply IH. eauto.
Qed.

Lemma validateEachEntry_accepted (entries : list LedgerEntry) :
  (forall e, In e entries -> ~ entryRefused e) ->
  validateEachEntry entries = Ok tt.
Proof.
  induction entries as [|e rest IH]; intros Hall; [reflexivity|].
  simpl.
  assert (He : ~ entryRefused e) by (apply Hall; now left).
  rewrite entry_check_refused in He.
  destruct ((debitCents e >? 0) && (creditCents e >? 0)); [now destruct He|].
  destruct ((debitCents e =? 0) && (creditCents e =? 0)); [now destruct He|].
  destruct ((debitCents e <? 0) || (creditCents e <? 0)); [now destruct He|].
  apply IH. intros x Hx. apply Hall. now right.
Qed.

Lemma validateBalance_refused (entries : list LedgerEntry) :
  journalRefused entries -> failsWith INVALID_REQUEST (validateBalance entries).
Proof.
  intros Hbad. unfold validateBalance.
  destruct (totalDebits entries =? totalCredits entries) eqn:E; simpl.
  - apply Z.eqb_eq in E. destruct Hbad as [Hentry|Hsum]; [|contradiction].
    now apply validateEachEntry_refused.
  - eexists; reflexivity.
Qed.

Lemma validateBalance_accepted (entries : list LedgerEntry) :
  ~ journalRefused entries -> validateBalance entries = Ok tt.
Proof.
  intros Hok. unfold validateBalance.
  destruct (totalDebits entries =? totalCredits entries) eqn:E; simpl.
  - apply validateEachEntry_accepted. intros e Hin Hbad.
    apply Hok. left. eauto.
  - apply Z.eqb_neq in E. destruct Hok. now right.
Qed.

(** *** The disbursement template *)

Lemma createJournal_unbalanced (st : Store) (input : CreateJournalInput) :
  totalDebits (in_entries input) <> totalCredits (in_entries input) ->
  createJournal input st
  = (st, Err (mkAppError INVALID_REQUEST "Journal is not balanced")).
Proof.
  intros Hne. unfold createJournal. rewrite ledger_bind_run.
  unfold throw, validateBalance.
  apply Z.eqb_neq in Hne. rewrite Hne. reflexivity.
Qed.

(** Whatever the store and the fee, the prefund template of a positive
    principal is refused by [createJournal]: it debits the principal
    twice. *)
Lemma recordDisbursement_fromPrefund_refused (st : Store)
      (input : DisbursementInput) :
  d_fromPrefund input = true ->
  0 < d_principalCents input ->
  recordDisbursement input st
  = (st, Err (mkAppError INVALID_REQUEST "Journal is not balanced")).
Proof.
  intros Hpre Hpos. unfold recordDisbursement.
  apply createJournal_unbalanced. simpl.
  unfold disbursementEntries. rewrite Hpre.
  destruct (d_expressFeeCents input >? 0); cbn; lia.
Qed.

(** C2 (the code departs from the claim).  For a principal of 10 000
    cents and no express fee, [recordDisbursement] with [fromPrefund]
    builds two debits of the principal (Loans:Principal and
    Prefund_Balances) and no credit, and [createJournal] refuses the
    journal as unbalanced; nothing is posted. *)
Theorem record_disbursement_from_prefund_unbalanced :
  let input := mkDisbursementInput "c1" 10000 0 true "lender-1" None in
  disbursementEntries input
  = [ mkLedgerEntry AccountCodes.LOANS_PRINCIPAL 10000 0;
      mkLedgerEntry AccountCodes.PREFUND_BALANCES 10000 0 ]
  /\ totalDebits (disbursementEntries input) = 20000
  /\ totalCredits (disbursementEntries input) = 0
  /\ recordDisbursement input emptyLedger
     = (emptyLedger, Err (mkAppError INVALID_REQUEST "Journal is not balanced")).
Proof.
  cbv zeta. split; [reflexivity|]. split; [reflexivity|].
  split; [reflexivity|].
  apply recordDisbursement_fromPrefund_refused; [reflexivity | simpl; lia].
Qed.

(** The direct template of the same principal (with an express fee of
    299) is balanced and is posted: four entries, the principal credited to
    Cash:Operating. *)
Example record_disbursement_direct_posts :
  let input := mkDisbursementInput "c1" 10000 299 false "lender-1" None in
  totalDebits (disbursementEntries input) = 10299
  /\ totalCredits (disbursementEntries input) = 10299
  /\ match recordDisbursement input emptyLedger with
     | (st, Ok j) =>
         map entryOfRow (jw_entries j)
         = [ mkLedgerEntry AccountCodes.LOANS_PRINCIPAL 10000 0;
             mkLedgerEntry AccountCodes.CASH_OPERATING 0 10000;
             mkLedgerEntry AccountCodes.CASH_OPERATING 299 0;
             mkLedgerEntry AccountCodes.FEE_EXPRESS 0 299 ]
         /\ getAccountBalance st AccountCodes.LOANS_PRINCIPAL = 10000
         /\ getAccountBalance st AccountCodes.CASH_OPERATING = -9701
         /\ getAccountBalance st AccountCodes.FEE_EXPRESS = 299
     | (_, Err _) => False
     end.
Proof. vm_compute. repeat split. Qed.

(** *** Running balances *)

Lemma lastEntryOf_snoc (rows : list EntryRow) (r : EntryRow) (code : string) :
  lastEntryOf (rows ++ [r]) code
  = if decide (row_accountCode r = code) then Some r else lastEntryOf rows code.
Proof.
  unfold lastEntryOf. rewrite filter_app, filter_cons, filter_nil.
  destruct (decide (row_accountCode r = code)) as [Heq|Hne].
  - apply last_snoc.
  - now rewrite app_nil_r.
Qed.

Lemma postEntry_run (journalId : nat) (entry : LedgerEntry) (st : Store) :
  postEntry journalId entry st
  = let row :=
      mkEntryRow journalId (accountCode entry) (debitCents entry)
        (creditCents entry)
        (if isDebitNormal (ledgerAccount st !! accountCode entry)
         then getAccountBalanceInternal st (accountCode entry)
              + debitCents entry - creditCents entry
         else getAccountBalanceInternal st (accountCode entry)
              + creditCents entry - debitCents entry) in
    (mkStore (ledgerAccount st) (ledgerJournal st) (ledgerEntry st ++ [row]),
     Ok row).
Proof. reflexivity. Qed.

(** The posting loop never throws; it appends one row per entry, in
    order, to the entry table, and moves the running balance of every
    account by the net effect of the entries. *)
Lemma postEntries_run (journalId : nat) (entries : list LedgerEntry) :
  forall st : Store,
  exists rows,
    postEntries journalId entries st
    = (mkStore (ledgerAccount st) (ledgerJournal st) (ledgerEntry st ++ rows),
       Ok rows)
    /\ map entryOfRow rows = entries
    /\ Forall (fun r => row_journalId r = journalId) rows
    /\ forall code,
         getAccountBalanceInternal
           (mkStore (ledgerAccount st) (ledgerJournal st) (ledgerEntry st ++ rows))
           code
         = getAccountBalanceInternal st code
           + netEffect (ledgerAccount st) code entries.
Proof.
  induction entries as [|e rest IH]; intros st.
  - exists []. simpl. rewrite app_nil_r. destruct st; repeat split; auto.
    intros; simpl; lia.
  - cbn [postEntries]. rewrite ledger_bind_run, postEntry_run. cbv zeta.
    set (row := mkEntryRow _ _ _ _ _).
    set (st1 := mkStore _ _ (ledgerEntry st ++ [row])).
    destruct (IH st1) as (rows & Hrun & Hmap & Hids & Hbal).
    exists (row :: rows). rewrite ledger_bind_run, Hrun.
    subst st1; cbn [ledgerAccount ledgerJournal ledgerEntry] in *.
    rewrite <- app_assoc in *. cbn [app] in *.
    split; [reflexivity|].
    split; [cbn; now rewrite Hmap; destruct e|].
    split; [constructor; auto|].
    intros code. rewrite Hbal. cbn [netEffect fold_right].
    unfold getAccountBalanceInternal at 1. cbn [ledgerEntry].
    rewrite lastEntryOf_snoc. subst row. cbn [row_accountCode].
    fold (getAccountBalanceInternal st code).
    destruct (decide (accountCode e = code)) as [<-|Hne].
    + rewrite bool_decide_eq_true_2 by reflexivity.
      cbn [row_balanceAfterCents].
      fold (netEffect (ledgerAccount st) (accountCode e) rest).
      destruct (isDebitNormal _); lia.
    + rewrite bool_decide_eq_false_2 by assumption.
      fold (netEffect (ledgerAccount st) code rest).
      unfold getAccountBalanceInternal. lia.
Qed.

(** Swapping the two sides of every entry negates the net effect. *)
Lemma netEffect_swap (accounts : gmap string AccountType) (code : string)
      (rows : list EntryRow) :
  netEffect accounts code (map swapRow rows)
  = - netEffect accounts code (map entryOfRow rows).
Proof.
  induction rows as [|r rows IH]; [reflexivity|].
  cbn [map netEffect fold_right]. unfold netEffect in IH. rewrite IH.
  cbn [swapRow entryOfRow accountCode debitCents creditCents].
  destruct (bool_decide _); [|reflexivity].
  destruct (isDebitNormal _); lia.
Qed.

Lemma filter_none {A} (P : A -> Prop) `{forall x, Decision (P x)} (l : list A) :
  (forall x, In x l -> ~ P x) -> filter P l = [].
Proof.
  induction l as [|x l IH]; intros Hnone; [reflexivity|].
  rewrite filter_cons. destruct (decide (P x)) as [Hx|_].
  - destruct (Hnone x (or_introl eq_refl) Hx).
  - apply IH. intros y Hy. apply Hnone. now right.
Qed.

Lemma validateAccountCodes_known (st : Store) (codes : list string) :
  (forall c, In c codes -> is_Some (ledgerAccount st !! c)) ->
  validateAccountCodes codes st = (st, Ok tt).
Proof.
  intros Hknown. unfold validateAccountCodes. cbv zeta.
  rewrite filter_none; [reflexivity|].
  intros c Hc Hnone.
  apply list_elem_of_In in Hc. rewrite elem_of_remove_dups in Hc.
  apply list_elem_of_In in Hc.
  destruct (Hknown c Hc) as [t Ht]. congruence.
Qed.

(** *** The sums on JavaScript numbers *)

Lemma roundToDouble_safe (x : Z) :
  Z.abs x <= MAX_SAFE_INTEGER -> Doubles.roundToDouble x = Doubles.Finite x.
Proof.
  unfold MAX_SAFE_INTEGER, Doubles.roundToDouble. intros Hsafe. cbv zeta.
  change (2 ^ 53) with 9007199254740992 in *.
  destruct (Z.ltb_spec (Z.abs x) 9007199254740992); [reflexivity | lia].
Qed.

Lemma sum_of_abs_nonneg (amounts : list Z) :
  0 <= fold_right (fun a rest => Z.abs a + rest) 0 amounts.
Proof. induction amounts as [|a amounts IH]; cbn [fold_right]; lia. Qed.

(** Within the safe integers the sum of the code is the exact sum. *)
Lemma doubles_sum_exact (f : LedgerEntry -> Z) (entries : list LedgerEntry) :
  forall acc,
    Z.abs acc + fold_right (fun a rest => Z.abs a + rest) 0 (map f entries)
    <= MAX_SAFE_INTEGER ->
    fold_left (fun sum e => Doubles.add sum (Doubles.Finite (f e))) entries
              (Doubles.Finite acc)
    = Doubles.Finite (fold_left (fun sum e => sum + f e) entries acc).
Proof.
  induction entries as [|e entries IH]; intros acc Hsafe; [reflexivity|].
  cbn [fold_left map fold_right] in *.
  pose proof (sum_of_abs_nonneg (map f entries)) as Hrest.
  cbn [Doubles.add]. rewrite roundToDouble_safe by lia.
  apply IH. lia.
Qed.

Lemma doubles_validateBalance_safe (entries : list LedgerEntry) :
  safeAmounts entries ->
  Doubles.validateBalance entries = validateBalance entries.
Proof.
  intros [Hdebits Hcredits].
  unfold Doubles.validateBalance, validateBalance,
         Doubles.totalDebits, Doubles.totalCredits, totalDebits, totalCredits.
  rewrite (doubles_sum_exact debitCents), (doubles_sum_exact creditCents)
    by (unfold safeSum in *; cbn [Z.abs]; lia).
  reflexivity.
Qed.

(** C1, as stated, fails: for debits of 2^53 and of 1 against a credit of
    2^53 the sum of the debits differs from the sum of the credits, but
    the sums [validateBalance] computes on JavaScript numbers are both
    2^53 (2^53 + 1 is rounded to 2^53), and the validation returns without
    throwing. *)
Lemma unbalanced_journal_passes_validation :
  totalDebits exampleUnsafeEntries <> totalCredits exampleUnsafeEntries
  /\ journalRefused exampleUnsafeEntries
  /\ Doubles.totalDebits exampleUnsafeEntries = Doubles.Finite (2 ^ 53)
  /\ Doubles.totalCredits exampleUnsafeEntries = Doubles.Finite (2 ^ 53)
  /\ Doubles.validateBalance exampleUnsafeEntries = Ok tt.
Proof.
  split; [vm_compute; discriminate|].
  split; [right; vm_compute; discriminate|].
  repeat split; vm_compute; reflexivity.
Qed.

(** C1, amended.  On entries whose debits, and whose credits, add up to a
    safe integer (at most [Number.MAX_SAFE_INTEGER]), the sums the code
    computes are the exact sums, and [createJournal] refuses with
    INVALID_REQUEST, and leaves the store as it was, every list in which
    some entry has both sides non-zero, both sides zero or a negative
    amount, or whose debits and credits differ; on every other such list
    the balance validation passes, and the journal is posted when its
    account codes exist. *)
Theorem create_journal_validation (st : Store) (input : CreateJournalInput) :
  safeAmounts (in_entries input) ->
  Doubles.validateBalance (in_entries input) = validateBalance (in_entries input)
  /\ (journalRefused (in_entries input) ->
      failsWith INVALID_REQUEST (Doubles.validateBalance (in_entries input))
      /\ failsWith INVALID_REQUEST (createJournal input st).2
      /\ (createJournal input st).1 = st)
  /\ (~ journalRefused (in_entries input) ->
        Doubles.validateBalance (in_entries input) = Ok tt
        /\ ((forall e, In e (in_entries input) ->
                       is_Some (ledgerAccount st !! accountCode e)) ->
            isOk (createJournal input st).2 = true)).
Proof.
  intros Hsafe. pose proof (doubles_validateBalance_safe _ Hsafe) as Hsame.
  rewrite Hsame. split; [reflexivity|]. split.
  - intros Hbad. apply validateBalance_refused in Hbad.
    split; [exact Hbad|].
    destruct Hbad as [msg Hmsg].
    unfold createJournal. rewrite ledger_bind_run. unfold throw. rewrite Hmsg.
    split; [eexists|]; reflexivity.
  - intros Hok. pose proof (validateBalance_accepted _ Hok) as Hvalid.
    split; [exact Hvalid|]. intros Hknown.
    unfold createJournal. rewrite ledger_bind_run. unfold throw. rewrite Hvalid.
    rewrite ledger_bind_run, validateAccountCodes_known.
    + unfold transaction, ledgerJournal_create. rewrite ledger_bind_run.
      set (st' := mkStore _ (<[_ := _]> _) _).
      destruct (postEntries_run (freshJournalId st) (in_entries input) st')
        as (rows & Hrun & _).
      rewrite ledger_bind_run, Hrun. reflexivity.
    + intros c (e & <- & He)%in_map_iff. now apply Hknown.
Qed.

Lemma create_journal_validation_witness :
  Doubles.validateBalance (in_entries exampleJournal) = Ok tt
  /\ isOk (createJournal exampleJournal emptyLedger).2 = true.
Proof.
  assert (Hsafe : safeAmounts (in_entries exampleJournal))
    by (split; vm_compute; discriminate).
  destruct (create_journal_validation emptyLedger exampleJournal Hsafe)
    as (_ & _ & Haccepted).
  destruct Haccepted as [Hvalid Hposted].
  - intros [(e & He & Hrefused) | Hsums].
    + destruct He as [<- | [<- | []]]; vm_compute in Hrefused;
        intuition discriminate.
    + vm_compute in Hsums. congruence.
  - split; [exact Hvalid|]. apply Hposted.
    intros e [<- | [<- | []]]; vm_compute; eauto.
Defined.

Lemma freshJournalId_unused (st : Store) :
  ledgerJournal st !! freshJournalId st = None.
Proof. unfold freshJournalId. apply not_elem_of_dom. apply is_fresh. Qed.

(** *** Shape of a successful [createJournal] *)

Lemma createJournal_ok_inv (input : CreateJournalInput) (st st1 : Store)
      (j : JournalWithEntries) :
  createJournal input st = (st1, Ok j) ->
  let journal :=
    mkJournalRow (in_contractId input) (in_type input) (in_description input)
                 false None None None (in_createdBy input) in
  jw_id j = freshJournalId st
  /\ ledgerAccount st1 = ledgerAccount st
  /\ ledgerJournal st1 = <[freshJournalId st := journal]> (ledgerJournal st)
  /\ ledgerEntry st1 = ledgerEntry st ++ jw_entries j
  /\ map entryOfRow (jw_entries j) = in_entries input
  /\ Forall (fun r => row_journalId r = freshJournalId st) (jw_entries j)
  /\ forall code,
       getAccountBalanceInternal st1 code
       = getAccountBalanceInternal st code
         + netEffect (ledgerAccount st) code (in_entries input).
Proof.
  unfold createJournal. rewrite ledger_bind_run. unfold throw.
  destruct (validateBalance (in_entries input)); [|discriminate].
  rewrite ledger_bind_run. unfold validateAccountCodes.
  destruct (0 <? _)%nat; [discriminate|].
  unfold transaction. rewrite ledger_bind_run. unfold ledgerJournal_create.
  set (st' := mkStore _ (<[_ := _]> _) _).
  destruct (postEntries_run (freshJournalId st) (in_entries input) st')
    as (rows & Hrun & Hmap & Hids & Hbal).
  rewrite ledger_bind_run, Hrun. cbn.
  intros [= <- <-]. cbn. repeat split; auto.
Qed.

(** Among the rows of a store with referential integrity, extended by
    the rows of a new journal, the rows of that journal are the new ones. *)
Lemma entriesOfJournal_new (st st1 : Store) (id : nat) (rows : list EntryRow) :
  entriesHaveJournals st ->
  ledgerJournal st !! id = None ->
  ledgerEntry st1 = ledgerEntry st ++ rows ->
  Forall (fun r => row_journalId r = id) rows ->
  entriesOfJournal st1 id = rows.
Proof.
  intros Hwf Hnew Hrows Hids. unfold entriesOfJournal.
  rewrite Hrows, filter_app.
  assert (Hold : filter (fun r => row_journalId r = id) (ledgerEntry st) = []).
  { apply filter_none. intros r Hr Heq.
    destruct (Hwf r Hr) as [x Hx]. rewrite Heq, Hnew in Hx. discriminate. }
  rewrite Hold. cbn.
  clear -Hids. induction Hids as [|r rows Hr _ IH]; [reflexivity|].
  rewrite filter_cons. destruct (decide _); [now f_equal|contradiction].
Qed.

(** *** Reversal *)



(** Scenario: the balanced journal is posted (balances 10 000 and
    10 000), then reversed: the reversal credits cash and debits income,
    both running balances are 0 again, and a second reversal is refused. *)
Example post_then_reverse :
  let '(st1, j) := examplePosted in
  match reverseJournal (jw_id j) "Test reversal reason" None st1 with
  | (st2, Ok r) =>
      getAccountBalance st1 AccountCodes.CASH_OPERATING = 10000
      /\ getAccountBalance st1 AccountCodes.INTEREST_INCOME = 10000
      /\ map entryOfRow (jw_entries r)
         = [ mkLedgerEntry AccountCodes.CASH_OPERATING 0 10000;
             mkLedgerEntry AccountCodes.INTEREST_INCOME 10000 0 ]
      /\ getAccountBalance st2 AccountCodes.CASH_OPERATING = 0
      /\ getAccountBalance st2 AccountCodes.INTEREST_INCOME = 0
      /\ isOk (reverseJournal (jw_id j) "Second reversal" None st2).2 = false
  | (_, Err _) => False
  end.
Proof. vm_compute. repeat split. Qed.

(** [reverseJournal] does not look at [isReversal]: the reversal journal of
    the scenario can itself be reversed, which posts the original entries
    again. *)
Example reversal_can_be_reversed :
  let '(st1, j) := examplePosted in
  match reverseJournal (jw_id j) "Test reversal reason" None st1 with
  | (st2, Ok r) =>
      match reverseJournal (jw_id r) "Reverse the reversal" None st2 with
      | (st3, Ok rr) =>
          jw_isReversal r = true
          /\ map entryOfRow (jw_entries rr)
             = [ mkLedgerEntry AccountCodes.CASH_OPERATING 10000 0;
                 mkLedgerEntry AccountCodes.INTEREST_INCOME 0 10000 ]
          /\ getAccountBalance st3 AccountCodes.CASH_OPERATING = 10000
      | (_, Err _) => False
      end
  | (_, Err _) => False
  end.
Proof. vm_compute. repeat split. Qed.

End LedgerProofs.

(** ** Routing engine: express fee *)

Module RoutingProofs.
Import Routing.

Lemma calculateFee_standard (x : Z) : calculateFee standard x = 0.
Proof. reflexivity. Qed.

(** The scan of [EXPRESS_FEE_BANDS] and the two fall-through cases
    compute the fee table. *)
Lemma calculateFee_instant (x : Z) : calculateFee instant x = bandedFee x.
Proof.
  unfold calculateFee, bandedFee, EXPRESS_FEE_BANDS.
  cbn [List.find head last minCents maxCents feeCents].
  rewrite !Z.geb_leb.
  repeat match goal with
         | |- context [?a <=? ?b] => destruct (Z.leb_spec a b)
         | |- context [?a <? ?b] => destruct (Z.ltb_spec a b)
         end;
    cbn [andb]; first [reflexivity | lia].
Qed.

Lemma bandedFee_monotone (x y : Z) : x <= y -> bandedFee x <= bandedFee y.
Proof.
  intros Hxy. unfold bandedFee.
  repeat match goal with
         | |- context [?a <=? ?b] => destruct (Z.leb_spec a b)
         end; lia.
Qed.

(** C7.  The standard fee is 0; the instant fee is 299 up to 50 000
    (also below the first band's minimum of 10 000), 499 up to 200 000,
    799 up to 500 000, 999 up to 1 000 000, 1 499 up to 2 500 000 and
    1 999 above, every upper boundary included; and the instant fee never
    decreases when the amount grows. *)
Theorem express_fee_bands (x y : Z) :
  calculateFee standard x = 0
  /\ (x <= 50000 -> calculateFee instant x = 299)
  /\ (50001 <= x <= 200000 -> calculateFee instant x = 499)
  /\ (200001 <= x <= 500000 -> calculateFee instant x = 799)
  /\ (500001 <= x <= 1000000 -> calculateFee instant x = 999)
  /\ (1000001 <= x <= 2500000 -> calculateFee instant x = 1499)
  /\ (2500001 <= x -> calculateFee instant x = 1999)
  /\ (x <= y -> calculateFee instant x <= calculateFee instant y).
Proof.
  split; [reflexivity|].
  rewrite !calculateFee_instant.
  repeat split; try apply bandedFee_monotone;
    intros Hx; unfold bandedFee;
    repeat match goal with
           | |- context [?a <=? ?b] => destruct (Z.leb_spec a b)
           end; lia.
Qed.

Lemma express_fee_bands_witness :
  calculateFee instant 9999 = 299
  /\ calculateFee instant 50000 = 299
  /\ calculateFee instant 50001 = 499
  /\ calculateFee instant 5000001 = 1999
  /\ calculateFee instant 50000 <= calculateFee instant 50001.
Proof.
  split; [apply (express_fee_bands 9999 9999); lia|].
  split; [apply (express_fee_bands 50000 50000); lia|].
  split; [apply (express_fee_bands 50001 50001); lia|].
  split; [apply (express_fee_bands 5000001 5000001); lia|].
  apply (express_fee_bands 50000 50001); lia.
Defined.

End RoutingProofs.

(** ** Repayment application waterfall *)

Module WaterfallProofs.
Import Waterfall.

(** C6, as stated, fails: a repayment of 1 000 against a principal balance
    of 500 (no fees, no interest) applies 500 to principal and nothing
    else; the residual 500 is in no component. *)
Lemma waterfall_overpayment_not_applied :
  let balances := mkLoanBalances 500 0 0 in
  applyWaterfall 1000 balances = mkApplication 0 0 500 500
  /\ ~ splitsWholeAmount 1000 balances.
Proof.
  split; [reflexivity|].
  unfold splitsWholeAmount. cbn. lia.
Qed.

(** C6, amended.  For a positive amount and non-negative balances the
    stored components are the minima of the claim; a residual left after
    principal is applied to no component, so the components add up to the
    smaller of the amount and the total owed. *)
Theorem waterfall_split (amount_cents : Z) (balances : LoanBalances) :
  0 < amount_cents ->
  0 <= feesBalance balances ->
  0 <= interestBalance balances ->
  0 <= principalBalance balances ->
  let a := applyWaterfall amount_cents balances in
  appliedFees a = Z.min amount_cents (feesBalance balances)
  /\ appliedInterest a
     = Z.min (amount_cents - appliedFees a) (interestBalance balances)
  /\ appliedPrincipal a
     = Z.min (amount_cents - appliedFees a - appliedInterest a)
             (principalBalance balances)
  /\ remaining a
     = amount_cents - appliedFees a - appliedInterest a - appliedPrincipal a
  /\ appliedFees a + appliedInterest a + appliedPrincipal a
     = Z.min amount_cents
             (feesBalance balances + interestBalance balances
              + principalBalance balances).
Proof.
  intros Hamount Hfees Hinterest Hprincipal.
  unfold applyWaterfall, applyTo.
  repeat match goal with
         | |- context [?a >? ?b] => destruct (Z.gtb_spec a b); cbn [andb]
         end;
    cbn [appliedFees appliedInterest appliedPrincipal remaining]; lia.
Qed.

(** Without the assumption on the balances: a balance that is not positive
    takes nothing, so each component is the minimum of what is left and the
    balance clamped at 0. *)
Lemma waterfall_split_clamped (amount_cents : Z) (balances : LoanBalances) :
  0 < amount_cents ->
  let a := applyWaterfall amount_cents balances in
  appliedFees a = Z.min amount_cents (Z.max 0 (feesBalance balances))
  /\ appliedInterest a
     = Z.min (amount_cents - appliedFees a) (Z.max 0 (interestBalance balances))
  /\ appliedPrincipal a
     = Z.min (amount_cents - appliedFees a - appliedInterest a)
             (Z.max 0 (principalBalance balances))
  /\ remaining a
     = amount_cents - appliedFees a - appliedInterest a - appliedPrincipal a.
Proof.
  intros Hamount. unfold applyWaterfall, applyTo.
  repeat match goal with
         | |- context [?a >? ?b] => destruct (Z.gtb_spec a b); cbn [andb]
         end;
    cbn [appliedFees appliedInterest appliedPrincipal remaining]; lia.
Qed.

Lemma waterfall_split_witness :
  let a := applyWaterfall 1000 (mkLoanBalances 500 200 100) in
  appliedFees a = 100 /\ appliedInterest a = 200 /\ appliedPrincipal a = 500
  /\ remaining a = 200.
Proof.
  pose proof (waterfall_split 1000 (mkLoanBalances 500 200 100)
                ltac:(lia) ltac:(cbn; lia) ltac:(cbn; lia) ltac:(cbn; lia))
    as (Hf & Hi & Hp & Hr & _).
  cbv zeta in *. rewrite Hr, Hp, Hi, Hf. cbn. repeat split; reflexivity.
Defined.

End WaterfallProofs.

(** ** Transfer status ingestion *)

Module TransferProofs.
Import Common Transfer.

Lemma transfer_bind_run {A B} (m : Db A) (k : A -> Db B) (st : Store) :
  (m ≫= k) st =
  match m st with
  | (st1, log1, Ok a) =>
      match k a st1 with
      | (st2, log2, r) => (st2, log1 ++ log2, r)
      end
  | (st1, log1, Err e) => (st1, log1, Err e)
  end.
Proof. reflexivity. Qed.

(** The first statement of [updateDisbursementStatus] overwrites the row,
    whatever its status; the statements after it do not touch the
    [disbursement] table. *)
Lemma updateDisbursementStatus_row (st : Store) (id : string) (d : Disbursement)
      (update : TransferStatusUpdate) (now : Z) :
  disbursement st !! id = Some d ->
  disbursement (updateDisbursementStatus id update now st).1.1
  = <[id := disbursementAfter update now d]> (disbursement st).
Proof.
  intros Hd. unfold updateDisbursementStatus. rewrite transfer_bind_run.
  unfold disbursement_update at 1. rewrite Hd.
  destruct (isCompleted (status update)); [|reflexivity].
  rewrite transfer_bind_run. unfold disbursement_findUnique.
  cbn [disbursement]. rewrite lookup_insert_eq.
  unfold loanContract_update. cbn [loanContract disb_contractId disbursementAfter].
  destruct (loanContract st !! disb_contractId d); reflexivity.
Qed.

(** What a 'completed' update does to a disbursement whose contract
    exists: two writes, each committed on its own, and none to the
    ledger. *)
Lemma updateDisbursementStatus_completed (st : Store) (id : string)
      (d : Disbursement) (c : LoanContract) (update : TransferStatusUpdate)
      (now : Z) :
  disbursement st !! id = Some d ->
  loanContract st !! disb_contractId d = Some c ->
  status update = completed ->
  updateDisbursementStatus id update now st
  = (mkStore (<[id := disbursementAfter update now d]> (disbursement st))
             (repayment st)
             (<[disb_contractId d := mkLoanContract (lc_tenantId c) ACTIVE (Some now)]>
                (loanContract st))
             (ledger st),
     [[W_disbursement id]; [W_loanContract (disb_contractId d)]],
     Ok tt).
Proof.
  intros Hd Hc Hs. unfold updateDisbursementStatus. rewrite transfer_bind_run.
  unfold disbursement_update at 1. rewrite Hd.
  rewrite Hs. cbn [isCompleted]. rewrite transfer_bind_run. unfold disbursement_findUnique.
  cbn [disbursement]. rewrite lookup_insert_eq.
  unfold loanContract_update. cbn [loanContract disb_contractId disbursementAfter].
  rewrite Hc. reflexivity.
Qed.

(** C4, as stated, fails: ingesting 'completed' for a PENDING disbursement
    of a contract in PENDING_DISBURSEMENT completes the record and
    activates the contract, but posts no journal (the ledger tables stay
    empty), and the two writes are two commits. *)
Lemma completed_disbursement_posts_no_journal :
  let st := exampleStore PENDING AV_PENDING PENDING_DISBURSEMENT in
  let update := mkTransferStatusUpdate "moov-xfer-1" completed None in
  let '(st', commits, r) := processStatusUpdate update 5000 st in
  r = Ok tt
  /\ disb_status <$> disbursement st' !! "disb-1" = Some COMPLETED
  /\ lc_status <$> loanContract st' !! "c1" = Some ACTIVE
  /\ Ledger.ledgerJournal (ledger st') = ∅
  /\ Ledger.ledgerEntry (ledger st') = []
  /\ commits = [[W_disbursement "disb-1"]; [W_loanContract "c1"]].
Proof. vm_compute. repeat split. Qed.

(** C4, amended.  When a 'completed' update is ingested for a
    disbursement, the record becomes COMPLETED / AVAILABLE with
    [completedAt] set, and its contract, whatever its status was, becomes
    ACTIVE with [disbursedAt] set; the two rows are written by two
    separate commits and nothing is written to the ledger. *)
Theorem completed_disbursement_update (st : Store) (id : string)
        (d : Disbursement) (c : LoanContract) (update : TransferStatusUpdate)
        (now : Z) :
  disbursement st !! id = Some d ->
  loanContract st !! disb_contractId d = Some c ->
  status update = completed ->
  exists st' d' c',
    updateDisbursementStatus id update now st
    = (st', [[W_disbursement id]; [W_loanContract (disb_contractId d)]], Ok tt)
    /\ disbursement st' !! id = Some d'
    /\ disb_status d' = COMPLETED
    /\ disb_availabilityState d' = AV_AVAILABLE
    /\ disb_completedAt d' = Some now
    /\ loanContract st' !! disb_contractId d = Some c'
    /\ lc_status c' = ACTIVE
    /\ lc_disbursedAt c' = Some now
    /\ ledger st' = ledger st.
Proof.
  intros Hd Hc Hs.
  rewrite (updateDisbursementStatus_completed st id d c update now Hd Hc Hs).
  do 3 eexists. split; [reflexivity|].
  cbn [disbursement loanContract ledger]. rewrite !lookup_insert_eq.
  split; [reflexivity|].
  unfold disbursementAfter. rewrite Hs. cbn. repeat split.
Qed.

Lemma completed_disbursement_update_witness :
  exists st' d' c',
    updateDisbursementStatus "disb-1"
      (mkTransferStatusUpdate "moov-xfer-1" completed None) 5000
      (exampleStore PENDING AV_PENDING PENDING_DISBURSEMENT)
    = (st', [[W_disbursement "disb-1"]; [W_loanContract "c1"]], Ok tt)
    /\ disbursement st' !! "disb-1" = Some d'
    /\ disb_status d' = COMPLETED
    /\ disb_availabilityState d' = AV_AVAILABLE
    /\ disb_completedAt d' = Some 5000
    /\ loanContract st' !! "c1" = Some c'
    /\ lc_status c' = ACTIVE
    /\ lc_disbursedAt c' = Some 5000
    /\ ledger st' = ledger (exampleStore PENDING AV_PENDING PENDING_DISBURSEMENT).
Proof.
  apply (completed_disbursement_update
           (exampleStore PENDING AV_PENDING PENDING_DISBURSEMENT) "disb-1"
           (exampleDisbursement PENDING AV_PENDING)
           (mkLoanContract "tenant-1" PENDING_DISBURSEMENT None)
           (mkTransferStatusUpdate "moov-xfer-1" completed None) 5000);
    reflexivity.
Defined.

(** *** Status updates after completion *)

Lemma updateRepaymentStatus_run (st : Store) (id : string) (r : Repayment)
      (update : TransferStatusUpdate) (now : Z) :
  repayment st !! id = Some r ->
  updateRepaymentStatus id update now st
  = (mkStore (disbursement st) (<[id := repaymentAfter update now r]> (repayment st))
             (loanContract st) (ledger st),
     [[W_repayment id]], Ok tt).
Proof.
  intros Hr. unfold updateRepaymentStatus, repayment_update. now rewrite Hr.
Qed.

(** C5, as stated, fails: a COMPLETED disbursement that receives a late
    'pending' update goes back to PENDING, and a COMPLETED repayment that
    receives 'processing' goes back to PENDING; neither update is
    rejected. *)
Lemma completed_record_is_uncompleted :
  let st := exampleStore COMPLETED AV_AVAILABLE ACTIVE in
  let '(st1, _, r1) :=
    processStatusUpdate (mkTransferStatusUpdate "moov-xfer-1" pending None) 6000 st in
  let '(st2, _, r2) :=
    processStatusUpdate (mkTransferStatusUpdate "moov-xfer-2" processing None) 6000 st in
  disb_status <$> disbursement st !! "disb-1" = Some COMPLETED
  /\ r1 = Ok tt
  /\ disb_status <$> disbursement st1 !! "disb-1" = Some PENDING
  /\ rep_status <$> repayment st !! "rep-1" = Some COMPLETED
  /\ r2 = Ok tt
  /\ rep_status <$> repayment st2 !! "rep-1" = Some PENDING.
Proof. vm_compute. repeat split. Qed.

(** C5, amended.  A status update overwrites the status of the record it
    is applied to with the status mapped from the provider status,
    whatever the record's status was: a COMPLETED record stays COMPLETED
    exactly when the update is 'completed', and becomes PENDING on
    'pending' or 'processing'.  No update is rejected for being out of
    order. *)
Theorem status_update_overwrites (st : Store) (id : string)
        (update : TransferStatusUpdate) (now : Z) :
  (forall d, disbursement st !! id = Some d ->
     disb_status <$> disbursement (updateDisbursementStatus id update now st).1.1 !! id
     = Some (disbursementStatusMap (status update)))
  /\ (forall r, repayment st !! id = Some r ->
        (updateRepaymentStatus id update now st).2 = Ok tt
        /\ rep_status <$> repayment (updateRepaymentStatus id update now st).1.1 !! id
           = Some (repaymentStatusMap (status update)))
  /\ (disbursementStatusMap (status update) = COMPLETED
      <-> status update = completed)
  /\ (repaymentStatusMap (status update) = COMPLETED
      <-> status update = completed)
  /\ (status update = pending \/ status update = processing ->
      disbursementStatusMap (status update) = PENDING
      /\ repaymentStatusMap (status update) = PENDING).
Proof.
  split; [|split; [|split; [|split]]].
  - intros d Hd. rewrite (updateDisbursementStatus_row st id d update now Hd).
    now rewrite lookup_insert_eq.
  - intros r Hr. rewrite (updateRepaymentStatus_run st id r update now Hr).
    cbn [fst snd repayment]. now rewrite lookup_insert_eq.
  - destruct (status update); cbn; split; congruence.
  - destruct (status update); cbn; split; congruence.
  - intros [-> | ->]; split; reflexivity.
Qed.

Lemma status_update_overwrites_witness :
  disb_status <$>
    disbursement
      (updateDisbursementStatus "disb-1"
         (mkTransferStatusUpdate "moov-xfer-1" pending None) 6000
         (exampleStore COMPLETED AV_AVAILABLE ACTIVE)).1.1 !! "disb-1"
  = Some PENDING.
Proof.
  apply (proj1 (status_update_overwrites
                  (exampleStore COMPLETED AV_AVAILABLE ACTIVE) "disb-1"
                  (mkTransferStatusUpdate "moov-xfer-1" pending None) 6000)
               (exampleDisbursement COMPLETED AV_AVAILABLE)).
  reflexivity.
Defined.

End TransferProofs.

(** ** Reconciliation engine *)

Module ReconciliationProofs.
Import Common JS Reconciliation.

(** *** Status normalization *)

Lemma normalizeStatus_unlisted (status : string) :
  statusMap !! status = None -> normalizeStatus status = toLowerCase status.
Proof. intros H. unfold normalizeStatus. now rewrite H. Qed.

(** C8, as stated, fails: the provider token 'canceled' is not in the
    table of [normalizeStatus] and normalizes to itself, not to
    'cancelled'; a local CANCELLED record compared with a provider
    'canceled' transfer of the same amount is reported as a status
    mismatch. *)
Lemma canceled_is_not_cancelled :
  normalizeStatus "CANCELLED" = "cancelled"
  /\ normalizeStatus "canceled" = "canceled"
  /\ normalizeStatus "canceled" <> "cancelled"
  /\ (let '(summary, found) :=
        compareWithProvider DEFAULT_RECONCILIATION_CONFIG 9000 "tenant-1"
          repayment "rep-1" (Some "moov-xfer-2") Transfer.CANCELLED 20000
          (mkProviderTransfer "moov-xfer-2" "canceled" 20000 1000 None None)
          (mkTransferSummary 1 0 0 0 0 0) in
      statusMismatch summary = 1 /\ matched summary = 0
      /\ map type found = [transfer_status]).
Proof. vm_compute. repeat split. discriminate. Qed.

(** C8, amended.  [normalizeStatus] maps PENDING, PROCESSING, created and
    pending to 'pending', COMPLETED and completed to 'completed', FAILED
    and failed to 'failed', RETURNED and reversed to 'returned', CANCELLED
    to 'cancelled', and a token of ASCII characters that is not in its
    table and does not name a property of [Object.prototype], such as
    'canceled', to its lower-case form; so a local CANCELLED record and a
    provider 'canceled' transfer are a status mismatch, reported as a
    [transfer_status] exception. *)
Theorem normalize_status_table :
  normalizeStatus "PENDING" = "pending"
  /\ normalizeStatus "PROCESSING" = "pending"
  /\ normalizeStatus "created" = "pending"
  /\ normalizeStatus "pending" = "pending"
  /\ normalizeStatus "COMPLETED" = "completed"
  /\ normalizeStatus "completed" = "completed"
  /\ normalizeStatus "FAILED" = "failed"
  /\ normalizeStatus "failed" = "failed"
  /\ normalizeStatus "RETURNED" = "returned"
  /\ normalizeStatus "reversed" = "returned"
  /\ normalizeStatus "CANCELLED" = "cancelled"
  /\ normalizeStatus "canceled" = "canceled"
  /\ (forall status, asciiText status = true -> inherited status = false ->
                     statusMap !! status = None ->
                     normalizeStatus status = toLowerCase status)
  /\ (forall cfg now tenant recordType id providerRef amountCents
             providerRecord summary,
        pt_status providerRecord = "canceled" ->
        exists exception,
          compareWithProvider cfg now tenant recordType id providerRef
            Transfer.CANCELLED amountCents providerRecord summary
          = (bump_statusMismatch summary, [exception])
          /\ type exception = transfer_status
          /\ severity exception = medium).
Proof.
  do 12 (split; [reflexivity|]).
  split; [intros status _ _; apply normalizeStatus_unlisted|].
  intros cfg now tenant recordType id providerRef amountCents
         providerRecord summary Hstatus.
  unfold compareWithProvider. rewrite Hstatus.
  change (normalizeStatus (statusName Transfer.CANCELLED)) with "cancelled".
  change (normalizeStatus "canceled") with "canceled".
  cbn [String.eqb Ascii.eqb Bool.eqb negb andb].
  eexists. split; [reflexivity|]. split; reflexivity.
Qed.

Lemma normalize_status_table_witness :
  exists exception,
    compareWithProvider DEFAULT_RECONCILIATION_CONFIG 9000 "tenant-1"
      disbursement "disb-1" (Some "moov-xfer-1") Transfer.CANCELLED 50000
      (mkProviderTransfer "moov-xfer-1" "canceled" 50000 1000 None None)
      (mkTransferSummary 1 0 0 0 0 0)
    = (bump_statusMismatch (mkTransferSummary 1 0 0 0 0 0), [exception])
    /\ type exception = transfer_status
    /\ severity exception = medium.
Proof.
  destruct normalize_status_table as (_&_&_&_&_&_&_&_&_&_&_&_&_&Hcompare).
  apply Hcompare. reflexivity.
Defined.

(** *** Auto-resolution *)

(** [canAutoResolve] decides the three conditions (the threshold is not
    negative: a discrepancy of 0 is never over it). *)
Lemma canAutoResolve_iff (cfg : ReconciliationConfig)
      (e : ReconciliationException) :
  0 <= autoResolveThresholdCents cfg ->
  canAutoResolve cfg e = true <-> autoResolvable cfg e.
Proof.
  intros Hthr. unfold canAutoResolve, autoResolvable.
  destruct (type e); cbn [isTransferStatus negb];
    try (split; [discriminate | intros (Ht & _); discriminate]).
  assert (Hdisc :
            match discrepancyAmountCents e with
            | Some d => negb (d =? 0) && (d >? autoResolveThresholdCents cfg)
            | None => false
            end = false
            <-> forall d, discrepancyAmountCents e = Some d ->
                          d <= autoResolveThresholdCents cfg).
  { destruct (discrepancyAmountCents e) as [d|].
    - split.
      + intros Hb x [= <-].
        destruct (Z.eqb_spec d 0), (Z.gtb_spec d (autoResolveThresholdCents cfg));
          cbn in Hb; try discriminate; lia.
      + intros Hall. specialize (Hall d eq_refl).
        destruct (Z.eqb_spec d 0), (Z.gtb_spec d (autoResolveThresholdCents cfg));
          cbn; try reflexivity; lia.
    - split; [intros _ d; discriminate | reflexivity]. }
  destruct (match discrepancyAmountCents e with Some _ => _ | None => _ end).
  - split; [discriminate|]. intros (_ & Hd & _).
    apply Hdisc in Hd. discriminate.
  - destruct (statusOfValue (localValue e)) as [l|],
             (statusOfValue (providerValue e)) as [p|];
      try (split; [discriminate | intros (_ & _ & Hl & Hp); discriminate]).
    rewrite andb_true_iff, !String.eqb_eq.
    split.
    + intros [-> ->]. repeat split. now apply Hdisc.
    + intros (_ & _ & [= ->] & [= ->]). split; reflexivity.
Qed.

Lemma keepsCompleted_refl (now : Z) (st : Transfer.Store) :
  keepsCompleted now st st.
Proof. repeat split; eauto. Qed.

Lemma keepsCompleted_trans (now : Z) (st1 st2 st3 : Transfer.Store) :
  keepsCompleted now st1 st2 -> keepsCompleted now st2 st3 ->
  keepsCompleted now st1 st3.
Proof.
  intros (Hd1 & Hr1 & Hcd1 & Hcr1) (Hd2 & Hr2 & Hcd2 & Hcr2).
  split; [|split; [|split]].
  - intros id. now rewrite Hd2.
  - intros id. now rewrite Hr2.
  - intros id d Hd Hc. destruct (Hcd1 id d Hd Hc) as (d' & Hd' & Hc'). eauto.
  - intros id r Hr Hc. destruct (Hcr1 id r Hr Hc) as (r' & Hr' & Hc'). eauto.
Qed.

Lemma targetsRecord_kept (now : Z) (st st' : Transfer.Store)
      (e : ReconciliationException) :
  keepsCompleted now st st' -> targetsRecord st e -> targetsRecord st' e.
Proof.
  intros (Hd & Hr & _). unfold targetsRecord.
  destruct (localRecordId e) as [id|]; [|tauto].
  destruct (localRecordType e) as [[]|]; try tauto.
  - now rewrite Hd.
  - now rewrite Hr.
Qed.

Lemma recordCompleted_kept (now : Z) (st st' : Transfer.Store)
      (e : ReconciliationException) :
  keepsCompleted now st st' -> recordCompleted st now e ->
  recordCompleted st' now e.
Proof.
  intros (_ & _ & Hcd & Hcr). unfold recordCompleted.
  destruct (localRecordId e) as [id|]; [|tauto].
  destruct (localRecordType e) as [[]|]; try tauto.
  - intros (d & Hd & Hc). eauto.
  - intros (r & Hr & Hc). eauto.
Qed.

Lemma completeDisbursement_completed (now : Z) (d : Transfer.Disbursement) :
  disbursementCompletedAt now (completeDisbursement now d).
Proof. repeat split. Qed.

Lemma completeRepayment_completed (now : Z) (r : Transfer.Repayment) :
  repaymentCompletedAt now (completeRepayment now r).
Proof. repeat split. Qed.

(** What [autoResolveException] does to the store, whatever the
    exception: only the row it names can change, no row appears or
    disappears, completed rows stay completed, contracts and ledger are
    not touched. *)
Lemma autoResolveException_frame (e : ReconciliationException) (now : Z)
      (st : Transfer.Store) :
  let st' := (autoResolveException e now st).1.1 in
  keepsCompleted now st st'
  /\ (forall id, ~ namesRecord e disbursement id ->
                 Transfer.disbursement st' !! id = Transfer.disbursement st !! id)
  /\ (forall id, ~ namesRecord e repayment id ->
                 Transfer.repayment st' !! id = Transfer.repayment st !! id)
  /\ Transfer.loanContract st' = Transfer.loanContract st
  /\ Transfer.ledger st' = Transfer.ledger st.
Proof.
  cbv zeta. unfold autoResolveException, namesRecord.
  destruct (localRecordId e) as [id|];
    [|cbn; split; [apply keepsCompleted_refl|repeat split]].
  destruct (localRecordType e) as [recordType|];
    [|cbn; split; [apply keepsCompleted_refl|repeat split]].
  destruct (String.eqb id "");
    [cbn; split; [apply keepsCompleted_refl|repeat split]|].
  destruct recordType; cbn;
    try (split; [apply keepsCompleted_refl|repeat split]).
  - unfold Transfer.disbursement_update.
    destruct (Transfer.disbursement st !! id) as [d|] eqn:Hd; cbn;
      [|split; [apply keepsCompleted_refl|repeat split]].
    split; [|split; [|repeat split]].
    + split; [|split; [|split]]; cbn; eauto.
      * intros id'. destruct (decide (id = id')) as [<-|Hne].
        -- rewrite lookup_insert_eq, Hd. split; eauto.
        -- now rewrite lookup_insert_ne.
      * intros id' d' Hd' Hc. destruct (decide (id = id')) as [<-|Hne].
        -- rewrite lookup_insert_eq. eexists; split; [reflexivity|].
           apply completeDisbursement_completed.
        -- rewrite lookup_insert_ne by assumption. eauto.
    + intros id' Hnot. apply lookup_insert_ne. intros ->. now apply Hnot.
  - unfold Transfer.repayment_update.
    destruct (Transfer.repayment st !! id) as [r|] eqn:Hr; cbn;
      [|split; [apply keepsCompleted_refl|repeat split]].
    split; [|split; [|repeat split]].
    + split; [|split; [|split]]; cbn; eauto.
      * intros id'. destruct (decide (id = id')) as [<-|Hne].
        -- rewrite lookup_insert_eq, Hr. split; eauto.
        -- now rewrite lookup_insert_ne.
      * intros id' r' Hr' Hc. destruct (decide (id = id')) as [<-|Hne].
        -- rewrite lookup_insert_eq. eexists; split; [reflexivity|].
           apply completeRepayment_completed.
        -- rewrite lookup_insert_ne by assumption. eauto.
    + reflexivity.
    + intros id' Hnot. apply lookup_insert_ne. intros ->. now apply Hnot.
Qed.

(** On an exception that names a row of the store, [autoResolveException]
    completes the row and marks the exception resolved. *)
Lemma autoResolveException_resolves (e : ReconciliationException) (now : Z)
      (st : Transfer.Store) :
  targetsRecord st e ->
  (autoResolveException e now st).2 = markResolved e now
  /\ recordCompleted (autoResolveException e now st).1.1 now e.
Proof.
  unfold targetsRecord, recordCompleted, autoResolveException.
  destruct (localRecordId e) as [id|]; [|tauto].
  destruct (localRecordType e) as [[]|]; try tauto.
  - intros [Hid [d Hd]]. apply String.eqb_neq in Hid. rewrite Hid.
    unfold Transfer.disbursement_update. rewrite Hd. cbn.
    split; [reflexivity|]. rewrite lookup_insert_eq.
    eexists; split; [reflexivity|apply completeDisbursement_completed].
  - intros [Hid [r Hr]]. apply String.eqb_neq in Hid. rewrite Hid.
    unfold Transfer.repayment_update. rewrite Hr. cbn.
    split; [reflexivity|]. rewrite lookup_insert_eq.
    eexists; split; [reflexivity|apply completeRepayment_completed].
Qed.

(** The auto-resolve loop, when every exception that can be auto-resolved
    names a row of the store. *)
Lemma autoResolveLoop_run (cfg : ReconciliationConfig) (now : Z)
      (exceptions : list ReconciliationException) :
  forall st : Transfer.Store,
  (forall e, In e exceptions -> canAutoResolve cfg e = true -> targetsRecord st e) ->
  exists st' commits,
    autoResolveLoop cfg now exceptions st
    = (st', commits, resolvedWhereEligible cfg now exceptions,
       map (fun e => markResolved e now)
           (List.filter (canAutoResolve cfg) exceptions))
    /\ keepsCompleted now st st'
    /\ (forall e, In e exceptions -> canAutoResolve cfg e = true ->
                  recordCompleted st' now e)
    /\ (forall id,
          (forall e, In e exceptions -> canAutoResolve cfg e = true ->
                     ~ namesRecord e disbursement id) ->
          Transfer.disbursement st' !! id = Transfer.disbursement st !! id)
    /\ (forall id,
          (forall e, In e exceptions -> canAutoResolve cfg e = true ->
                     ~ namesRecord e repayment id) ->
          Transfer.repayment st' !! id = Transfer.repayment st !! id)
    /\ Transfer.loanContract st' = Transfer.loanContract st
    /\ Transfer.ledger st' = Transfer.ledger st.
Proof.
  induction exceptions as [|e rest IH]; intros st Htargets.
  - exists st, []. cbn. split; [reflexivity|].
    split; [apply keepsCompleted_refl|]. repeat split; intros; tauto.
  - cbn [autoResolveLoop resolvedWhereEligible map List.filter].
    destruct (canAutoResolve cfg e) eqn:Hcan.
    + pose proof (autoResolveException_frame e now st) as Hframe.
      pose proof (autoResolveException_resolves e now st
                    (Htargets e (or_introl eq_refl) Hcan)) as Hres.
      destruct (autoResolveException e now st) as [[st1 log1] e'].
      cbn [fst snd] in Hframe, Hres. cbv zeta in Hframe.
      destruct Hframe as (Hkeep1 & Hd1 & Hr1 & Hc1 & Hl1).
      destruct Hres as [-> Hdone1].
      destruct (IH st1) as (st' & log & Hrun & Hkeep & Hdone & Hd & Hr & Hc & Hl).
      { intros x Hx Hcx. eapply targetsRecord_kept; [exact Hkeep1|].
        apply Htargets; [now right|assumption]. }
      rewrite Hrun. exists st', (log1 ++ log).
      split; [reflexivity|].
      split; [eapply keepsCompleted_trans; eassumption|].
      split; [|split; [|split; [|split]]].
      * intros x [<-|Hx] Hcx.
        -- eapply recordCompleted_kept; eassumption.
        -- now apply Hdone.
      * intros id Hnot. rewrite Hd, Hd1; [reflexivity| |].
        -- apply Hnot; [now left|assumption].
        -- intros x Hx. apply Hnot. now right.
      * intros id Hnot. rewrite Hr, Hr1; [reflexivity| |].
        -- apply Hnot; [now left|assumption].
        -- intros x Hx. apply Hnot. now right.
      * congruence.
      * congruence.
    + destruct (IH st) as (st' & log & Hrun & Hkeep & Hdone & Hd & Hr & Hc & Hl).
      { intros x Hx Hcx. apply Htargets; [now right|assumption]. }
      rewrite Hrun. exists st', log.
      split; [reflexivity|]. split; [assumption|].
      split; [|split; [|split; [|split]]]; try assumption.
      * intros x [<-|Hx] Hcx; [congruence|now apply Hdone].
      * intros id Hnot. apply Hd. intros x Hx. apply Hnot. now right.
      * intros id Hnot. apply Hr. intros x Hx. apply Hnot. now right.
Qed.

(** A dry run, or a run with auto-resolution disabled, resolves nothing
    and writes nothing. *)
Lemma autoResolveEligible_off (cfg : ReconciliationConfig) (dryRun : bool)
      (now : Z) (exceptions : list ReconciliationException)
      (st : Transfer.Store) :
  dryRun = true \/ autoResolveStatusUpdates cfg = false ->
  autoResolveEligible cfg dryRun now exceptions st = (st, [], exceptions, []).
Proof.
  intros [-> | Hoff]; unfold autoResolveEligible; [reflexivity|].
  rewrite Hoff. now rewrite andb_false_r.
Qed.

Lemma statusOfValue_status (s : string) :
  statusOfValue (Some (JObj [("status", JStr s)])) = Some (normalizeStatus s).
Proof. reflexivity. Qed.

(** The exceptions built by [compareWithProvider] name the row that was
    compared; a status mismatch can be auto-resolved exactly when the
    local status normalizes to 'pending' and the provider's to
    'completed'. *)
Lemma compareWithProvider_exceptions (cfg : ReconciliationConfig) (now : Z)
      (tenant : string) (recordType : LocalRecordType) (id : string)
      (providerRef : option string) (recordStatus : Transfer.RecordStatus)
      (amountCents : Z) (providerRecord : ProviderTransferRecord)
      (summary : TransferSummary) (e : ReconciliationException) :
  In e (compareWithProvider cfg now tenant recordType id providerRef
          recordStatus amountCents providerRecord summary).2 ->
  namesRecord e recordType id
  /\ status e = open
  /\ (canAutoResolve cfg e = true <->
      normalizeStatus (statusName recordStatus) = "pending"
      /\ normalizeStatus (pt_status providerRecord) = "completed").
Proof.
  unfold compareWithProvider.
  destruct (String.eqb_spec (normalizeStatus (statusName recordStatus))
                            (normalizeStatus (pt_status providerRecord)))
    as [Heq|Hne]; cbn [negb].
  - destruct (amountCents =? pt_amountCents providerRecord); cbn [negb snd];
      [intros []|].
    intros [<-|[]]. split; [split; reflexivity|]. split; [reflexivity|].
    cbn. split; [discriminate|]. intros [Hl Hp]. rewrite Hl, Hp in Heq.
    discriminate.
  - cbn [snd]. intros [<-|[]]. split; [split; reflexivity|].
    split; [reflexivity|].
    unfold canAutoResolve, createException.
    cbn [type isTransferStatus negb discrepancyAmountCents localValue
         providerValue].
    rewrite !statusOfValue_status, andb_true_iff, !String.eqb_eq.
    reflexivity.
Qed.

(** *** The exceptions found by a run name rows of the store *)

Lemma canAutoResolve_transfer_status (cfg : ReconciliationConfig)
      (e : ReconciliationException) :
  canAutoResolve cfg e = true -> type e = transfer_status.
Proof.
  unfold canAutoResolve. destruct (type e); cbn; congruence.
Qed.

Lemma disbursementsInPeriod_rows (st : Transfer.Store) (tenant : string)
      (periodStart periodEnd : Z) (row : string * Transfer.Disbursement) :
  In row (disbursementsInPeriod st tenant periodStart periodEnd) ->
  Transfer.disbursement st !! row.1 = Some row.2.
Proof.
  unfold disbursementsInPeriod. intros [Hin _]%filter_In.
  apply list_elem_of_In in Hin. destruct row as [id d].
  now apply elem_of_map_to_list in Hin.
Qed.

Lemma repaymentsInPeriod_rows (st : Transfer.Store) (tenant : string)
      (periodStart periodEnd : Z) (row : string * Transfer.Repayment) :
  In row (repaymentsInPeriod st tenant periodStart periodEnd) ->
  Transfer.repayment st !! row.1 = Some row.2.
Proof.
  unfold repaymentsInPeriod. intros [Hin _]%filter_In.
  apply list_elem_of_In in Hin. destruct row as [id r].
  now apply elem_of_map_to_list in Hin.
Qed.

Section DetectedExceptions.
Variable toISOString : Z -> string.
Variables cfg cfg' : ReconciliationConfig.
Variable st : Transfer.Store.
Variables (now : Z) (tenant : string).

Local Abbreviation linked := (linkedTo cfg' st).

Lemma compareWithProvider_linked (recordType : LocalRecordType) (id : string)
      (providerRef : option string) (recordStatus : Transfer.RecordStatus)
      (amountCents : Z) (providerRecord : ProviderTransferRecord)
      (summary : TransferSummary) :
  id <> "" ->
  match recordType with
  | disbursement => is_Some (Transfer.disbursement st !! id)
  | repayment => is_Some (Transfer.repayment st !! id)
  | _ => False
  end ->
  Forall linked
    (compareWithProvider cfg now tenant recordType id providerRef recordStatus
       amountCents providerRecord summary).2.
Proof.
  intros Hid Hrow. apply Forall_forall. intros e He _.
  apply list_elem_of_In, compareWithProvider_exceptions in He.
  destruct He as [[Hname Htype] _]. unfold targetsRecord.
  rewrite Hname, Htype. destruct recordType; tauto.
Qed.

Lemma checkDisbursement_linked
      (acc : JsMap ProviderTransferRecord * TransferSummary
             * list ReconciliationException)
      (row : string * Transfer.Disbursement) :
  Transfer.disbursement st !! "" = None ->
  Transfer.disbursement st !! row.1 = Some row.2 ->
  Forall linked acc.2 ->
  Forall linked (checkDisbursement toISOString cfg now tenant acc row).2.
Proof.
  intros Hempty Hrow Hacc. destruct acc as [[m summary] exceptions].
  destruct row as [id d]. cbn [fst snd] in *. unfold checkDisbursement.
  destruct (Transfer.disb_providerRef d ≫= mapGet m) as [providerRecord|].
  - destruct (compareWithProvider _ _ _ _ _ _ _ _ _ _) as [summary' found] eqn:Hcmp.
    cbn [snd]. apply Forall_app. split; [assumption|].
    change found with (summary', found).2. rewrite <- Hcmp.
    apply compareWithProvider_linked; [congruence|eauto].
  - destruct (olderThan24h _ _); cbn [snd]; [|assumption].
    apply Forall_app. split; [assumption|].
    constructor; [|constructor].
    intros Hcan%canAutoResolve_transfer_status. discriminate.
Qed.

Lemma checkRepayment_linked (m : JsMap ProviderTransferRecord)
      (acc : TransferSummary * list ReconciliationException)
      (row : string * Transfer.Repayment) :
  Transfer.repayment st !! "" = None ->
  Transfer.repayment st !! row.1 = Some row.2 ->
  Forall linked acc.2 ->
  Forall linked (checkRepayment toISOString cfg now tenant m acc row).2.
Proof.
  intros Hempty Hrow Hacc. destruct acc as [summary exceptions].
  destruct row as [id r]. cbn [fst snd] in *. unfold checkRepayment.
  destruct (Transfer.rep_providerRef r ≫= mapGet m) as [providerRecord|].
  - destruct (compareWithProvider _ _ _ _ _ _ _ _ _ _) as [summary' found] eqn:Hcmp.
    cbn [snd]. apply Forall_app. split; [assumption|].
    change found with (summary', found).2. rewrite <- Hcmp.
    apply compareWithProvider_linked; [congruence|eauto].
  - destruct (match Transfer.rep_initiatedAt r with Some _ => _ | None => _ end);
      cbn [snd]; [|assumption].
    apply Forall_app. split; [assumption|].
    constructor; [|constructor].
    intros Hcan%canAutoResolve_transfer_status. discriminate.
Qed.

(** Every exception found by [reconcileDisbursements] that can be
    auto-resolved names a disbursement of the store. *)
Lemma reconcileDisbursements_linked
      (providerTransfers : list ProviderTransferRecord)
      (periodStart periodEnd : Z) (summary : TransferSummary) :
  Transfer.disbursement st !! "" = None ->
  Forall linked
    (reconcileDisbursements toISOString cfg st providerTransfers now tenant
       periodStart periodEnd summary).2.
Proof.
  intros Hempty. unfold reconcileDisbursements. cbv zeta.
  pose proof (disbursementsInPeriod_rows st tenant periodStart periodEnd) as Hrows.
  set (rows := disbursementsInPeriod st tenant periodStart periodEnd) in *.
  set (m0 := mapOfPairs _).
  assert (Hloop : forall acc, Forall linked acc.2 ->
            Forall linked (fold_left (checkDisbursement toISOString cfg now tenant)
                                     rows acc).2).
  { induction rows as [|row rows IH]; intros acc Hacc; [assumption|].
    cbn [fold_left]. apply IH.
    - intros x Hx. apply Hrows. now right.
    - apply checkDisbursement_linked; auto. apply Hrows. now left. }
  specialize (Hloop (m0, set_checked summary (Z.of_nat (length rows)), [])
                    (Forall_nil_2 _)).
  destruct (fold_left _ rows _) as [[remaining summary1] exceptions1].
  cbn [snd] in Hloop.
  generalize dependent exceptions1. generalize summary1.
  induction remaining as [|[transferId providerRecord] remaining IH];
    intros summary2 exceptions2 Hacc; [assumption|].
  cbn [fold_left]. destruct (isDisbursementTransfer providerRecord).
  - apply IH. apply Forall_app. split; [assumption|].
    constructor; [|constructor].
    intros Hcan%canAutoResolve_transfer_status. discriminate.
  - apply IH. assumption.
Qed.

(** Every exception found by [reconcileRepayments] that can be
    auto-resolved names a repayment of the store. *)
Lemma reconcileRepayments_linked
      (providerTransfers : list ProviderTransferRecord)
      (periodStart periodEnd : Z) (summary : TransferSummary) :
  Transfer.repayment st !! "" = None ->
  Forall linked
    (reconcileRepayments toISOString cfg st providerTransfers now tenant
       periodStart periodEnd summary).2.
Proof.
  intros Hempty. unfold reconcileRepayments. cbv zeta.
  pose proof (repaymentsInPeriod_rows st tenant periodStart periodEnd) as Hrows.
  set (rows := repaymentsInPeriod st tenant periodStart periodEnd) in *.
  set (m0 := mapOfPairs _).
  generalize (set_checked summary (Z.of_nat (length rows))). intros summary0.
  assert (Hloop : forall acc, Forall linked acc.2 ->
            Forall linked (fold_left (checkRepayment toISOString cfg now tenant m0)
                                     rows acc).2).
  { induction rows as [|row rows IH]; intros acc Hacc; [assumption|].
    cbn [fold_left]. apply IH.
    - intros x Hx. apply Hrows. now right.
    - apply checkRepayment_linked; auto. apply Hrows. now left. }
  apply (Hloop (summary0, [])). constructor.
Qed.

End DetectedExceptions.

(** C9.  In a run that is not a dry run, with auto-resolution enabled and
    a threshold that is not negative, over exceptions that name their
    local record: an exception is auto-resolved if and only if its type is
    [transfer_status], its discrepancy, when set, is at most the
    threshold, and its local status normalizes to 'pending' while its
    provider status normalizes to 'completed'.  Each such exception is
    marked resolved with [auto_corrected] and its record is COMPLETED /
    AVAILABLE with [completedAt = now]; every other exception is left as
    it is, and no other record is written. *)
Theorem auto_resolution (cfg : ReconciliationConfig) (now : Z)
        (exceptions : list ReconciliationException) (st : Transfer.Store) :
  0 <= autoResolveThresholdCents cfg ->
  autoResolveStatusUpdates cfg = true ->
  (forall e, In e exceptions -> autoResolvable cfg e -> targetsRecord st e) ->
  (forall e, canAutoResolve cfg e = true <-> autoResolvable cfg e)
  /\ exists st' commits,
       autoResolveEligible cfg false now exceptions st
       = (st', commits, resolvedWhereEligible cfg now exceptions,
          map (fun e => markResolved e now)
              (List.filter (canAutoResolve cfg) exceptions))
       /\ (forall e, In e exceptions -> autoResolvable cfg e ->
                     recordCompleted st' now e
                     /\ In (markResolved e now)
                           (resolvedWhereEligible cfg now exceptions)
                     /\ status (markResolved e now) = resolved
                     /\ resolutionType (markResolved e now) = Some auto_corrected
                     /\ resolvedAt (markResolved e now) = Some now)
       /\ (forall e, In e exceptions -> ~ autoResolvable cfg e ->
                     In e (resolvedWhereEligible cfg now exceptions))
       /\ (forall id,
             (forall e, In e exceptions -> autoResolvable cfg e ->
                        ~ namesRecord e disbursement id) ->
             Transfer.disbursement st' !! id = Transfer.disbursement st !! id)
       /\ (forall id,
             (forall e, In e exceptions -> autoResolvable cfg e ->
                        ~ namesRecord e repayment id) ->
             Transfer.repayment st' !! id = Transfer.repayment st !! id).
Proof.
  intros Hthr Hon Htargets.
  pose proof (fun e => canAutoResolve_iff cfg e Hthr) as Hiff.
  split; [exact Hiff|].
  destruct (autoResolveLoop_run cfg now exceptions st)
    as (st' & commits & Hrun & _ & Hdone & Hd & Hr & _ & _).
  { intros e He Hcan. apply Htargets; [assumption|now apply Hiff]. }
  exists st', commits. unfold autoResolveEligible. rewrite Hon. cbn [negb andb].
  split; [exact Hrun|].
  split; [|split; [|split]].
  - intros e He Hres. split; [apply Hdone; [assumption|now apply Hiff]|].
    split; [|repeat split].
    unfold resolvedWhereEligible. apply in_map_iff. exists e.
    apply Hiff in Hres. now rewrite Hres.
  - intros e He Hnot. unfold resolvedWhereEligible. apply in_map_iff. exists e.
    destruct (canAutoResolve cfg e) eqn:Hcan; [|now split].
    apply Hiff in Hcan. contradiction.
  - intros id Hnot. apply Hd. intros e He Hcan. apply Hnot; [assumption|].
    now apply Hiff.
  - intros id Hnot. apply Hr. intros e He Hcan. apply Hnot; [assumption|].
    now apply Hiff.
Qed.

Lemma auto_resolution_witness :
  let st := Transfer.exampleStore Transfer.PENDING Transfer.AV_PENDING
                                  Transfer.ACTIVE in
  exists st' commits,
    autoResolveEligible DEFAULT_RECONCILIATION_CONFIG false 9500
                        exampleExceptions st
    = (st', commits,
       resolvedWhereEligible DEFAULT_RECONCILIATION_CONFIG 9500 exampleExceptions,
       map (fun e => markResolved e 9500)
           (List.filter (canAutoResolve DEFAULT_RECONCILIATION_CONFIG)
                        exampleExceptions))
    /\ (forall e, In e exampleExceptions ->
                  autoResolvable DEFAULT_RECONCILIATION_CONFIG e ->
                  recordCompleted st' 9500 e
                  /\ In (markResolved e 9500)
                        (resolvedWhereEligible DEFAULT_RECONCILIATION_CONFIG 9500
                                               exampleExceptions)
                  /\ status (markResolved e 9500) = resolved
                  /\ resolutionType (markResolved e 9500) = Some auto_corrected
                  /\ resolvedAt (markResolved e 9500) = Some 9500)
    /\ (forall e, In e exampleExceptions ->
                  ~ autoResolvable DEFAULT_RECONCILIATION_CONFIG e ->
                  In e (resolvedWhereEligible DEFAULT_RECONCILIATION_CONFIG 9500
                                              exampleExceptions))
    /\ (forall id,
          (forall e, In e exampleExceptions ->
                     autoResolvable DEFAULT_RECONCILIATION_CONFIG e ->
                     ~ namesRecord e disbursement id) ->
          Transfer.disbursement st' !! id = Transfer.disbursement st !! id)
    /\ (forall id,
          (forall e, In e exampleExceptions ->
                     autoResolvable DEFAULT_RECONCILIATION_CONFIG e ->
                     ~ namesRecord e repayment id) ->
          Transfer.repayment st' !! id = Transfer.repayment st !! id).
Proof.
  refine (proj2 (auto_resolution DEFAULT_RECONCILIATION_CONFIG 9500
                   exampleExceptions _ _ _ _)).
  - cbn. lia.
  - reflexivity.
  - intros e He _. vm_compute in He. destruct He as [<-|[]].
    split; [discriminate|]. eexists. reflexivity.
Defined.

(** Scenario: a local disbursement PENDING at 50 000, the provider
    COMPLETED at 50 000, not a dry run: one exception is found, it is
    auto-resolved, and the record is COMPLETED / AVAILABLE.  In a dry run
    the same exception stays open and the record stays PENDING. *)
Example auto_resolution_scenario :
  let st := Transfer.exampleStore Transfer.PENDING Transfer.AV_PENDING
                                  Transfer.ACTIVE in
  let '(st', commits, exceptions', autoResolved) :=
    autoResolveEligible DEFAULT_RECONCILIATION_CONFIG false 9500
                        exampleExceptions st in
  let '(st'', commits'', exceptions'', autoResolved'') :=
    autoResolveEligible DEFAULT_RECONCILIATION_CONFIG true 9500
                        exampleExceptions st in
  map type exampleExceptions = [transfer_status]
  /\ map severity exampleExceptions = [high]
  /\ map status exceptions' = [resolved]
  /\ map resolutionType autoResolved = [Some auto_corrected]
  /\ commits = [[Transfer.W_disbursement "disb-1"]]
  /\ Transfer.disb_status <$> Transfer.disbursement st' !! "disb-1"
     = Some Transfer.COMPLETED
  /\ Transfer.disb_availabilityState <$> Transfer.disbursement st' !! "disb-1"
     = Some Transfer.AV_AVAILABLE
  /\ Transfer.disb_completedAt <$> Transfer.disbursement st' !! "disb-1"
     = Some (Some 9500)
  /\ map status exceptions'' = [open]
  /\ autoResolved'' = []
  /\ st'' = st.
Proof. vm_compute. repeat split. Qed.

End ReconciliationProofs.

(** ** Moov webhook endpoint *)

Module WebhookProofs.
Import Common JS Webhook.

Section Gate.
Variable hmacSha256Hex : string -> string -> string.
Variable JSON_parse : string -> option Json.
Variable JSON_stringify : Json -> string.
Variable env : Env.

Local Abbreviation route :=
  (moovWebhookRoute hmacSha256Hex JSON_parse JSON_stringify env).
Local Abbreviation afterGate := (parseAndProcess JSON_parse JSON_stringify).





End Gate.


(** The example request: no signature headers, a secret configured, not
    a development deployment.  The event is dispatched to the transfer
    handler and completes the disbursement. *)
Example unsigned_webhook_is_processed :
  let st := Transfer.exampleStore Transfer.PENDING Transfer.AV_PENDING
                                  Transfer.PENDING_DISBURSEMENT in
  let out := moovWebhookRoute exampleHmac exampleParse exampleStringify
                              exampleEnv exampleUnsignedRequest 7000 st in
  out_steps out = [CallParseEvent; CallProcessEvent handleTransferEvent]
  /\ out_reply out = Ok tt
  /\ Transfer.disb_status <$> Transfer.disbursement (out_store out) !! "disb-1"
     = Some Transfer.COMPLETED
  /\ verifySignature exampleHmac exampleEnv (rawBody exampleUnsignedRequest)
                     "" "" = Ok false.
Proof. vm_compute. repeat split. Qed.

End WebhookProofs.

(* --------------------------------------------------------------------- *)
(** ** The ledger book: templates, balances and the trial balance *)

Module LedgerBookProofs.
Import Common Ledger LedgerBook LedgerProofs.

(** *** Sums *)

Lemma fold_left_sum {A} (f : A -> Z) (l : list A) (a : Z) :
  fold_left (fun sum x => sum + f x) l a
  = a + fold_left (fun sum x => sum + f x) l 0.
Proof.
  revert a. induction l as [|x l IH]; intros a; cbn; [lia|].
  rewrite (IH (a + f x)), (IH (0 + f x)). lia.
Qed.

Lemma totalDebits_cons (e : LedgerEntry) (l : list LedgerEntry) :
  totalDebits (e :: l) = debitCents e + totalDebits l.
Proof. unfold totalDebits. cbn. rewrite fold_left_sum. lia. Qed.

Lemma totalCredits_cons (e : LedgerEntry) (l : list LedgerEntry) :
  totalCredits (e :: l) = creditCents e + totalCredits l.
Proof. unfold totalCredits. cbn. rewrite fold_left_sum. lia. Qed.

Lemma totalDebits_app (l1 l2 : list LedgerEntry) :
  totalDebits (l1 ++ l2) = totalDebits l1 + totalDebits l2.
Proof.
  induction l1 as [|e l1 IH]; [reflexivity|].
  cbn [app]. rewrite !totalDebits_cons, IH. lia.
Qed.

Lemma totalCredits_app (l1 l2 : list LedgerEntry) :
  totalCredits (l1 ++ l2) = totalCredits l1 + totalCredits l2.
Proof.
  induction l1 as [|e l1 IH]; [reflexivity|].
  cbn [app]. rewrite !totalCredits_cons, IH. lia.
Qed.



Lemma debitsLessCredits_app (code : string) (l1 l2 : list LedgerEntry) :
  debitsLessCredits code (l1 ++ l2)
  = debitsLessCredits code l1 + debitsLessCredits code l2.
Proof.
  induction l1 as [|e l1 IH]; [reflexivity|].
  cbn [app debitsLessCredits fold_right].
  fold (debitsLessCredits code (l1 ++ l2)). fold (debitsLessCredits code l1).
  rewrite IH. destruct (bool_decide _); lia.
Qed.

Lemma debitsLessCredits_swap (code : string) (rows : list EntryRow) :
  debitsLessCredits code (map swapRow rows)
  = - debitsLessCredits code (map entryOfRow rows).
Proof.
  induction rows as [|r rows IH]; [reflexivity|].
  cbn [map debitsLessCredits fold_right].
  fold (debitsLessCredits code (map swapRow rows)).
  fold (debitsLessCredits code (map entryOfRow rows)). rewrite IH.
  cbn [swapRow entryOfRow accountCode debitCents creditCents].
  destruct (bool_decide _); lia.
Qed.


(** *** The two outcomes of [createJournal] *)

Lemma validateAccountCodes_unknown (st : Store) (codes : list string) (c : string) :
  In c codes -> ledgerAccount st !! c = None ->
  validateAccountCodes codes st
  = (st, Err (mkAppError INVALID_REQUEST "Unknown account codes")).
Proof.
  intros Hin Hnone. unfold validateAccountCodes. cbv zeta.
  assert (Hc : c ∈ filter (fun c => ledgerAccount st !! c = None) (remove_dups codes)).
  { apply list_elem_of_filter. split; [assumption|].
    apply elem_of_remove_dups. now apply list_elem_of_In. }
  destruct (filter _ _) as [|x l]; [inversion Hc|]. reflexivity.
Qed.

Lemma validateBalance_cases (entries : list LedgerEntry) :
  (validateBalance entries = Ok tt /\ ~ journalRefused entries)
  \/ (exists msg, validateBalance entries = Err (mkAppError INVALID_REQUEST msg)
                  /\ journalRefused entries).
Proof.
  unfold validateBalance.
  destruct (totalDebits entries =? totalCredits entries) eqn:E; cbn [negb].
  - apply Z.eqb_eq in E.
    assert (Hloop : (validateEachEntry entries = Ok tt
                     /\ forall e, In e entries -> ~ entryRefused e)
                    \/ (exists msg, validateEachEntry entries
                                    = Err (mkAppError INVALID_REQUEST msg)
                                    /\ exists e, In e entries /\ entryRefused e)).
    { clear E. induction entries as [|e rest IH]; [left; split; [reflexivity|intros ? []]|].
      cbn [validateEachEntry].
      pose proof (entry_check_refused e) as He.
      destruct ((debitCents e >? 0) && (creditCents e >? 0)) eqn:E1.
      { right. eexists. split; [reflexivity|]. exists e. split; [now left|].
        apply He. reflexivity. }
      destruct ((debitCents e =? 0) && (creditCents e =? 0)) eqn:E2.
      { right. eexists. split; [reflexivity|]. exists e. split; [now left|].
        apply He. reflexivity. }
      destruct ((debitCents e <? 0) || (creditCents e <? 0)) eqn:E3.
      { right. eexists. split; [reflexivity|]. exists e. split; [now left|].
        apply He. reflexivity. }
      destruct IH as [[Hok Hall]|(msg & Hmsg & x & Hx & Hbad)].
      - left. split; [assumption|]. intros x [<-|Hx]; [|now apply Hall].
        rewrite He. cbn. discriminate.
      - right. exists msg. split; [assumption|]. exists x. split; [now right|assumption]. }
    destruct Hloop as [[Hok Hall]|(msg & Hmsg & Hbad)].
    + left. split; [assumption|]. intros [(e & Hin & Hbad)|Hne]; [|contradiction].
      exact (Hall e Hin Hbad).
    + right. exists msg. split; [assumption|]. now left.
  - right. eexists. split; [reflexivity|]. right. now apply Z.eqb_neq.
Qed.

Lemma allAccountsExist_dec (st : Store) (entries : list LedgerEntry) :
  allAccountsExist st entries
  \/ exists e, In e entries /\ ledgerAccount st !! accountCode e = None.
Proof.
  induction entries as [|e rest [IH|(x & Hx & Hnone)]].
  - left. intros ? [].
  - destruct (ledgerAccount st !! accountCode e) eqn:E.
    + left. intros x [<-|Hx]; [rewrite E; eauto|now apply IH].
    + right. exists e. split; [now left|assumption].
  - right. exists x. split; [now right|assumption].
Qed.

(** [createJournal] either throws INVALID_REQUEST and leaves the store as
    it was, or posts the journal; it posts exactly when the entries pass
    the validation and their accounts exist. *)
Lemma createJournal_cases (input : CreateJournalInput) (st : Store) :
  (exists msg, createJournal input st = (st, Err (mkAppError INVALID_REQUEST msg))
               /\ (journalRefused (in_entries input)
                   \/ ~ allAccountsExist st (in_entries input)))
  \/ (exists st1 j, createJournal input st = (st1, Ok j)
                    /\ ~ journalRefused (in_entries input)
                    /\ allAccountsExist st (in_entries input)).
Proof.
  destruct (validateBalance_cases (in_entries input))
    as [[Hok Hfine]|(msg & Hmsg & Hbad)].
  - destruct (allAccountsExist_dec st (in_entries input))
      as [Hknown|(e & He & Hnone)].
    + right.
      unfold createJournal. rewrite ledger_bind_run. unfold throw. rewrite Hok.
      rewrite ledger_bind_run, validateAccountCodes_known.
      * unfold transaction, ledgerJournal_create. rewrite ledger_bind_run.
        set (st' := mkStore _ (<[_ := _]> _) _).
        destruct (postEntries_run (freshJournalId st) (in_entries input) st')
          as (rows & Hrun & _).
        rewrite ledger_bind_run, Hrun. cbn. eauto.
      * intros c (e & <- & He)%in_map_iff. now apply Hknown.
    + left. eexists. split.
      * unfold createJournal. rewrite ledger_bind_run. unfold throw. rewrite Hok.
        rewrite ledger_bind_run.
        rewrite (validateAccountCodes_unknown st _ (accountCode e));
          [reflexivity| now apply in_map | assumption].
      * right. intros Hall. destruct (Hall e He) as [t Ht]. congruence.
  - left. exists msg. split; [|now left].
    unfold createJournal. rewrite ledger_bind_run. unfold throw. now rewrite Hmsg.
Qed.


(** *** The three outcomes of [reverseJournal] *)

Lemma reverseJournal_cases (st : Store) (journalId : nat) (reason : string)
      (createdBy : option string) :
  (ledgerJournal st !! journalId = None
   /\ reverseJournal journalId reason createdBy st
      = (st, Err (mkAppError NOT_FOUND "Ledger journal")))
  \/ (exists original rid,
        ledgerJournal st !! journalId = Some original
        /\ j_reversedByJournalId original = Some rid
        /\ reverseJournal journalId reason createdBy st
           = (st, Err (mkAppError INVALID_STATE "Journal has already been reversed")))
  \/ (exists original st2 r,
        ledgerJournal st !! journalId = Some original
        /\ j_reversedByJournalId original = None
        /\ reverseJournal journalId reason createdBy st = (st2, Ok r)
        /\ jw_id r = freshJournalId st
        /\ ledgerAccount st2 = ledgerAccount st
        /\ ledgerJournal st2
           = <[journalId := markReversedBy (freshJournalId st) original]>
               (<[freshJournalId st :=
                    mkJournalRow (j_contractId original) REVERSAL
                      ("Reversal of " +:+ pretty journalId +:+ ": " +:+ reason)
                      true (Some journalId) None (Some reason) createdBy]>
                  (ledgerJournal st))
        /\ ledgerEntry st2 = ledgerEntry st ++ jw_entries r
        /\ map entryOfRow (jw_entries r)
           = map swapRow (entriesOfJournal st journalId)
        /\ Forall (fun row => row_journalId row = freshJournalId st) (jw_entries r)
        /\ forall code,
             getAccountBalance st2 code
             = getAccountBalance st code
               - netEffect (ledgerAccount st) code
                   (map entryOfRow (entriesOfJournal st journalId))).
Proof.
  destruct (ledgerJournal st !! journalId) as [original|] eqn:Hfound.
  2:{ left. split; [reflexivity|]. unfold reverseJournal, query. db_steps.
      now rewrite Hfound. }
  right. destruct (j_reversedByJournalId original) as [rid|] eqn:Hfree.
  { left. exists original, rid. split; [reflexivity|]. split; [assumption|].
    unfold reverseJournal, query. db_steps. now rewrite Hfound, Hfree. }
  right. exists original.
  unfold reverseJournal, query. db_steps.
  rewrite Hfound, Hfree.
  unfold transaction, ledgerJournal_create. db_steps.
  set (rid := freshJournalId st).
  set (st' := mkStore _ (<[rid := _]> _) _).
  destruct (postEntries_run rid (map swapRow (entriesOfJournal st journalId)) st')
    as (rows & Hrun & Hmap & Hids & Hbal).
  rewrite Hrun. db_steps.
  assert (Hne : rid <> journalId).
  { intros Heq. pose proof (freshJournalId_unused st) as Hnone.
    fold rid in Hnone. rewrite Heq, Hfound in Hnone. discriminate. }
  unfold ledgerJournal_update. subst st'.
  cbn [ledgerAccount ledgerJournal ledgerEntry] in *.
  rewrite lookup_insert_ne, Hfound by assumption.
  unfold mret, Db_ret.
  do 2 eexists. split; [reflexivity|]. split; [reflexivity|].
  split; [reflexivity|].
  cbn [jw_id jw_entries ledgerAccount ledgerEntry ledgerJournal].
  repeat (split; [first [reflexivity | assumption]|]).
  intros code. unfold getAccountBalance.
  unfold getAccountBalanceInternal in *. cbn [ledgerEntry] in *.
  rewrite Hbal, netEffect_swap. lia.
Qed.

(** *** Rows of a journal after a posting *)

Lemma filter_all {A} (P : A -> Prop) `{forall x, Decision (P x)} (l : list A) :
  Forall P l -> filter P l = l.
Proof.
  induction 1 as [|x l Hx _ IH]; [reflexivity|].
  rewrite filter_cons. destruct (decide (P x)); [now f_equal|contradiction].
Qed.

Lemma Forall_In {A} (P : A -> Prop) (l : list A) (x : A) :
  Forall P l -> In x l -> P x.
Proof. intros Hall Hx. rewrite Forall_forall in Hall. now apply Hall, list_elem_of_In. Qed.

Lemma entriesOfJournal_post (st st1 : Store) (id : nat) (rows : list EntryRow) :
  entriesHaveJournals st ->
  ledgerJournal st !! id = None ->
  ledgerEntry st1 = ledgerEntry st ++ rows ->
  Forall (fun r => row_journalId r = id) rows ->
  forall id', entriesOfJournal st1 id'
              = if decide (id' = id) then rows else entriesOfJournal st id'.
Proof.
  intros Hwf Hnew Hrows Hids id'.
  destruct (decide (id' = id)) as [->|Hne].
  - now apply (entriesOfJournal_new st).
  - unfold entriesOfJournal. rewrite Hrows, filter_app.
    rewrite (filter_none _ rows); [apply app_nil_r|].
    intros r Hr Heq. apply Hne. rewrite <- Heq.
    exact (Forall_In _ _ _ Hids Hr).
Qed.








(** *** Ledgers without entries *)



(** *** Running balances *)







(** X4.  On entries whose debits, and whose credits, add up to a safe
    integer, the validation of the code passes exactly when no entry is
    refused and the debits equal the credits, and [createJournal] posts
    the journal exactly when the entries pass it and every account code
    exists; in every other case it throws INVALID_REQUEST and leaves the
    store as it was.  In particular a journal without entries is posted. *)
Theorem create_journal_outcome (st : Store) (input : CreateJournalInput) :
  safeAmounts (in_entries input) ->
  (Doubles.validateBalance (in_entries input) = Ok tt
   <-> ~ journalRefused (in_entries input))
  /\ (isOk (createJournal input st).2 = true
      <-> ~ journalRefused (in_entries input)
          /\ allAccountsExist st (in_entries input))
  /\ (isOk (createJournal input st).2 = false
      -> failsWith INVALID_REQUEST (createJournal input st).2
         /\ (createJournal input st).1 = st)
  /\ (in_entries input = [] -> isOk (createJournal input st).2 = true).
Proof.
  intros Hsafe. split.
  { rewrite (doubles_validateBalance_safe _ Hsafe).
    destruct (validateBalance_cases (in_entries input))
      as [[Hok Hfine]|(msg & Hmsg & Hbad)].
    - split; [intros _; exact Hfine | intros _; exact Hok].
    - rewrite Hmsg. split; [discriminate | contradiction]. }
  destruct (createJournal_cases input st)
    as [(msg & Hrun & Hwhy)|(st1 & j & Hrun & Hfine & Hknown)];
    rewrite Hrun; cbn [fst snd isOk].
  - split; [|split].
    + split; [discriminate|]. intros [Hfine Hknown]. destruct Hwhy; contradiction.
    + intros _. split; [eexists|]; reflexivity.
    + intros Hnil. exfalso. rewrite Hnil in Hwhy.
      destruct Hwhy as [[(e & [] & _)|Hne]|Hacc].
      * now apply Hne.
      * apply Hacc. intros e [].
  - split; [|split]; [tauto | discriminate | reflexivity].
Qed.

(** A check of [entriesHaveJournals] that runs. *)
Lemma entriesHaveJournals_check (st : Store) :
  forallb (fun r => bool_decide (is_Some (ledgerJournal st !! row_journalId r)))
          (ledgerEntry st) = true ->
  entriesHaveJournals st.
Proof.
  intros Hall r Hr. rewrite forallb_forall in Hall.
  apply Hall in Hr. now apply bool_decide_eq_true in Hr.
Qed.

(** *** Sums over lists *)

Lemma fold_left_sumOver {A} (f : A -> Z) (l : list A) :
  fold_left (fun sum x => sum + f x) l 0 = sumOver f l.
Proof.
  induction l as [|x l IH]; [reflexivity|].
  cbn [fold_left sumOver fold_right]. rewrite fold_left_sum, IH.
  unfold sumOver. lia.
Qed.




Lemma sumOver_app {A} (f : A -> Z) (l1 l2 : list A) :
  sumOver f (l1 ++ l2) = sumOver f l1 + sumOver f l2.
Proof.
  induction l1 as [|x l1 IH]; [reflexivity|].
  cbn [app sumOver fold_right]. fold (sumOver f (l1 ++ l2)). fold (sumOver f l1).
  rewrite IH. lia.
Qed.




(** *** The trial balance *)













(** *** Acceptance of the templates *)

Lemma journal_accepted_iff (entries : list LedgerEntry) :
  ~ journalRefused entries
  <-> totalDebits entries = totalCredits entries
      /\ forall e, In e entries -> ~ entryRefused e.
Proof.
  unfold journalRefused. split.
  - intros Hno. split.
    + destruct (Z.eq_dec (totalDebits entries) (totalCredits entries)); [assumption|].
      destruct Hno. now right.
    + intros e He Hbad. apply Hno. left. eauto.
  - intros [Heq Hall] [(e & He & Hbad)|Hne]; [exact (Hall e He Hbad)|contradiction].
Qed.

Lemma debit_entry_refused (code : string) (amount : Z) :
  entryRefused (mkLedgerEntry code amount 0) <-> amount <= 0.
Proof. unfold entryRefused. cbn. lia. Qed.

Lemma credit_entry_refused (code : string) (amount : Z) :
  entryRefused (mkLedgerEntry code 0 amount) <-> amount <= 0.
Proof. unfold entryRefused. cbn. lia. Qed.

Lemma positivePart_spec (x : Z) :
  (0 < x /\ positivePart x = x /\ (x >? 0) = true)
  \/ (x <= 0 /\ positivePart x = 0 /\ (x >? 0) = false).
Proof.
  unfold positivePart. destruct (x >? 0) eqn:E; [left|right].
  - apply Z.gtb_lt in E. auto.
  - rewrite Z.gtb_ltb in E. apply Z.ltb_ge in E. auto.
Qed.

(** A template call posts exactly when its entries pass the validation,
    on a seeded chart. *)
Lemma template_outcome (st : Store) (input : CreateJournalInput) :
  allAccountsExist st (in_entries input) ->
  (isOk (createJournal input st).2 = true <-> ~ journalRefused (in_entries input))
  /\ (isOk (createJournal input st).2 = false ->
      failsWith INVALID_REQUEST (createJournal input st).2
      /\ (createJournal input st).1 = st).
Proof.
  intros Hknown.
  destruct (createJournal_cases input st)
    as [(msg & Hrun & Hwhy)|(st1 & j & Hrun & Hfine & _)];
    rewrite Hrun; cbn [fst snd isOk].
  - split.
    + split; [discriminate|]. intros Hfine. destruct Hwhy; contradiction.
    + intros _. split; [eexists|]; reflexivity.
  - split; [tauto|discriminate].
Qed.

Ltac chart_account :=
  match goal with
  | Hseed : chartSeeded _ |- is_Some _ => apply Hseed; vm_compute; eauto
  end.

Lemma repaymentEntries_known (st : Store) (input : RepaymentInput) :
  chartSeeded st -> allAccountsExist st (repaymentEntries input).
Proof.
  intros Hseed e. unfold repaymentEntries.
  destruct (rp_feesCents input >? 0), (rp_interestCents input >? 0),
    (rp_principalCents input >? 0); cbn [app In];
    intuition (subst; cbn [accountCode]; chart_account).
Qed.

Lemma repaymentEntries_accepted (input : RepaymentInput) :
  ~ journalRefused (repaymentEntries input)
  <-> 0 < rp_totalCents input
      /\ rp_totalCents input
         = positivePart (rp_feesCents input)
           + positivePart (rp_interestCents input)
           + positivePart (rp_principalCents input).
Proof.
  rewrite journal_accepted_iff. unfold repaymentEntries.
  destruct (positivePart_spec (rp_feesCents input)) as [(Hf & -> & ->)|(Hf & -> & ->)];
  destruct (positivePart_spec (rp_interestCents input)) as [(Hi & -> & ->)|(Hi & -> & ->)];
  destruct (positivePart_spec (rp_principalCents input)) as [(Hp & -> & ->)|(Hp & -> & ->)];
  cbn [app]; rewrite ?totalDebits_cons, ?totalCredits_cons;
  change (totalDebits []) with 0; change (totalCredits []) with 0;
  cbn [debitCents creditCents In];
  (split;
   [intros [Hsum Hall]; split; [|lia];
    assert (Hcash : ~ entryRefused
                      (mkLedgerEntry AccountCodes.CASH_OPERATING (rp_totalCents input) 0))
      by (apply Hall; auto);
    rewrite debit_entry_refused in Hcash; lia
   |intros [Hpos Hsum]; split; [lia|];
    intros e He;
    repeat (destruct He as [<-|He];
            [rewrite ?debit_entry_refused, ?credit_entry_refused; lia|]);
    destruct He]).
Qed.


Lemma writeOffEntries_known (st : Store) (input : WriteOffInput) :
  chartSeeded st -> allAccountsExist st (writeOffEntries input).
Proof.
  intros Hseed e. unfold writeOffEntries. cbv zeta.
  destruct (wo_principalCents input >? 0), (wo_interestCents input >? 0),
    (wo_feesCents input >? 0); cbn [app In];
    intuition (subst; cbn [accountCode]; chart_account).
Qed.

Lemma writeOffEntries_accepted (input : WriteOffInput) :
  ~ journalRefused (writeOffEntries input)
  <-> 0 <= wo_principalCents input /\ 0 <= wo_interestCents input
      /\ 0 <= wo_feesCents input
      /\ 0 < wo_principalCents input + wo_interestCents input + wo_feesCents input.
Proof.
  rewrite journal_accepted_iff. unfold writeOffEntries. cbv zeta.
  destruct (positivePart_spec (wo_principalCents input)) as [(Hp & _ & ->)|(Hp & _ & ->)];
  destruct (positivePart_spec (wo_interestCents input)) as [(Hi & _ & ->)|(Hi & _ & ->)];
  destruct (positivePart_spec (wo_feesCents input)) as [(Hf & _ & ->)|(Hf & _ & ->)];
  cbn [app]; rewrite ?totalDebits_cons, ?totalCredits_cons;
  change (totalDebits []) with 0; change (totalCredits []) with 0;
  cbn [debitCents creditCents In];
  (split;
   [intros [Hsum Hall];
    assert (Hdebt : ~ entryRefused
                      (mkLedgerEntry AccountCodes.BAD_DEBT
                         (wo_principalCents input + wo_interestCents input
                          + wo_feesCents input) 0))
      by (apply Hall; auto);
    rewrite debit_entry_refused in Hdebt; lia
   |intros (Hp' & Hi' & Hf' & Hpos); split; [lia|];
    intros e He;
    repeat (destruct He as [<-|He];
            [rewrite ?debit_entry_refused, ?credit_entry_refused; lia|]);
    destruct He]).
Qed.

(** A debit of [amount] on one account and a credit of [amount] on
    another pass the validation exactly when the amount is positive. *)
Lemma pair_accepted (debited credited : string) (amount : Z) :
  ~ journalRefused [ mkLedgerEntry debited amount 0;
                     mkLedgerEntry credited 0 amount ]
  <-> 0 < amount.
Proof.
  rewrite journal_accepted_iff, !totalDebits_cons, !totalCredits_cons.
  change (totalDebits []) with 0; change (totalCredits []) with 0.
  cbn [debitCents creditCents In]. split.
  - intros [_ Hall].
    assert (Hd : ~ entryRefused (mkLedgerEntry debited amount 0)) by (apply Hall; auto).
    rewrite debit_entry_refused in Hd. lia.
  - intros Hpos. split; [lia|]. intros e [<-|[<-|[]]];
      rewrite ?debit_entry_refused, ?credit_entry_refused; lia.
Qed.

Lemma pair_known (st : Store) (debited credited : string) (amount : Z) :
  chartSeeded st ->
  is_Some (chartOfAccounts !! debited) -> is_Some (chartOfAccounts !! credited) ->
  allAccountsExist st [ mkLedgerEntry debited amount 0;
                        mkLedgerEntry credited 0 amount ].
Proof.
  intros Hseed Hd Hc e [<-|[<-|[]]]; cbn [accountCode]; now apply Hseed.
Qed.

(** X5.  On a seeded chart, for entries within the safe integers (where
    the sums the code computes are the exact sums), [recordRepayment]
    posts exactly when the total is positive and equals the sum of the
    positive components among fees, interest and principal (a component
    that is zero or negative is left out of the journal); otherwise it
    throws INVALID_REQUEST and writes nothing. *)
Theorem record_repayment_outcome (st : Store) (input : RepaymentInput) :
  chartSeeded st ->
  safeAmounts (repaymentEntries input) ->
  Doubles.validateBalance (repaymentEntries input)
  = validateBalance (repaymentEntries input)
  /\ (isOk (recordRepayment input st).2 = true
      <-> 0 < rp_totalCents input
          /\ rp_totalCents input
             = positivePart (rp_feesCents input)
               + positivePart (rp_interestCents input)
               + positivePart (rp_principalCents input))
  /\ (isOk (recordRepayment input st).2 = false ->
      failsWith INVALID_REQUEST (recordRepayment input st).2
      /\ (recordRepayment input st).1 = st).
Proof.
  intros Hseed Hsafe. split; [now apply doubles_validateBalance_safe|].
  rewrite <- repaymentEntries_accepted.
  apply (template_outcome st
           (mkCreateJournalInput (Some (rp_contractId input)) REPAYMENT "Repayment"
              (repaymentEntries input) (rp_createdBy input))).
  now apply repaymentEntries_known.
Qed.

(** Components within the safe integers give entries within them. *)
Lemma writeOffEntries_safe (input : WriteOffInput) :
  safeSum [ wo_principalCents input; wo_interestCents input; wo_feesCents input ] ->
  safeAmounts (writeOffEntries input).
Proof.
  unfold safeSum, safeAmounts, writeOffEntries, MAX_SAFE_INTEGER.
  cbn [fold_right]. intros Hsafe.
  destruct (wo_principalCents input >? 0) eqn:Hp;
    destruct (wo_interestCents input >? 0) eqn:Hi;
    destruct (wo_feesCents input >? 0) eqn:Hf;
    cbn [app map fold_right debitCents creditCents]; split;
    unfold safeSum, MAX_SAFE_INTEGER; cbn [fold_right]; lia.
Qed.

(** X6.  On a seeded chart, for components within the safe integers (where
    the total and the sums the code computes are exact), [recordWriteOff]
    posts exactly when no component is negative and their sum is positive;
    otherwise it throws INVALID_REQUEST and writes nothing. *)
Theorem record_write_off_outcome (st : Store) (input : WriteOffInput) :
  chartSeeded st ->
  safeSum [ wo_principalCents input; wo_interestCents input; wo_feesCents input ] ->
  totalWriteOffNumber input
  = Doubles.Finite (wo_principalCents input + wo_interestCents input
                    + wo_feesCents input)
  /\ Doubles.validateBalance (writeOffEntries input)
     = validateBalance (writeOffEntries input)
  /\ (isOk (recordWriteOff input st).2 = true
      <-> 0 <= wo_principalCents input /\ 0 <= wo_interestCents input
          /\ 0 <= wo_feesCents input
          /\ 0 < wo_principalCents input + wo_interestCents input
                 + wo_feesCents input)
  /\ (isOk (recordWriteOff input st).2 = false ->
      failsWith INVALID_REQUEST (recordWriteOff input st).2
      /\ (recordWriteOff input st).1 = st).
Proof.
  intros Hseed Hsafe. split.
  { unfold totalWriteOffNumber. cbn [Doubles.add].
    unfold safeSum in Hsafe. cbn [fold_right] in Hsafe.
    rewrite roundToDouble_safe by lia. cbn [Doubles.add].
    now rewrite roundToDouble_safe by lia. }
  split; [now apply doubles_validateBalance_safe, writeOffEntries_safe|].
  rewrite <- writeOffEntries_accepted.
  apply (template_outcome st
           (mkCreateJournalInput (Some (wo_contractId input)) ADJUSTMENT
              ("Write-off: " +:+ wo_reason input)
              (writeOffEntries input) (wo_createdBy input))).
  now apply writeOffEntries_known.
Qed.

Lemma pair_template_outcome (st : Store) (input : CreateJournalInput)
      (debited credited : string) (amount : Z) :
  chartSeeded st ->
  is_Some (chartOfAccounts !! debited) -> is_Some (chartOfAccounts !! credited) ->
  in_entries input = [ mkLedgerEntry debited amount 0;
                       mkLedgerEntry credited 0 amount ] ->
  isOk (createJournal input st).2 = true <-> 0 < amount.
Proof.
  intros Hseed Hd Hc Hentries.
  rewrite <- (pair_accepted debited credited amount), <- Hentries.
  apply template_outcome. rewrite Hentries. now apply pair_known.
Qed.

(** X7.  On a seeded chart the four two-line templates (fee assessment,
    interest accrual, prefund deposit, prefund withdrawal) post exactly
    when the amount is positive. *)
Theorem two_line_templates_outcome (st : Store) :
  chartSeeded st ->
  (forall input, isOk (recordFeeAssessment input st).2 = true
                 <-> 0 < fa_amountCents input)
  /\ (forall input, isOk (recordInterestAccrual input st).2 = true
                    <-> 0 < ia_amountCents input)
  /\ (forall customerId amountCents createdBy,
        isOk (recordPrefundDeposit customerId amountCents createdBy st).2 = true
        <-> 0 < amountCents)
  /\ (forall customerId amountCents createdBy,
        isOk (recordPrefundWithdrawal customerId amountCents createdBy st).2 = true
        <-> 0 < amountCents).
Proof.
  intros Hseed. split; [|split; [|split]]; intros.
  - apply (pair_template_outcome st _ AccountCodes.LOANS_FEES
             (feeAccountMap (fa_feeType input))); try assumption;
      [| destruct (fa_feeType input) | reflexivity]; vm_compute; eauto.
  - apply (pair_template_outcome st _ AccountCodes.LOANS_INTEREST
             AccountCodes.INTEREST_INCOME); try assumption;
      [| | reflexivity]; vm_compute; eauto.
  - apply (pair_template_outcome st _ AccountCodes.CASH_PREFUND
             AccountCodes.PREFUND_BALANCES); try assumption;
      [| | reflexivity]; vm_compute; eauto.
  - apply (pair_template_outcome st _ AccountCodes.PREFUND_BALANCES
             AccountCodes.CASH_PREFUND); try assumption;
      [| | reflexivity]; vm_compute; eauto.
Qed.

(** *** Balances scoped to a contract *)

Lemma contractBalance_sum (st : Store) (contractId accountCode : string) :
  getContractAccountBalance st contractId accountCode
  = sumOver (fun r => row_debitCents r - row_creditCents r)
      (List.filter (ofContract st contractId accountCode) (ledgerEntry st)).
Proof.
  unfold getContractAccountBalance. cbv zeta. rewrite !fold_left_sumOver.
  induction (List.filter _ _) as [|r l IH]; [reflexivity|].
  unfold sumOver in *. cbn [fold_right]. lia.
Qed.

Lemma new_rows_of_contract (st1 : Store) (id : nat) (jr : JournalRow)
      (contractId accountCode : string) (rows : list EntryRow) :
  ledgerJournal st1 !! id = Some jr ->
  Forall (fun r => row_journalId r = id) rows ->
  sumOver (fun r => row_debitCents r - row_creditCents r)
    (List.filter (ofContract st1 contractId accountCode) rows)
  = if bool_decide (j_contractId jr = Some contractId)
    then debitsLessCredits accountCode (map entryOfRow rows) else 0.
Proof.
  intros Hjr. induction 1 as [|r rows Hr _ IH].
  - cbn. now destruct (bool_decide _).
  - cbn [List.filter map debitsLessCredits fold_right].
    fold (debitsLessCredits accountCode (map entryOfRow rows)).
    unfold ofContract at 1. rewrite Hr, Hjr.
    cbn [entryOfRow Ledger.accountCode debitCents creditCents].
    destruct (bool_decide (row_accountCode r = accountCode));
      destruct (bool_decide (j_contractId jr = Some contractId));
      cbn [andb sumOver fold_right]; fold (sumOver (fun r => row_debitCents r - row_creditCents r)
             (List.filter (ofContract st1 contractId accountCode) rows));
      rewrite IH; lia.
Qed.

(** The rows appended under a new journal move the balance of an account
    scoped to a contract by their debits less credits, when the journal is
    of that contract. *)
Lemma contractBalance_post (st st1 : Store) (id : nat) (jr : JournalRow)
      (rows : list EntryRow) :
  entriesHaveJournals st ->
  ledgerJournal st !! id = None ->
  ledgerEntry st1 = ledgerEntry st ++ rows ->
  Forall (fun r => row_journalId r = id) rows ->
  ledgerJournal st1 !! id = Some jr ->
  (forall k, k <> id ->
             j_contractId <$> (ledgerJournal st1 !! k)
             = j_contractId <$> (ledgerJournal st !! k)) ->
  forall contractId accountCode,
    getContractAccountBalance st1 contractId accountCode
    = getContractAccountBalance st contractId accountCode
      + if bool_decide (j_contractId jr = Some contractId)
        then debitsLessCredits accountCode (map entryOfRow rows) else 0.
Proof.
  intros Hwf Hnew Hrows Hids Hjr Hkeep contractId accountCode.
  rewrite !contractBalance_sum, Hrows, List.filter_app, sumOver_app.
  rewrite (new_rows_of_contract st1 id jr contractId accountCode rows Hjr Hids).
  f_equal. f_equal. apply List.filter_ext_in. intros r Hr.
  unfold ofContract. f_equal.
  assert (Hne : row_journalId r <> id).
  { intros Heq. destruct (Hwf r Hr) as [x Hx]. rewrite Heq, Hnew in Hx.
    discriminate. }
  specialize (Hkeep _ Hne).
  destruct (ledgerJournal st1 !! row_journalId r),
    (ledgerJournal st !! row_journalId r); cbn in Hkeep; try discriminate;
    [|reflexivity].
  injection Hkeep as ->. reflexivity.
Qed.

Lemma createJournal_contractBalance (st st1 : Store) (input : CreateJournalInput)
      (j : JournalWithEntries) :
  entriesHaveJournals st ->
  createJournal input st = (st1, Ok j) ->
  forall contractId accountCode,
    getContractAccountBalance st1 contractId accountCode
    = getContractAccountBalance st contractId accountCode
      + if bool_decide (in_contractId input = Some contractId)
        then debitsLessCredits accountCode (in_entries input) else 0.
Proof.
  intros Hwf Hrun contractId accountCode.
  destruct (createJournal_ok_inv _ _ _ _ Hrun)
    as (Hid & Hacc & Hjournals & Hrows & Hmap & Hids & _).
  rewrite (contractBalance_post st st1 (freshJournalId st)
             (mkJournalRow (in_contractId input) (in_type input)
                (in_description input) false None None None (in_createdBy input))
             (jw_entries j)); try assumption.
  - now rewrite Hmap.
  - apply freshJournalId_unused.
  - rewrite Hjournals. apply lookup_insert_eq.
  - intros k Hk. rewrite Hjournals, lookup_insert_ne by congruence. reflexivity.
Qed.

(** X8.  A posted journal moves the balance of an account scoped to a
    contract ([getContractAccountBalance]) by the debits less the credits of
    its entries on that account when the journal carries that contract, and
    leaves the balances of every other contract as they were. *)
Theorem create_journal_contract_balance (st st1 : Store)
        (input : CreateJournalInput) (j : JournalWithEntries) :
  entriesHaveJournals st ->
  createJournal input st = (st1, Ok j) ->
  forall contractId accountCode,
    getContractAccountBalance st1 contractId accountCode
    = getContractAccountBalance st contractId accountCode
      + if bool_decide (in_contractId input = Some contractId)
        then debitsLessCredits accountCode (in_entries input) else 0.
Proof. apply createJournal_contractBalance. Qed.

Lemma loanBalances_post (st st1 : Store) (input : CreateJournalInput)
      (j : JournalWithEntries) (contractId : string) :
  entriesHaveJournals st ->
  createJournal input st = (st1, Ok j) ->
  getLoanBalances st1 contractId
  = if bool_decide (in_contractId input = Some contractId)
    then adjustLoanBalances (getLoanBalances st contractId)
           (debitsLessCredits AccountCodes.LOANS_PRINCIPAL (in_entries input))
           (debitsLessCredits AccountCodes.LOANS_INTEREST (in_entries input))
           (debitsLessCredits AccountCodes.LOANS_FEES (in_entries input))
    else getLoanBalances st contractId.
Proof.
  intros Hwf Hrun. unfold getLoanBalances, adjustLoanBalances. cbv zeta.
  rewrite !(createJournal_contractBalance st st1 input j Hwf Hrun).
  destruct (bool_decide _); cbn [principalBalance interestBalance feesBalance totalBalance];
    f_equal; lia.
Qed.


(** *** The templates and the loan balances *)

Ltac decide_codes :=
  repeat (case_bool_decide;
          [ try (exfalso; match goal with H : @eq string _ _ |- _ =>
                                            vm_compute in H; discriminate H end)
          | try (exfalso; match goal with H : ~ @eq string _ _ |- _ =>
                                            apply H; reflexivity end) ]).

Lemma repayment_effect (input : RepaymentInput) :
  debitsLessCredits AccountCodes.LOANS_PRINCIPAL (repaymentEntries input)
  = - positivePart (rp_principalCents input)
  /\ debitsLessCredits AccountCodes.LOANS_INTEREST (repaymentEntries input)
     = - positivePart (rp_interestCents input)
  /\ debitsLessCredits AccountCodes.LOANS_FEES (repaymentEntries input)
     = - positivePart (rp_feesCents input).
Proof.
  unfold repaymentEntries.
  destruct (positivePart_spec (rp_feesCents input)) as [(? & -> & ->)|(? & -> & ->)];
  destruct (positivePart_spec (rp_interestCents input)) as [(? & -> & ->)|(? & -> & ->)];
  destruct (positivePart_spec (rp_principalCents input)) as [(? & -> & ->)|(? & -> & ->)];
  cbn [app debitsLessCredits fold_right accountCode debitCents creditCents];
  decide_codes; repeat split; lia.
Qed.

Lemma writeOff_effect (input : WriteOffInput) :
  debitsLessCredits AccountCodes.LOANS_PRINCIPAL (writeOffEntries input)
  = - positivePart (wo_principalCents input)
  /\ debitsLessCredits AccountCodes.LOANS_INTEREST (writeOffEntries input)
     = - positivePart (wo_interestCents input)
  /\ debitsLessCredits AccountCodes.LOANS_FEES (writeOffEntries input)
     = - positivePart (wo_feesCents input).
Proof.
  unfold writeOffEntries. cbv zeta.
  destruct (positivePart_spec (wo_feesCents input)) as [(? & -> & ->)|(? & -> & ->)];
  destruct (positivePart_spec (wo_interestCents input)) as [(? & -> & ->)|(? & -> & ->)];
  destruct (positivePart_spec (wo_principalCents input)) as [(? & -> & ->)|(? & -> & ->)];
  cbn [app debitsLessCredits fold_right accountCode debitCents creditCents];
  decide_codes; repeat split; lia.
Qed.

Lemma disbursement_effect (input : DisbursementInput) :
  debitsLessCredits AccountCodes.LOANS_PRINCIPAL (disbursementEntries input)
  = d_principalCents input
  /\ debitsLessCredits AccountCodes.LOANS_INTEREST (disbursementEntries input) = 0
  /\ debitsLessCredits AccountCodes.LOANS_FEES (disbursementEntries input) = 0.
Proof.
  unfold disbursementEntries.
  destruct (d_fromPrefund input), (d_expressFeeCents input >? 0);
    cbn [app debitsLessCredits fold_right accountCode debitCents creditCents];
    decide_codes; repeat split; lia.
Qed.

Lemma feeAssessment_effect (input : FeeAssessmentInput) :
  debitsLessCredits AccountCodes.LOANS_PRINCIPAL (feeAssessmentEntries input) = 0
  /\ debitsLessCredits AccountCodes.LOANS_INTEREST (feeAssessmentEntries input) = 0
  /\ debitsLessCredits AccountCodes.LOANS_FEES (feeAssessmentEntries input)
     = fa_amountCents input.
Proof.
  unfold feeAssessmentEntries. destruct (fa_feeType input);
    cbn [app debitsLessCredits fold_right accountCode debitCents creditCents
         feeAccountMap];
    decide_codes; repeat split; lia.
Qed.

Lemma interestAccrual_effect (input : InterestAccrualInput) :
  debitsLessCredits AccountCodes.LOANS_PRINCIPAL (interestAccrualEntries input) = 0
  /\ debitsLessCredits AccountCodes.LOANS_INTEREST (interestAccrualEntries input)
     = ia_amountCents input
  /\ debitsLessCredits AccountCodes.LOANS_FEES (interestAccrualEntries input) = 0.
Proof.
  unfold interestAccrualEntries.
  cbn [app debitsLessCredits fold_right accountCode debitCents creditCents].
  decide_codes; repeat split; lia.
Qed.

Lemma loanBalances_template (st st1 : Store) (input : CreateJournalInput)
      (j : JournalWithEntries) (owner : string) (principal interest fees : Z) :
  entriesHaveJournals st ->
  createJournal input st = (st1, Ok j) ->
  in_contractId input = Some owner ->
  debitsLessCredits AccountCodes.LOANS_PRINCIPAL (in_entries input) = principal
  /\ debitsLessCredits AccountCodes.LOANS_INTEREST (in_entries input) = interest
  /\ debitsLessCredits AccountCodes.LOANS_FEES (in_entries input) = fees ->
  forall contractId,
    getLoanBalances st1 contractId
    = if bool_decide (contractId = owner)
      then adjustLoanBalances (getLoanBalances st contractId) principal interest fees
      else getLoanBalances st contractId.
Proof.
  intros Hwf Hrun Howner (<- & <- & <-) contractId.
  rewrite (loanBalances_post st st1 input j contractId Hwf Hrun), Howner.
  repeat case_bool_decide; congruence.
Qed.

(** X9.  What the templates do to the loan balances of a contract
    ([getLoanBalances]): a disbursement adds its principal to the principal
    balance, a fee assessment adds its amount to the fees balance, an
    interest accrual adds its amount to the interest balance, a repayment
    and a write-off subtract their positive components; the balances of
    every other contract stay as they were, and the prefund templates move
    no loan balance. *)
Theorem templates_move_loan_balances (st st1 : Store) (j : JournalWithEntries)
        (contractId : string) :
  entriesHaveJournals st ->
  (forall input, recordDisbursement input st = (st1, Ok j) ->
     getLoanBalances st1 contractId
     = if bool_decide (contractId = d_contractId input)
       then adjustLoanBalances (getLoanBalances st contractId)
              (d_principalCents input) 0 0
       else getLoanBalances st contractId)
  /\ (forall input, recordFeeAssessment input st = (st1, Ok j) ->
        getLoanBalances st1 contractId
        = if bool_decide (contractId = fa_contractId input)
          then adjustLoanBalances (getLoanBalances st contractId)
                 0 0 (fa_amountCents input)
          else getLoanBalances st contractId)
  /\ (forall input, recordInterestAccrual input st = (st1, Ok j) ->
        getLoanBalances st1 contractId
        = if bool_decide (contractId = ia_contractId input)
          then adjustLoanBalances (getLoanBalances st contractId)
                 0 (ia_amountCents input) 0
          else getLoanBalances st contractId)
  /\ (forall input, recordRepayment input st = (st1, Ok j) ->
        getLoanBalances st1 contractId
        = if bool_decide (contractId = rp_contractId input)
          then adjustLoanBalances (getLoanBalances st contractId)
                 (- positivePart (rp_principalCents input))
                 (- positivePart (rp_interestCents input))
                 (- positivePart (rp_feesCents input))
          else getLoanBalances st contractId)
  /\ (forall input, recordWriteOff input st = (st1, Ok j) ->
        getLoanBalances st1 contractId
        = if bool_decide (contractId = wo_contractId input)
          then adjustLoanBalances (getLoanBalances st contractId)
                 (- positivePart (wo_principalCents input))
                 (- positivePart (wo_interestCents input))
                 (- positivePart (wo_feesCents input))
          else getLoanBalances st contractId)
  /\ (forall customerId amountCents createdBy,
        recordPrefundDeposit customerId amountCents createdBy st = (st1, Ok j)
        \/ recordPrefundWithdrawal customerId amountCents createdBy st = (st1, Ok j) ->
        getLoanBalances st1 contractId = getLoanBalances st contractId).
Proof.
  intros Hwf. repeat split.
  - intros input Hrun.
    apply (loanBalances_template st st1 _ j _ _ _ _ Hwf Hrun eq_refl).
    apply disbursement_effect.
  - intros input Hrun.
    apply (loanBalances_template st st1 _ j _ _ _ _ Hwf Hrun eq_refl).
    apply feeAssessment_effect.
  - intros input Hrun.
    apply (loanBalances_template st st1 _ j _ _ _ _ Hwf Hrun eq_refl).
    apply interestAccrual_effect.
  - intros input Hrun.
    apply (loanBalances_template st st1 _ j _ _ _ _ Hwf Hrun eq_refl).
    apply repayment_effect.
  - intros input Hrun.
    apply (loanBalances_template st st1 _ j _ _ _ _ Hwf Hrun eq_refl).
    apply writeOff_effect.
  - intros customerId amountCents createdBy [Hrun|Hrun];
      rewrite (loanBalances_post st st1 _ j contractId Hwf Hrun); reflexivity.
Qed.


Lemma template_posts (st : Store) (input : CreateJournalInput) :
  allAccountsExist st (in_entries input) ->
  ~ journalRefused (in_entries input) ->
  exists st1 j, createJournal input st = (st1, Ok j).
Proof.
  intros Hknown Hfine.
  destruct (createJournal_cases input st)
    as [(msg & _ & [Hbad|Hbad])|(st1 & j & Hrun & _)]; [contradiction..|eauto].
Qed.

(** X10.  Settling a loan: when no loan balance of the contract is
    negative and their total is positive, a write-off of exactly the three
    balances, and likewise a repayment of their total split into the three
    balances, is posted and leaves every loan balance of the contract
    at 0. *)
Theorem settling_clears_loan_balances (st : Store) (contractId reason : string)
        (createdBy : option string) :
  chartSeeded st ->
  entriesHaveJournals st ->
  let b := getLoanBalances st contractId in
  0 <= principalBalance b -> 0 <= interestBalance b -> 0 <= feesBalance b ->
  0 < totalBalance b ->
  (exists st1 j,
     recordWriteOff (mkWriteOffInput contractId (principalBalance b)
                       (interestBalance b) (feesBalance b) reason createdBy) st
     = (st1, Ok j)
     /\ getLoanBalances st1 contractId = mkLoanBalances 0 0 0 0)
  /\ (exists st1 j,
        recordRepayment (mkRepaymentInput contractId (totalBalance b)
                           (principalBalance b) (interestBalance b)
                           (feesBalance b) createdBy) st
        = (st1, Ok j)
        /\ getLoanBalances st1 contractId = mkLoanBalances 0 0 0 0).
Proof.
  intros Hseed Hwf b Hp Hi Hf Htotal.
  assert (Hsum : totalBalance b
                 = principalBalance b + interestBalance b + feesBalance b)
    by reflexivity.
  assert (Hpp : forall x, 0 <= x -> positivePart x = x).
  { intros x Hx. destruct (positivePart_spec x) as [(_ & -> & _)|(? & -> & _)]; lia. }
  split.
  - set (input := mkWriteOffInput _ _ _ _ _ _).
    destruct (template_posts st
                (mkCreateJournalInput (Some (wo_contractId input)) ADJUSTMENT
                   ("Write-off: " +:+ wo_reason input)
                   (writeOffEntries input) (wo_createdBy input)))
      as (st1 & j & Hrun).
    { now apply writeOffEntries_known. }
    { apply writeOffEntries_accepted. subst input.
      cbn [wo_principalCents wo_interestCents wo_feesCents]. lia. }
    exists st1, j. split; [exact Hrun|].
    rewrite (loanBalances_template st st1 _ j contractId _ _ _ Hwf Hrun eq_refl
               (writeOff_effect input)).
    rewrite bool_decide_eq_true_2 by reflexivity.
    subst input. cbn [wo_principalCents wo_interestCents wo_feesCents].
    rewrite !Hpp by assumption. unfold adjustLoanBalances. fold b.
    f_equal; lia.
  - set (input := mkRepaymentInput _ _ _ _ _ _).
    destruct (template_posts st
                (mkCreateJournalInput (Some (rp_contractId input)) REPAYMENT
                   "Repayment" (repaymentEntries input) (rp_createdBy input)))
      as (st1 & j & Hrun).
    { now apply repaymentEntries_known. }
    { apply repaymentEntries_accepted. subst input.
      cbn [rp_totalCents rp_principalCents rp_interestCents rp_feesCents].
      rewrite !Hpp by assumption. lia. }
    exists st1, j. split; [exact Hrun|].
    rewrite (loanBalances_template st st1 _ j contractId _ _ _ Hwf Hrun eq_refl
               (repayment_effect input)).
    rewrite bool_decide_eq_true_2 by reflexivity.
    subst input. cbn [rp_principalCents rp_interestCents rp_feesCents].
    rewrite !Hpp by assumption. unfold adjustLoanBalances. fold b.
    f_equal; lia.
Qed.

(** *** Reversal and the balances *)

Lemma entriesHaveJournals_createJournal (st st1 : Store)
      (input : CreateJournalInput) (j : JournalWithEntries) :
  entriesHaveJournals st ->
  createJournal input st = (st1, Ok j) ->
  entriesHaveJournals st1.
Proof.
  intros Hwf Hrun.
  destruct (createJournal_ok_inv _ _ _ _ Hrun)
    as (_ & _ & Hjournals & Hrows & _ & Hids & _).
  intros r. rewrite Hrows, Hjournals, in_app_iff. intros [Hr|Hr].
  - destruct (decide (freshJournalId st = row_journalId r)) as [<-|Hne];
      [rewrite lookup_insert_eq; eauto|].
    rewrite lookup_insert_ne by assumption. now apply Hwf.
  - rewrite (Forall_In _ _ _ Hids Hr), lookup_insert_eq. eauto.
Qed.

Lemma reverseJournal_contractBalance (st st2 : Store) (journalId : nat)
      (original : JournalRow) (reason : string) (createdBy : option string)
      (r : JournalWithEntries) :
  entriesHaveJournals st ->
  ledgerJournal st !! journalId = Some original ->
  reverseJournal journalId reason createdBy st = (st2, Ok r) ->
  forall contractId accountCode,
    getContractAccountBalance st2 contractId accountCode
    = getContractAccountBalance st contractId accountCode
      - if bool_decide (j_contractId original = Some contractId)
        then debitsLessCredits accountCode
               (map entryOfRow (entriesOfJournal st journalId))
        else 0.
Proof.
  intros Hwf Hfound Hrun contractId accountCode.
  destruct (reverseJournal_cases st journalId reason createdBy)
    as [[_ Hno]|[(o & rid & _ & _ & Hno)
               |(o & st2' & r' & Hfound' & Hfree & Hrun' & Hid & Hacc
                 & Hjournals & Hrows & Hmap & Hids & _)]];
    [congruence|congruence|].
  rewrite Hrun in Hrun'. injection Hrun' as <- <-.
  rewrite Hfound in Hfound'. injection Hfound' as <-.
  assert (Hne : freshJournalId st <> journalId).
  { intros Heq. pose proof (freshJournalId_unused st) as Hnone.
    rewrite Heq, Hfound in Hnone. discriminate. }
  rewrite (contractBalance_post st st2 (freshJournalId st)
             (mkJournalRow (j_contractId original) REVERSAL
                ("Reversal of " +:+ pretty journalId +:+ ": " +:+ reason)
                true (Some journalId) None (Some reason) createdBy)
             (jw_entries r)); try assumption.
  - rewrite Hmap, debitsLessCredits_swap. cbn [j_contractId].
    destruct (bool_decide _); lia.
  - apply freshJournalId_unused.
  - rewrite Hjournals, lookup_insert_ne, lookup_insert_eq by congruence.
    reflexivity.
  - intros k Hk. rewrite Hjournals.
    destruct (decide (journalId = k)) as [<-|Hne'].
    + rewrite lookup_insert_eq, Hfound. reflexivity.
    + rewrite !lookup_insert_ne by congruence. reflexivity.
Qed.

(** X11.  A reversal undoes its own journal and nothing else: after a
    journal J and then a journal K are posted, reversing J succeeds, posts
    J's entries swapped, and leaves every running balance and every
    contract-scoped balance where posting K alone would have put it. *)
Theorem reversal_undoes_only_its_journal (st st1 st2 : Store)
        (inputJ inputK : CreateJournalInput) (j k : JournalWithEntries)
        (reason : string) (createdBy : option string) :
  entriesHaveJournals st ->
  createJournal inputJ st = (st1, Ok j) ->
  createJournal inputK st1 = (st2, Ok k) ->
  exists st3 r,
    reverseJournal (jw_id j) reason createdBy st2 = (st3, Ok r)
    /\ map entryOfRow (jw_entries r) = map swapRow (jw_entries j)
    /\ (forall code,
          getAccountBalance st3 code
          = getAccountBalance st code
            + netEffect (ledgerAccount st) code (in_entries inputK))
    /\ (forall contractId accountCode,
          getContractAccountBalance st3 contractId accountCode
          = getContractAccountBalance st contractId accountCode
            + if bool_decide (in_contractId inputK = Some contractId)
              then debitsLessCredits accountCode (in_entries inputK) else 0).
Proof.
  intros Hwf HrunJ HrunK.
  pose proof (entriesHaveJournals_createJournal _ _ _ _ Hwf HrunJ) as Hwf1.
  pose proof (entriesHaveJournals_createJournal _ _ _ _ Hwf1 HrunK) as Hwf2.
  destruct (createJournal_ok_inv _ _ _ _ HrunJ)
    as (HidJ & HaccJ & HjournalsJ & HrowsJ & HmapJ & HidsJ & HbalJ).
  destruct (createJournal_ok_inv _ _ _ _ HrunK)
    as (HidK & HaccK & HjournalsK & HrowsK & HmapK & HidsK & HbalK).
  set (rowJ := mkJournalRow (in_contractId inputJ) (in_type inputJ)
                 (in_description inputJ) false None None None
                 (in_createdBy inputJ)) in *.
  assert (HfoundJ1 : ledgerJournal st1 !! jw_id j = Some rowJ)
    by (rewrite HjournalsJ, HidJ; apply lookup_insert_eq).
  assert (HneK : freshJournalId st1 <> jw_id j).
  { intros Heq. pose proof (freshJournalId_unused st1) as Hnone.
    rewrite Heq, HfoundJ1 in Hnone. discriminate. }
  assert (HfoundJ2 : ledgerJournal st2 !! jw_id j = Some rowJ)
    by (rewrite HjournalsK, lookup_insert_ne by assumption; exact HfoundJ1).
  assert (Hmine1 : entriesOfJournal st1 (jw_id j) = jw_entries j).
  { rewrite HidJ.
    exact (entriesOfJournal_new st st1 _ _ Hwf (freshJournalId_unused st)
             HrowsJ HidsJ). }
  assert (Hmine2 : entriesOfJournal st2 (jw_id j) = jw_entries j).
  { rewrite (entriesOfJournal_post st1 st2 (freshJournalId st1) (jw_entries k)
               Hwf1 (freshJournalId_unused st1) HrowsK HidsK).
    destruct (decide (jw_id j = freshJournalId st1)); [congruence|assumption]. }
  destruct (reverseJournal_cases st2 (jw_id j) reason createdBy)
    as [[Hno _]|[(o & rid & Hfound' & Hdone & _)
               |(o & st3 & r & Hfound' & _ & Hrun & _ & _ & _ & _ & Hmap & _ & Hbal)]].
  { congruence. }
  { rewrite HfoundJ2 in Hfound'. injection Hfound' as <-. discriminate Hdone. }
  exists st3, r. split; [exact Hrun|]. rewrite Hmine2 in *.
  split; [exact Hmap|]. split.
  - intros code. rewrite Hbal. unfold getAccountBalance.
    rewrite HbalK, HbalJ, HmapJ, HaccK, HaccJ. lia.
  - intros contractId accountCode.
    rewrite (reverseJournal_contractBalance st2 st3 (jw_id j) rowJ reason
               createdBy r Hwf2 HfoundJ2 Hrun).
    rewrite (createJournal_contractBalance st1 st2 inputK k Hwf1 HrunK).
    rewrite (createJournal_contractBalance st st1 inputJ j Hwf HrunJ).
    rewrite Hmine2, HmapJ. cbn [j_contractId rowJ].
    destruct (bool_decide (in_contractId inputJ = Some contractId)); lia.
Qed.

(** *** A journal and the calls made after it was posted *)









Lemma create_journal_outcome_witness :
  Doubles.validateBalance (in_entries exampleJournal) = Ok tt
  <-> ~ journalRefused (in_entries exampleJournal).
Proof.
  apply (create_journal_outcome emptyLedger exampleJournal).
  split; vm_compute; discriminate.
Defined.

Lemma record_repayment_outcome_witness :
  isOk (recordRepayment (mkRepaymentInput "c1" 5000 3000 1500 500 None)
          emptyLedger).2 = true.
Proof.
  destruct (record_repayment_outcome emptyLedger
              (mkRepaymentInput "c1" 5000 3000 1500 500 None)
              (fun code H => H)) as (_ & Hposts & _).
  - split; vm_compute; discriminate.
  - apply Hposts. vm_compute. split; reflexivity.
Defined.

Lemma record_write_off_outcome_witness :
  isOk (recordWriteOff (mkWriteOffInput "c1" 3000 1500 500 "Uncollectible" None)
          emptyLedger).2 = true.
Proof.
  destruct (record_write_off_outcome emptyLedger
              (mkWriteOffInput "c1" 3000 1500 500 "Uncollectible" None)
              (fun code H => H)) as (_ & _ & Hposts & _).
  - vm_compute. discriminate.
  - apply Hposts. vm_compute. repeat split; discriminate.
Defined.

Lemma two_line_templates_outcome_witness :
  isOk (recordPrefundDeposit "lender-1" 10000 None emptyLedger).2 = true
  /\ isOk (recordPrefundWithdrawal "lender-1" 0 None emptyLedger).2 <> true.
Proof.
  destruct (two_line_templates_outcome emptyLedger (fun code H => H))
    as (_ & _ & Hdeposit & Hwithdrawal).
  split.
  - apply Hdeposit. lia.
  - intros H. apply Hwithdrawal in H. lia.
Defined.

Lemma create_journal_contract_balance_witness :
  getContractAccountBalance exampleFeePosted.1 "c1" AccountCodes.LOANS_FEES
  = getContractAccountBalance emptyLedger "c1" AccountCodes.LOANS_FEES + 2500
  /\ getContractAccountBalance exampleFeePosted.1 "c2" AccountCodes.LOANS_FEES
     = getContractAccountBalance emptyLedger "c2" AccountCodes.LOANS_FEES + 0.
Proof.
  assert (Hposted :
            createJournal
              (mkCreateJournalInput (Some "c1") FEE_ASSESSMENT "Late fee"
                 (feeAssessmentEntries exampleFeeInput) None) emptyLedger
            = (exampleFeePosted.1, Ok exampleFeePosted.2))
    by (vm_compute; reflexivity).
  split.
  - apply (create_journal_contract_balance emptyLedger exampleFeePosted.1 _
             exampleFeePosted.2 (fun r (H : In r []) => match H with end)
             Hposted "c1" AccountCodes.LOANS_FEES).
  - apply (create_journal_contract_balance emptyLedger exampleFeePosted.1 _
             exampleFeePosted.2 (fun r (H : In r []) => match H with end)
             Hposted "c2" AccountCodes.LOANS_FEES).
Defined.

Lemma templates_move_loan_balances_witness :
  getLoanBalances exampleFeePosted.1 "c1"
  = adjustLoanBalances (getLoanBalances emptyLedger "c1") 0 0 2500.
Proof.
  destruct (templates_move_loan_balances emptyLedger exampleFeePosted.1
              exampleFeePosted.2 "c1") as (_ & Hfee & _).
  - intros r [].
  - apply (Hfee exampleFeeInput). vm_compute. reflexivity.
Defined.

Lemma settling_clears_loan_balances_witness :
  exists st1 j,
    recordWriteOff
      (mkWriteOffInput "c1"
         (principalBalance (getLoanBalances exampleLoanLedger "c1"))
         (interestBalance (getLoanBalances exampleLoanLedger "c1"))
         (feesBalance (getLoanBalances exampleLoanLedger "c1"))
         "Uncollectible" None)
      exampleLoanLedger
    = (st1, Ok j)
    /\ getLoanBalances st1 "c1" = mkLoanBalances 0 0 0 0.
Proof.
  destruct (settling_clears_loan_balances exampleLoanLedger "c1"
              "Uncollectible" None) as [HwriteOff _].
  - intros code H. exact H.
  - apply entriesHaveJournals_check. vm_compute. reflexivity.
  - vm_compute. discriminate.
  - vm_compute. discriminate.
  - vm_compute. discriminate.
  - vm_compute. reflexivity.
  - exact HwriteOff.
Defined.

Lemma reversal_undoes_only_its_journal_witness :
  exists st3 r,
    reverseJournal (jw_id examplePosted.2) "Posted in error" None
                   exampleSecondPosted.1
    = (st3, Ok r)
    /\ map entryOfRow (jw_entries r) = map swapRow (jw_entries examplePosted.2)
    /\ (forall code,
          getAccountBalance st3 code
          = getAccountBalance emptyLedger code
            + netEffect (ledgerAccount emptyLedger) code
                (feeAssessmentEntries exampleFeeInput))
    /\ (forall contractId accountCode,
          getContractAccountBalance st3 contractId accountCode
          = getContractAccountBalance emptyLedger contractId accountCode
            + if bool_decide (Some "c1" = Some contractId)
              then debitsLessCredits accountCode
                     (feeAssessmentEntries exampleFeeInput)
              else 0).
Proof.
  apply (reversal_undoes_only_its_journal emptyLedger examplePosted.1
           exampleSecondPosted.1 exampleJournal
           (mkCreateJournalInput (Some "c1") FEE_ASSESSMENT "Late fee"
              (feeAssessmentEntries exampleFeeInput) None)
           examplePosted.2 exampleSecondPosted.2 "Posted in error" None).
  - intros r [].
  - vm_compute. reflexivity.
  - vm_compute. reflexivity.
Defined.

End LedgerBookProofs.

(* --------------------------------------------------------------------- *)
(** ** Routing decisions *)

Module RoutingRulesProofs.
Import Common Routing RoutingRules.

Lemma includes_true (availableRails : list PaymentRail) (r : PaymentRail) :
  includes availableRails r = true <-> r ∈ availableRails.
Proof. unfold includes. apply bool_decide_eq_true. Qed.

Lemma includes_false (availableRails : list PaymentRail) (r : PaymentRail) :
  includes availableRails r = false <-> r ∉ availableRails.
Proof. unfold includes. apply bool_decide_eq_false. Qed.

(** Some rail is always available: the second refusal of [routePayment]
    cannot happen. *)
Lemma getAvailableRails_nonempty (source : InstrumentCapabilities)
      (destination : option InstrumentCapabilities) (direction : PaymentDirection) :
  (length (getAvailableRails source destination direction) =? 0)%nat = false.
Proof.
  unfold getAvailableRails. cbv zeta.
  set (relevant := match direction with credit => _ | debit => _ end).
  destruct (0 <? length (supportedRails relevant))%nat eqn:E.
  - apply Nat.ltb_lt in E. apply Nat.eqb_neq. lia.
  - destruct (inst_type relevant), (verified relevant); reflexivity.
Qed.

(** The fallback chain of a rail, among the available rails. *)
Lemma buildFallbackChain_eq (primaryRail : PaymentRail)
      (availableRails : list PaymentRail) :
  buildFallbackChain primaryRail availableRails
  = List.filter (includes availableRails)
      match primaryRail with
      | rtp => [ fednow; push_to_card; ach ]
      | fednow => [ push_to_card; ach ]
      | push_to_card => [ ach ]
      | same_day_ach => [ ach ]
      | ach => []
      end.
Proof.
  unfold buildFallbackChain.
  destruct primaryRail; cbn [FALLBACK_CHAIN]; simp fallbackLoop;
    cbn [FALLBACK_CHAIN List.filter]; simp fallbackLoop;
    cbn [FALLBACK_CHAIN List.filter]; simp fallbackLoop;
    cbn [FALLBACK_CHAIN List.filter]; simp fallbackLoop;
    repeat (destruct (includes availableRails _)); reflexivity.
Qed.


Lemma routePayment_run (eta : PaymentRail -> Z) (input : RoutingInput) :
  routePayment eta input
  = if amountCents input <=? 0 then invalidRequest "Amount must be positive"
    else
      match speed input with
      | standard =>
          if includes (railsOf input) ach
          then Ok (mkRoutingDecision ach (eta ach) 0 []
                     "Standard speed requested; using ACH")
          else invalidRequest "ACH not available for this instrument"
      | instant =>
          let selected := selectInstantRail (railsOf input) in
          Ok (mkRoutingDecision selected.1 (eta selected.1)
                (calculateFee instant (amountCents input))
                (buildFallbackChain selected.1 (railsOf input)) selected.2)
      end.
Proof.
  unfold routePayment, railsOf. cbv zeta.
  rewrite getAvailableRails_nonempty.
  destruct (amountCents input <=? 0); [reflexivity|].
  destruct (speed input); [|reflexivity].
  destruct (includes _ ach); reflexivity.
Qed.

(** The instant selection picks an available rail, the fastest one. *)
Lemma selectInstantRail_spec (availableRails : list PaymentRail) :
  availableRails <> [] ->
  (selectInstantRail availableRails).1 ∈ availableRails
  /\ (forall r, r ∈ availableRails ->
                (priorityRank (selectInstantRail availableRails).1
                 <= priorityRank r)%nat)
  /\ (selectInstantRail availableRails).2
     = instantReasons (selectInstantRail availableRails).1.
Proof.
  intros Hne. unfold selectInstantRail.
  cbn [List.find INSTANT_RAIL_PRIORITY].
  destruct (includes availableRails rtp) eqn:Hrtp;
    [|destruct (includes availableRails fednow) eqn:Hfednow;
      [|destruct (includes availableRails push_to_card) eqn:Hpush;
        [|destruct (includes availableRails same_day_ach) eqn:Hsame;
          [|destruct (includes availableRails ach) eqn:Hach]]]];
    rewrite ?includes_true, ?includes_false in *; cbn [fst snd].
  1-5: split; [assumption|]; split; [|reflexivity];
       intros r Hr; destruct r; try contradiction; vm_compute; lia.
  destruct availableRails as [|r l]; [contradiction|].
  exfalso. assert (Hr : r ∈ r :: l) by left. destruct r; contradiction.
Qed.

Lemma railsOf_nonempty (input : RoutingInput) : railsOf input <> [].
Proof.
  pose proof (getAvailableRails_nonempty (sourceInstrument input)
                (destinationInstrument input) (direction input)) as Hlen.
  unfold railsOf. intros Hnil. rewrite Hnil in Hlen. discriminate.
Qed.

(** X12.  [routePayment] returns a decision exactly when the amount is
    positive and, for standard speed, ACH is among the rails of the relevant
    instrument; in every other case it throws INVALID_REQUEST.  (Some rail
    is always available, so instant routing of a positive amount never
    fails.) *)
Theorem route_payment_outcome (eta : PaymentRail -> Z) (input : RoutingInput) :
  (isOk (routePayment eta input) = true
   <-> 0 < amountCents input
       /\ (speed input = instant \/ ach ∈ railsOf input))
  /\ (isOk (routePayment eta input) = false ->
      failsWith INVALID_REQUEST (routePayment eta input)).
Proof.
  rewrite routePayment_run.
  destruct (Z.leb_spec (amountCents input) 0) as [Hle|Hpos].
  { split; [|intros _; eexists; reflexivity].
    cbn. split; [discriminate|]. lia. }
  destruct (speed input).
  - destruct (includes (railsOf input) ach) eqn:Hach;
      rewrite ?includes_true, ?includes_false in Hach; cbn [isOk].
    + split; [|discriminate]. split; auto.
    + split; [|intros _; eexists; reflexivity].
      split; [discriminate|]. intros [_ [Hno|Hin]]; [discriminate|contradiction].
  - cbn [isOk]. split; [|discriminate]. split; auto.
Qed.

Lemma fallback_members (primaryRail : PaymentRail)
      (availableRails : list PaymentRail) (r : PaymentRail) :
  r ∈ buildFallbackChain primaryRail availableRails
  <-> r ∈ availableRails
      /\ r ∈ match primaryRail with
             | rtp => [ fednow; push_to_card; ach ]
             | fednow => [ push_to_card; ach ]
             | push_to_card => [ ach ]
             | same_day_ach => [ ach ]
             | ach => []
             end.
Proof.
  rewrite buildFallbackChain_eq, !list_elem_of_In, filter_In, <- !list_elem_of_In.
  rewrite includes_true. tauto.
Qed.

Lemma fallback_NoDup (primaryRail : PaymentRail)
      (availableRails : list PaymentRail) :
  NoDup (buildFallbackChain primaryRail availableRails).
Proof.
  rewrite buildFallbackChain_eq. apply NoDup_ListNoDup, List.NoDup_filter.
  destruct primaryRail; repeat constructor; cbn; intuition discriminate.
Qed.

(** The shape of a routing decision. *)
Lemma routePayment_ok_inv (eta : PaymentRail -> Z) (input : RoutingInput)
        (d : RoutingDecision) :
  routePayment eta input = Ok d ->
  rail d ∈ railsOf input
  /\ fee d = calculateFee (speed input) (amountCents input)
  /\ estimatedArrival d = eta (rail d)
  /\ NoDup (fallbackRails d)
  /\ (forall r, r ∈ fallbackRails d ->
                r ∈ railsOf input /\ r <> rail d
                /\ r <> same_day_ach /\ r <> rtp)
  /\ (speed input = standard ->
      rail d = ach /\ fallbackRails d = [] /\ fee d = 0).
Proof.
  rewrite routePayment_run.
  destruct (amountCents input <=? 0); [discriminate|].
  destruct (speed input) eqn:Hspeed.
  - destruct (includes (railsOf input) ach) eqn:Hach; [|discriminate].
    apply includes_true in Hach. intros [= <-]. cbn.
    split; [assumption|]. do 2 (split; [reflexivity|]).
    split; [apply NoDup_nil_2|]. split; [|auto].
    intros r Hr. inversion Hr.
  - cbv zeta. intros [= <-]. cbn [rail fee estimatedArrival fallbackRails reason].
    destruct (selectInstantRail_spec (railsOf input) (railsOf_nonempty input))
      as (Hin & _ & _).
    split; [assumption|]. do 2 (split; [reflexivity|]).
    split; [apply fallback_NoDup|]. split; [|discriminate].
    intros r [Havail Hchain]%fallback_members.
    split; [assumption|].
    destruct (selectInstantRail (railsOf input)).1;
      rewrite ?elem_of_cons, elem_of_nil in Hchain;
      intuition (subst; discriminate).
Qed.


(** X13.  A routing decision is sound: the selected rail is one of the
    rails of the relevant instrument; the fallback rails are available
    rails, distinct from each other and from the selected rail, never RTP
    and never same-day ACH; the fee is that of [calculateFee].  At standard
    speed the rail is ACH, without fee and without fallback. *)
Theorem routing_decision_sound (eta : PaymentRail -> Z) (input : RoutingInput)
        (d : RoutingDecision) :
  routePayment eta input = Ok d ->
  rail d ∈ railsOf input
  /\ fee d = calculateFee (speed input) (amountCents input)
  /\ estimatedArrival d = eta (rail d)
  /\ NoDup (fallbackRails d)
  /\ (forall r, r ∈ fallbackRails d ->
                r ∈ railsOf input /\ r <> rail d
                /\ r <> same_day_ach /\ r <> rtp)
  /\ (speed input = standard ->
      rail d = ach /\ fallbackRails d = [] /\ fee d = 0).
Proof. apply routePayment_ok_inv. Qed.

Lemma priorityRank_inj (r r' : PaymentRail) :
  priorityRank r = priorityRank r' -> r = r'.
Proof. destruct r, r'; vm_compute; congruence. Qed.

(** X14.  At instant speed the selected rail is the fastest available one
    in the order RTP, FedNow, push-to-card, same-day ACH, ACH; the fallback
    rails are exactly the other available rails except same-day ACH, all
    slower than the selected rail and listed from fastest to slowest. *)
Theorem instant_rail_is_fastest (eta : PaymentRail -> Z) (input : RoutingInput)
        (d : RoutingDecision) :
  speed input = instant ->
  routePayment eta input = Ok d ->
  (forall r, r ∈ railsOf input -> (priorityRank (rail d) <= priorityRank r)%nat)
  /\ (forall r, r ∈ fallbackRails d
                <-> r ∈ railsOf input /\ r <> rail d /\ r <> same_day_ach)
  /\ (forall r, r ∈ fallbackRails d -> (priorityRank (rail d) < priorityRank r)%nat)
  /\ StronglySorted (fun a b => (priorityRank a < priorityRank b)%nat)
       (fallbackRails d)
  /\ reason d = instantReasons (rail d).
Proof.
  intros Hspeed. rewrite routePayment_run, Hspeed.
  destruct (amountCents input <=? 0); [discriminate|].
  cbv zeta. intros [= <-]. cbn [rail fallbackRails reason].
  destruct (selectInstantRail_spec (railsOf input) (railsOf_nonempty input))
    as (Hin & Hbest & Hreason).
  set (selected := (selectInstantRail (railsOf input)).1) in *.
  assert (Hmembers : forall r, r ∈ buildFallbackChain selected (railsOf input)
                     <-> r ∈ railsOf input /\ r <> selected /\ r <> same_day_ach).
  { intros r. rewrite fallback_members. split.
    - intros [Havail Hchain]. split; [assumption|].
      destruct selected; rewrite ?elem_of_cons, elem_of_nil in Hchain;
        intuition (subst; discriminate).
    - intros (Havail & Hne & Hsame). split; [assumption|].
      pose proof (Hbest r Havail) as Hrank.
      destruct selected, r; try congruence;
        try (vm_compute in Hrank; lia);
        rewrite ?elem_of_cons; auto. }
  split; [exact Hbest|]. split; [exact Hmembers|]. split; [|split].
  - intros r (Havail & Hne & _)%Hmembers.
    pose proof (Hbest r Havail) as Hrank.
    destruct (decide (priorityRank selected = priorityRank r)) as [Heq|Hneq];
      [|lia].
    apply priorityRank_inj in Heq. congruence.
  - rewrite buildFallbackChain_eq.
    destruct selected; cbn [List.filter];
      repeat (destruct (includes (railsOf input) _));
      repeat constructor; vm_compute; lia.
  - exact Hreason.
Qed.

(** X15.  [getRoutingOptions] returns exactly when the amount is positive
    and ACH is among the rails of the relevant instrument (so it throws for
    an instrument that only has push-to-card, although instant routing would
    succeed); when it returns, the standard option is ACH without fee, the
    instant option is never null, and [instantAvailable] holds exactly when
    some rail other than ACH is available. *)
Theorem routing_options_outcome (eta : PaymentRail -> Z) (input : RoutingInput) :
  (isOk (getRoutingOptions eta input) = true
   <-> 0 < amountCents input /\ ach ∈ railsOf input)
  /\ (isOk (getRoutingOptions eta input) = false ->
      failsWith INVALID_REQUEST (getRoutingOptions eta input))
  /\ (forall o, getRoutingOptions eta input = Ok o ->
        rail (opt_standard o) = ach
        /\ fee (opt_standard o) = 0
        /\ (exists d, opt_instant o = Some d
                      /\ routePayment eta (withSpeed input instant) = Ok d)
        /\ (instantAvailable o = true
            <-> exists r, r ∈ railsOf input /\ r <> ach)).
Proof.
  unfold getRoutingOptions. rewrite !routePayment_run.
  change (railsOf (withSpeed input standard)) with (railsOf input).
  change (railsOf (withSpeed input instant)) with (railsOf input).
  cbn [withSpeed speed amountCents].
  destruct (Z.leb_spec (amountCents input) 0) as [Hle|Hpos].
  { cbn. split; [split; [discriminate|lia]|].
    split; [intros _; eexists; reflexivity|discriminate]. }
  destruct (includes (railsOf input) ach) eqn:Hach;
    rewrite ?includes_true, ?includes_false in Hach.
  2:{ cbn. split; [split; [discriminate|tauto]|].
      split; [intros _; eexists; reflexivity|discriminate]. }
  cbn [mbind Result_bind isOk]. cbv zeta.
  split; [split; auto|]. split; [discriminate|].
  intros o [= <-]. cbn [opt_standard opt_instant instantAvailable rail fee].
  split; [reflexivity|]. split; [reflexivity|]. split; [eauto|].
  destruct (selectInstantRail_spec (railsOf input) (railsOf_nonempty input))
    as (Hin & Hbest & _).
  set (selected := (selectInstantRail (railsOf input)).1) in *.
  rewrite negb_true_iff, bool_decide_eq_false. split.
  - intros Hne. eauto.
  - intros (r & Hr & Hne) Heq. rewrite Heq in Hbest.
    specialize (Hbest r Hr). destruct r; try congruence; vm_compute in Hbest; lia.
Qed.

Lemma routing_decision_sound_witness :
  rail exampleDecision ∈ railsOf exampleRoutingInput
  /\ fee exampleDecision = 299
  /\ NoDup (fallbackRails exampleDecision).
Proof.
  destruct (routing_decision_sound exampleClock exampleRoutingInput
              exampleDecision) as (Hrail & Hfee & _ & Hfallbacks & _).
  - reflexivity.
  - split; [exact Hrail|]. split; [exact Hfee | exact Hfallbacks].
Defined.

Lemma instant_rail_is_fastest_witness :
  (forall r, r ∈ railsOf exampleRoutingInput ->
             (priorityRank (rail exampleDecision) <= priorityRank r)%nat)
  /\ reason exampleDecision = instantReasons (rail exampleDecision).
Proof.
  destruct (instant_rail_is_fastest exampleClock exampleRoutingInput
              exampleDecision) as (Hfastest & _ & _ & _ & Hreason).
  - reflexivity.
  - reflexivity.
  - split; [exact Hfastest | exact Hreason].
Defined.

End RoutingRulesProofs.

(* --------------------------------------------------------------------- *)
(** ** Transfer execution *)

Module TransferExecutionProofs.
Import Common Routing RoutingRules TransferExecution RoutingProofs RoutingRulesProofs.

Section Execution.

Variable fundingInstrument : gmap string FundingInstrument.
Variable listPaymentMethods : string -> Result (list PaymentMethod).
Variable createTransfer : CreateTransferInput -> Result string.
Variable calculateEstimatedArrival : PaymentRail -> Z.
Variable now : Z.

Variable routing : RoutingDecision.
Variables src dst : InstrumentCapabilities.
Variable amountCents : Z.
Variable description : string.
Variable metadata : option (list (string * string)).

Local Abbreviation attempt :=
  (attemptRail fundingInstrument listPaymentMethods createTransfer
     src dst amountCents description metadata).
Local Abbreviation loop :=
  (tryRails fundingInstrument listPaymentMethods createTransfer now
     routing src dst amountCents description metadata).
Local Abbreviation accepted := (fun r id =>
  mkTransferResult id id r Transfer.processing amountCents (fee routing)
    (estimatedArrival routing) now None None).

Lemma tryRails_first_success (pre : list PaymentRail) :
  forall (tried : list PaymentRail) (lastError : option AppError)
         (r : PaymentRail) (post : list PaymentRail) (id : string),
    (forall x, x ∈ pre -> isOk (attempt x) = false) ->
    (forall x, x ∈ tried -> isOk (attempt x) = false) ->
    attempt r = Ok id ->
    loop (pre ++ r :: post) tried lastError = Ok (accepted r id).
Proof.
  induction pre as [|x pre IH]; intros tried lastError r post id Hpre Htried Hok.
  - cbn [app tryRails].
    destruct (includes tried r) eqn:Hin.
    + apply includes_true, Htried in Hin. rewrite Hok in Hin. discriminate.
    + now rewrite Hok.
  - cbn [app tryRails].
    destruct (includes tried x) eqn:Hin.
    + apply IH; auto. intros y Hy. apply Hpre. now right.
    + assert (Hx : isOk (attempt x) = false) by (apply Hpre; left).
      destruct (attempt x) as [?|e]; [discriminate|].
      apply IH; auto.
      * intros y Hy. apply Hpre. now right.
      * intros y [Hy|Hy%list_elem_of_singleton]%elem_of_app; [auto|].
        subst y. apply Hpre. left.
Qed.

Lemma tryRails_ok_inv (rails : list PaymentRail) :
  forall (tried : list PaymentRail) (lastError : option AppError)
         (res : TransferResult),
    loop rails tried lastError = Ok res ->
    exists r id, r ∈ rails /\ attempt r = Ok id /\ res = accepted r id.
Proof.
  induction rails as [|x rails IH]; intros tried lastError res; [discriminate|].
  cbn [tryRails]. destruct (includes tried x).
  - intros (r & id & Hr & Hrest)%IH. exists r, id. split; [now right|assumption].
  - destruct (attempt x) as [id|e] eqn:Hx.
    + intros [= <-]. exists x, id. split; [left|auto].
    + intros (r & id & Hr & Hrest)%IH. exists r, id. split; [now right|assumption].
Qed.

Lemma tryRails_err_inv (rails : list PaymentRail) :
  forall (tried : list PaymentRail) (lastError : option AppError) (e : AppError),
    (forall x, x ∈ tried -> isOk (attempt x) = false) ->
    loop rails tried lastError = Err e ->
    code e = PROVIDER_ERROR
    /\ forall x, x ∈ rails -> isOk (attempt x) = false.
Proof.
  induction rails as [|x rails IH]; intros tried lastError e Htried.
  - cbn [tryRails]. intros [= <-]. split; [reflexivity|]. intros x Hx. inversion Hx.
  - cbn [tryRails]. destruct (includes tried x) eqn:Hin.
    + intros [Hcode Hall]%IH; [|assumption]. split; [assumption|].
      intros y [->|Hy]%elem_of_cons; [|auto].
      apply Htried. now apply includes_true.
    + destruct (attempt x) as [id|e'] eqn:Hx; [discriminate|].
      intros [Hcode Hall]%IH.
      * split; [assumption|]. intros y [->|Hy]%elem_of_cons; [|auto].
        now rewrite Hx.
      * intros y [Hy|Hy%list_elem_of_singleton]%elem_of_app; [auto|].
        subst y. now rewrite Hx.
Qed.

(** The message of the error thrown when every rail has failed: the rails
    tried, in order, and the message of the last error. *)
Lemma tryRails_all_failed (rails : list PaymentRail) :
  forall (tried : list PaymentRail) (lastError : option AppError),
    NoDup (tried ++ rails) ->
    (forall x, x ∈ rails -> isOk (attempt x) = false) ->
    loop rails tried lastError
    = Err (mkAppError PROVIDER_ERROR
             ("Transfer failed on all rails ("
              +:+ String.concat ", " (map railName (tried ++ rails)) +:+ "): "
              +:+ match last rails with
                  | Some r => match attempt r with
                              | Err e => message e
                              | Ok _ => "undefined"
                              end
                  | None => match lastError with
                            | Some e => message e
                            | None => "undefined"
                            end
                  end)).
Proof.
  induction rails as [|x rails IH]; intros tried lastError Hnd Hall.
  - cbn [tryRails last]. now rewrite app_nil_r.
  - cbn [tryRails].
    assert (Hfresh : includes tried x = false).
    { apply includes_false. intros Hin.
      apply NoDup_app in Hnd as (_ & Hdisj & _). apply (Hdisj x Hin). left. }
    rewrite Hfresh.
    assert (Hx : isOk (attempt x) = false) by (apply Hall; left).
    destruct (attempt x) as [?|e] eqn:Hattempt; [discriminate|].
    rewrite IH.
    + rewrite <- app_assoc. cbn [app].
      destruct rails as [|y rails']; [cbn [last]; now rewrite Hattempt|].
      change (last (x :: y :: rails')) with (last (y :: rails')).
      destruct (last (y :: rails')) eqn:Hlast; [reflexivity|].
      apply last_None in Hlast. discriminate.
    + now rewrite <- app_assoc.
    + intros y Hy. apply Hall. now right.
Qed.

(** X16.  [executeTransfer] tries the selected rail and then the fallback
    rails in order and returns on the first one the provider accepts, with
    status processing and the fee and arrival of the routing decision; it
    throws exactly when every rail fails, always with PROVIDER_ERROR, and
    the message then lists the rails tried and ends with the message of the
    last error. *)
Theorem execute_transfer_first_success :
  let rails := rail routing :: fallbackRails routing in
  let run :=
    executeTransfer fundingInstrument listPaymentMethods createTransfer now
      routing src dst amountCents description metadata in
  (forall pre r post id,
      rails = pre ++ r :: post ->
      (forall x, x ∈ pre -> isOk (attempt x) = false) ->
      attempt r = Ok id ->
      run = Ok (accepted r id))
  /\ (isOk run = false <-> forall x, x ∈ rails -> isOk (attempt x) = false)
  /\ (isOk run = false -> failsWith PROVIDER_ERROR run)
  /\ (isOk run = false -> NoDup rails ->
      forall r e, last rails = Some r -> attempt r = Err e ->
        run = Err (mkAppError PROVIDER_ERROR
                     ("Transfer failed on all rails ("
                      +:+ String.concat ", " (map railName rails) +:+ "): "
                      +:+ message e))).
Proof.
  cbv zeta. unfold executeTransfer. cbv zeta.
  set (rails := rail routing :: fallbackRails routing).
  assert (Hnone : forall x, x ∈ @nil PaymentRail -> isOk (attempt x) = false)
    by (intros x Hx; inversion Hx).
  assert (Hiff : isOk (loop rails [] None) = false
                 <-> forall x, x ∈ rails -> isOk (attempt x) = false).
  { split.
    - destruct (loop rails [] None) as [res|e] eqn:Hrun; [discriminate|].
      intros _. now apply (tryRails_err_inv rails [] None e Hnone).
    - intros Hall. destruct (loop rails [] None) as [res|e] eqn:Hrun; [|reflexivity].
      apply tryRails_ok_inv in Hrun as (r & id & Hr & Hok & _).
      apply Hall in Hr. rewrite Hok in Hr. discriminate. }
  split; [|split; [exact Hiff|split]].
  - intros pre r post id -> Hpre Hok. now apply tryRails_first_success.
  - destruct (loop rails [] None) as [res|e] eqn:Hrun; [discriminate|].
    intros _. apply (tryRails_err_inv rails [] None e Hnone) in Hrun as [Hcode _].
    destruct e as [c msg]. cbn in Hcode. subst c. now exists msg.
  - intros Hfail Hnd r e Hlast Hr.
    rewrite (tryRails_all_failed rails [] None Hnd (proj1 Hiff Hfail)).
    cbn [app]. now rewrite Hlast, Hr.
Qed.

End Execution.


Section Initiation.

Variable fundingInstrument : gmap string FundingInstrument.
Variable listPaymentMethods : string -> Result (list PaymentMethod).
Variable createTransfer : CreateTransferInput -> Result string.
Variable calculateEstimatedArrival : PaymentRail -> Z.
Variable now : Z.

Local Abbreviation capabilities := (getInstrumentCapabilities fundingInstrument).
Local Abbreviation initiate :=
  (initiateTransfer fundingInstrument listPaymentMethods createTransfer
     calculateEstimatedArrival now).

Lemma getInstrumentCapabilities_found (instrumentId : string)
      (instrument : FundingInstrument) :
  fundingInstrument !! instrumentId = Some instrument ->
  exists c, capabilities instrumentId = Ok c
            /\ inst_id c = instrumentId
            /\ (fi_type instrument = "BANK_ACCOUNT" ->
                fi_status instrument <> "VERIFIED" ->
                supportedRails c = [ ach ]).
Proof.
  intros Hfound. unfold getInstrumentCapabilities. rewrite Hfound. cbv zeta.
  eexists. split; [reflexivity|]. split; [reflexivity|].
  intros Htype Hstatus. cbn [supportedRails].
  rewrite (bool_decide_eq_true_2 _ Htype), (bool_decide_eq_false_2 _ Hstatus).
  reflexivity.
Qed.

Lemma initiateTransfer_ok_inv (tenantId : string) (input : InitiateTransferInput)
      (res : TransferResult) :
  initiate tenantId input = Ok res ->
  exists src dst d,
    capabilities (it_sourceAccountId input) = Ok src
    /\ capabilities (it_destinationAccountId input) = Ok dst
    /\ routePayment calculateEstimatedArrival
         (mkRoutingInput (it_speed input) (it_direction input)
            (it_amountCents input) src (Some dst)) = Ok d
    /\ (tr_rail res = rail d \/ tr_rail res ∈ fallbackRails d)
    /\ tr_status res = Transfer.processing
    /\ tr_amountCents res = it_amountCents input
    /\ tr_feeCents res = fee d
    /\ tr_estimatedArrival res = estimatedArrival d
    /\ tr_initiatedAt res = now
    /\ tr_providerTransferId res = tr_id res.
Proof.
  unfold initiateTransfer.
  destruct (capabilities (it_sourceAccountId input)) as [src|] eqn:Hsrc;
    [|discriminate].
  destruct (capabilities (it_destinationAccountId input)) as [dst|] eqn:Hdst;
    [|discriminate].
  cbn [mbind Result_bind].
  destruct (routePayment _ _) as [d|] eqn:Hroute; [|discriminate].
  unfold executeTransfer. cbv zeta.
  intros (r & id & Hr & _ & ->)%tryRails_ok_inv.
  apply elem_of_cons in Hr.
  exists src, dst, d. cbn. repeat split; auto.
Qed.

(** X17.  What [initiateTransfer] returns and throws.  A missing source or
    destination instrument is NOT_FOUND, whatever the amount.  A returned
    transfer is processing, for the requested positive amount, on one of
    the rails of the relevant instrument; its fee is the fee of the
    requested speed, whichever rail carried it: 0 and ACH at standard speed,
    at least 299 at instant speed. *)
Theorem initiate_transfer_result (tenantId : string)
        (input : InitiateTransferInput) :
  (fundingInstrument !! it_sourceAccountId input = None
   \/ fundingInstrument !! it_destinationAccountId input = None ->
   failsWith NOT_FOUND (initiate tenantId input))
  /\ (forall res, initiate tenantId input = Ok res ->
        tr_status res = Transfer.processing
        /\ tr_amountCents res = it_amountCents input
        /\ 0 < it_amountCents input
        /\ tr_feeCents res = calculateFee (it_speed input) (it_amountCents input)
        /\ (it_speed input = standard -> tr_rail res = ach /\ tr_feeCents res = 0)
        /\ (it_speed input = instant -> 299 <= tr_feeCents res)
        /\ exists src dst,
             capabilities (it_sourceAccountId input) = Ok src
             /\ capabilities (it_destinationAccountId input) = Ok dst
             /\ tr_rail res ∈ getAvailableRails src (Some dst) (it_direction input)).
Proof.
  split.
  - unfold initiateTransfer, getInstrumentCapabilities.
    destruct (fundingInstrument !! it_sourceAccountId input) as [s|];
      [|intros _; eexists; reflexivity].
    destruct (fundingInstrument !! it_destinationAccountId input) as [t|];
      [|intros _; eexists; reflexivity].
    intros [Hno|Hno]; discriminate.
  - intros res (src & dst & d & Hsrc & Hdst & Hroute & Hrail & Hstatus & Hamount
                & Hfee & _)%initiateTransfer_ok_inv.
    destruct (routePayment_ok_inv _ _ _ Hroute)
      as (Hin & Hdfee & _ & _ & Hfall & Hstd).
    cbn [speed amountCents] in *.
    assert (Hpos : 0 < it_amountCents input).
    { rewrite routePayment_run in Hroute. cbn [amountCents] in Hroute.
      destruct (Z.leb_spec (it_amountCents input) 0); [discriminate|assumption]. }
    split; [assumption|]. split; [assumption|]. split; [assumption|].
    split; [congruence|]. split; [|split].
    + intros Hspeed. destruct (Hstd Hspeed) as (Hach & Hnone & Hzero).
      rewrite Hnone in Hrail. split; [|congruence].
      destruct Hrail as [Hrail|Hrail]; [congruence|inversion Hrail].
    + intros Hspeed. rewrite Hfee, Hdfee, Hspeed, calculateFee_instant.
      unfold bandedFee.
      repeat match goal with
             | |- context [?a <=? ?b] => destruct (Z.leb_spec a b)
             end; lia.
    + exists src, dst. split; [assumption|]. split; [assumption|].
      destruct Hrail as [->|Hrail]; [exact Hin|].
      now apply Hfall in Hrail.
Qed.

End Initiation.

End TransferExecutionProofs.

(* --------------------------------------------------------------------- *)
(** ** Status updates: what they leave alone *)

Module TransferFrameProofs.
Import Common Transfer TransferProofs.

(** *** Looking a record up by its provider reference *)

Lemma findFirst_disbursement (st : Store) (ref : string) :
  match List.find (fun row => bool_decide (disb_providerRef row.2 = Some ref))
                  (map_to_list (disbursement st)) with
  | Some (id, d) => disbursement st !! id = Some d /\ disb_providerRef d = Some ref
  | None => forall id d, disbursement st !! id = Some d ->
                         disb_providerRef d <> Some ref
  end.
Proof.
  destruct (List.find _ _) as [[id d]|] eqn:Hfind.
  - apply find_some in Hfind as [Hin Hp].
    apply list_elem_of_In, elem_of_map_to_list in Hin.
    apply bool_decide_eq_true in Hp. auto.
  - intros id d Hd Href.
    assert (Hin : In (id, d) (map_to_list (disbursement st)))
      by now apply list_elem_of_In, elem_of_map_to_list.
    pose proof (find_none _ _ Hfind (id, d) Hin) as Hno.
    apply bool_decide_eq_false in Hno. now apply Hno.
Qed.

Lemma findFirst_repayment (st : Store) (ref : string) :
  match List.find (fun row => bool_decide (rep_providerRef row.2 = Some ref))
                  (map_to_list (repayment st)) with
  | Some (id, r) => repayment st !! id = Some r /\ rep_providerRef r = Some ref
  | None => forall id r, repayment st !! id = Some r ->
                         rep_providerRef r <> Some ref
  end.
Proof.
  destruct (List.find _ _) as [[id r]|] eqn:Hfind.
  - apply find_some in Hfind as [Hin Hp].
    apply list_elem_of_In, elem_of_map_to_list in Hin.
    apply bool_decide_eq_true in Hp. auto.
  - intros id r Hr Href.
    assert (Hin : In (id, r) (map_to_list (repayment st)))
      by now apply list_elem_of_In, elem_of_map_to_list.
    pose proof (find_none _ _ Hfind (id, r) Hin) as Hno.
    apply bool_decide_eq_false in Hno. now apply Hno.
Qed.

(** What [updateDisbursementStatus] leaves of the store, for a row that
    exists. *)
Lemma updateDisbursementStatus_run (st : Store) (id : string) (d : Disbursement)
      (update : TransferStatusUpdate) (now : Z) :
  disbursement st !! id = Some d ->
  exists contracts commits r,
    updateDisbursementStatus id update now st
    = (mkStore (<[id := disbursementAfter update now d]> (disbursement st))
               (repayment st) contracts (ledger st), commits, r)
    /\ (status update <> completed -> contracts = loanContract st /\ r = Ok tt)
    /\ (contracts = loanContract st
        \/ exists c, loanContract st !! disb_contractId d = Some c
                     /\ contracts
                        = <[disb_contractId d :=
                              mkLoanContract (lc_tenantId c) ACTIVE (Some now)]>
                            (loanContract st)).
Proof.
  intros Hd. unfold updateDisbursementStatus.
  rewrite transfer_bind_run. unfold disbursement_update. rewrite Hd.
  destruct (isCompleted (status update)) eqn:Hc.
  - rewrite transfer_bind_run. unfold disbursement_findUnique.
    cbn [disbursement]. rewrite lookup_insert_eq.
    unfold loanContract_update. cbn [loanContract disb_contractId disbursementAfter].
    destruct (loanContract st !! disb_contractId d) as [c|] eqn:Hcontract.
    + do 3 eexists. split; [reflexivity|]. split.
      * intros Hne. destruct (status update); try discriminate; congruence.
      * right. eauto.
    + do 3 eexists. split; [reflexivity|]. split.
      * intros Hne. destruct (status update); try discriminate; congruence.
      * now left.
  - do 3 eexists. split; [reflexivity|]. split; [auto|now left].
Qed.


Lemma status_update_frame_ledger (st : Store) (update : TransferStatusUpdate)
      (now : Z) :
  ledger (processStatusUpdate update now st).1.1 = ledger st.
Proof.
  unfold processStatusUpdate.
  rewrite transfer_bind_run. unfold disbursement_findFirst.
  pose proof (findFirst_disbursement st (providerTransferId update)) as Hfd.
  destruct (List.find _ (map_to_list (disbursement st))) as [[id d]|].
  - destruct Hfd as [Hd _].
    destruct (updateDisbursementStatus_run st id d update now Hd)
      as (contracts & commits & r & -> & _). reflexivity.
  - rewrite transfer_bind_run. unfold repayment_findFirst.
    pose proof (findFirst_repayment st (providerTransferId update)) as Hfr.
    destruct (List.find _ (map_to_list (repayment st))) as [[id r]|].
    + destruct Hfr as [Hr _].
      now rewrite (updateRepaymentStatus_run st id r update now Hr).
    + reflexivity.
Qed.

(** X18.  What [processStatusUpdate] leaves alone.  It never writes the
    ledger and never creates or deletes a record; a record whose provider
    reference is not the one of the update keeps its row; when a
    disbursement carries the reference no repayment is touched; the
    contract table is only written by a 'completed' update; and when no
    record carries the reference the call returns without any write. *)
Theorem status_update_frame (st : Store) (update : TransferStatusUpdate)
        (now : Z) :
  let ref := providerTransferId update in
  let st' := (processStatusUpdate update now st).1.1 in
  ledger st' = ledger st
  /\ dom (disbursement st') = dom (disbursement st)
  /\ dom (repayment st') = dom (repayment st)
  /\ (forall id, disbursement st !! id ≫= disb_providerRef <> Some ref ->
                 disbursement st' !! id = disbursement st !! id)
  /\ (forall id, repayment st !! id ≫= rep_providerRef <> Some ref ->
                 repayment st' !! id = repayment st !! id)
  /\ ((exists id d, disbursement st !! id = Some d
                    /\ disb_providerRef d = Some ref) ->
      repayment st' = repayment st)
  /\ (status update <> completed -> loanContract st' = loanContract st)
  /\ ((forall id d, disbursement st !! id = Some d ->
                    disb_providerRef d <> Some ref) ->
      (forall id r, repayment st !! id = Some r ->
                    rep_providerRef r <> Some ref) ->
      processStatusUpdate update now st = (st, [], Ok tt)).
Proof.
  cbv zeta. unfold processStatusUpdate.
  rewrite transfer_bind_run. unfold disbursement_findFirst.
  pose proof (findFirst_disbursement st (providerTransferId update)) as Hfd.
  destruct (List.find _ (map_to_list (disbursement st))) as [[id d]|].
  - destruct Hfd as [Hd Href].
    destruct (updateDisbursementStatus_run st id d update now Hd)
      as (contracts & commits & r & -> & Hother & _).
    cbn [fst snd ledger disbursement repayment loanContract].
    split; [reflexivity|]. split; [|split; [reflexivity|]].
    { apply dom_insert_lookup_L. eauto. }
    split; [|split; [reflexivity|]].
    { intros id' Hne. apply lookup_insert_ne. intros <-.
      apply Hne. now rewrite Hd. }
    split; [reflexivity|]. split.
    + intros Hne. now apply Hother.
    + intros Hnone _. destruct (Hnone id d Hd Href).
  - rewrite transfer_bind_run. unfold repayment_findFirst.
    pose proof (findFirst_repayment st (providerTransferId update)) as Hfr.
    destruct (List.find _ (map_to_list (repayment st))) as [[id r]|].
    + destruct Hfr as [Hr Href].
      rewrite (updateRepaymentStatus_run st id r update now Hr).
      cbn [fst snd ledger disbursement repayment loanContract].
      split; [reflexivity|]. split; [reflexivity|]. split.
      { apply dom_insert_lookup_L. eauto. }
      split; [reflexivity|]. split.
      { intros id' Hne. apply lookup_insert_ne. intros <-.
        apply Hne. now rewrite Hr. }
      split.
      { intros (id' & d & Hd & Hdref). destruct (Hfd id' d Hd Hdref). }
      split; [reflexivity|].
      intros _ Hnone. destruct (Hnone id r Hr Href).
    + cbn. repeat split; reflexivity.
Qed.

(** *** Replays *)

Lemma disbursementAfter_absorbs (update : TransferStatusUpdate) (now1 now2 : Z)
      (d : Disbursement) :
  disbursementAfter update now2 (disbursementAfter update now1 d)
  = disbursementAfter update now2 d.
Proof.
  unfold disbursementAfter. cbn.
  destruct (status update), (failureReason update); reflexivity.
Qed.

Lemma repaymentAfter_absorbs (update : TransferStatusUpdate) (now1 now2 : Z)
      (r : Repayment) :
  repaymentAfter update now2 (repaymentAfter update now1 r)
  = repaymentAfter update now2 r.
Proof.
  unfold repaymentAfter. cbn.
  destruct (status update), (failureReason update); reflexivity.
Qed.

Lemma updateDisbursementStatus_store (st : Store) (id : string)
      (update : TransferStatusUpdate) (now : Z) :
  (updateDisbursementStatus id update now st).1.1
  = match disbursement st !! id with
    | None => st
    | Some d =>
        mkStore (<[id := disbursementAfter update now d]> (disbursement st))
          (repayment st)
          (if isCompleted (status update) then
             match loanContract st !! disb_contractId d with
             | Some c => <[disb_contractId d :=
                             mkLoanContract (lc_tenantId c) ACTIVE (Some now)]>
                           (loanContract st)
             | None => loanContract st
             end
           else loanContract st)
          (ledger st)
    end.
Proof.
  unfold updateDisbursementStatus.
  rewrite transfer_bind_run. unfold disbursement_update.
  destruct (disbursement st !! id) as [d|] eqn:Hd; [|reflexivity].
  destruct (isCompleted (status update)); [|reflexivity].
  rewrite transfer_bind_run. unfold disbursement_findUnique.
  cbn [disbursement]. rewrite lookup_insert_eq.
  unfold loanContract_update. cbn [loanContract disb_contractId disbursementAfter].
  destruct (loanContract st !! disb_contractId d); reflexivity.
Qed.

Lemma updateRepaymentStatus_store (st : Store) (id : string)
      (update : TransferStatusUpdate) (now : Z) :
  (updateRepaymentStatus id update now st).1.1
  = match repayment st !! id with
    | None => st
    | Some r =>
        mkStore (disbursement st)
          (<[id := repaymentAfter update now r]> (repayment st))
          (loanContract st) (ledger st)
    end.
Proof.
  unfold updateRepaymentStatus, repayment_update.
  destruct (repayment st !! id); reflexivity.
Qed.

(** X19.  A replayed update is absorbed: applying the same status update
    to a record at time [now1] and again at time [now2] leaves the store
    exactly as applying it once at [now2], for disbursements (with their
    contract) and for repayments. *)
Theorem status_update_replay (st : Store) (id : string)
        (update : TransferStatusUpdate) (now1 now2 : Z) :
  (updateDisbursementStatus id update now2
     (updateDisbursementStatus id update now1 st).1.1).1.1
  = (updateDisbursementStatus id update now2 st).1.1
  /\ (updateRepaymentStatus id update now2
        (updateRepaymentStatus id update now1 st).1.1).1.1
     = (updateRepaymentStatus id update now2 st).1.1.
Proof.
  split.
  - rewrite !updateDisbursementStatus_store.
    destruct (disbursement st !! id) as [d|] eqn:Hd;
      [|now rewrite Hd].
    cbn [disbursement repayment loanContract ledger].
    rewrite lookup_insert_eq, disbursementAfter_absorbs, insert_insert_eq.
    cbn [disb_contractId disbursementAfter].
    destruct (isCompleted (status update)); [|reflexivity].
    destruct (loanContract st !! disb_contractId d) as [c|] eqn:Hc.
    + now rewrite lookup_insert_eq, insert_insert_eq.
    + now rewrite Hc.
  - rewrite !updateRepaymentStatus_store.
    destruct (repayment st !! id) as [r|] eqn:Hr; [|now rewrite Hr].
    cbn [disbursement repayment loanContract ledger].
    now rewrite lookup_insert_eq, repaymentAfter_absorbs, insert_insert_eq.
Qed.

End TransferFrameProofs.

(* --------------------------------------------------------------------- *)
(** ** Webhook events *)

Module WebhookEventProofs.
Import Common JS Transfer Webhook TransferProofs TransferFrameProofs.

(** *** The signature check *)

Lemma timingSafeEqualOrFalse_eq (a b : string) :
  timingSafeEqualOrFalse a b = true <-> a = b.
Proof.
  unfold timingSafeEqualOrFalse. split.
  - destruct (String.length a =? String.length b)%nat; [|discriminate].
    apply String.eqb_eq.
  - intros ->. rewrite Nat.eqb_refl. apply String.eqb_refl.
Qed.

(** X20.  [verifySignature]: with a webhook secret configured it accepts
    exactly the signature that is the HMAC of [timestamp.payload] under the
    secret; without a secret it accepts every signature in a development
    deployment and throws INVALID_REQUEST in any other. *)
Theorem verify_signature_outcome (hmacSha256Hex : string -> string -> string)
        (env : Env) (payload signature timestamp : string) :
  (forall secret, MOOV_WEBHOOK_SECRET env = Some secret -> secret <> "" ->
     exists isValid,
       verifySignature hmacSha256Hex env (Some payload) signature timestamp
       = Ok isValid
       /\ (isValid = true
           <-> signature
               = hmacSha256Hex secret (timestamp +:+ "." +:+ payload)))
  /\ (MOOV_WEBHOOK_SECRET env = None \/ MOOV_WEBHOOK_SECRET env = Some "" ->
      (NODE_ENV env = "development" ->
       verifySignature hmacSha256Hex env (Some payload) signature timestamp
       = Ok true)
      /\ (NODE_ENV env <> "development" ->
          failsWith INVALID_REQUEST
            (verifySignature hmacSha256Hex env (Some payload) signature
               timestamp))).
Proof.
  unfold verifySignature. split.
  - intros secret -> Hne. cbn [present].
    apply String.eqb_neq in Hne. rewrite Hne. cbn [negb default].
    eexists. split; [reflexivity|]. apply timingSafeEqualOrFalse_eq.
  - intros Hnone.
    assert (Hp : present (MOOV_WEBHOOK_SECRET env) = false)
      by (destruct Hnone as [-> | ->]; reflexivity).
    rewrite Hp. cbn [negb]. split.
    + intros ->. reflexivity.
    + intros Hne. apply String.eqb_neq in Hne. rewrite Hne.
      eexists. reflexivity.
Qed.

(** *** Events *)

Lemma moov_status_range (s : string) (status : TransferStatus) :
  MOOV_TRANSFER_STATUS_MAP !! s = Some status ->
  (s = "created" /\ status = pending)
  \/ (s = "pending" /\ status = processing)
  \/ (s = "completed" /\ status = completed)
  \/ (s = "failed" /\ status = failed)
  \/ (s = "reversed" /\ status = returned).
Proof.
  intros Hs. apply elem_of_list_to_map_2 in Hs.
  rewrite !elem_of_cons, elem_of_nil in Hs.
  destruct Hs as [[=]|[[=]|[[=]|[[=]|[[=]|[]]]]]]; subst; tauto.
Qed.

(** The rows after [processStatusUpdate]: each row is as before, or is the
    row the update was applied to. *)
Lemma processStatusUpdate_rows (st : Store) (update : TransferStatusUpdate)
      (now : Z) :
  let st' := (processStatusUpdate update now st).1.1 in
  (forall id d', disbursement st' !! id = Some d' ->
     disbursement st !! id = Some d'
     \/ exists d, disbursement st !! id = Some d
                  /\ d' = disbursementAfter update now d)
  /\ (forall id r', repayment st' !! id = Some r' ->
        repayment st !! id = Some r'
        \/ exists r, repayment st !! id = Some r
                     /\ r' = repaymentAfter update now r).
Proof.
  cbv zeta. unfold processStatusUpdate.
  rewrite transfer_bind_run. unfold disbursement_findFirst.
  pose proof (findFirst_disbursement st (providerTransferId update)) as Hfd.
  destruct (List.find _ (map_to_list (disbursement st))) as [[id d]|].
  - destruct Hfd as [Hd Href].
    destruct (updateDisbursementStatus_run st id d update now Hd)
      as (contracts & commits & r & -> & _).
    cbn [fst snd disbursement repayment]. split; [|auto].
    intros id' d'. destruct (decide (id = id')) as [<-|Hne].
    + rewrite lookup_insert_eq. intros [= <-]. right. eauto.
    + rewrite lookup_insert_ne by assumption. auto.
  - rewrite transfer_bind_run. unfold repayment_findFirst.
    pose proof (findFirst_repayment st (providerTransferId update)) as Hfr.
    destruct (List.find _ (map_to_list (repayment st))) as [[id r]|].
    + destruct Hfr as [Hr Href].
      rewrite (updateRepaymentStatus_run st id r update now Hr).
      cbn [fst snd disbursement repayment]. split; [auto|].
      intros id' r'. destruct (decide (id = id')) as [<-|Hne].
      * rewrite lookup_insert_eq. intros [= <-]. right. eauto.
      * rewrite lookup_insert_ne by assumption. auto.
    + cbn. auto.
Qed.

(** X21.  [processEvent] acts on the data of a transfer event, not on its
    type; the data is truthy, as [parseEvent] requires.  An event whose
    type is not one of the five transfer types returns without any write.
    For an event of a transfer type the status is read from [data.status]
    through [MOOV_TRANSFER_STATUS_MAP], whatever the type says: a status
    of the table is passed to [processStatusUpdate] with the string
    [data.transferID] and the [failureReason] (a string, if any); with a
    declared status (a string, if any, that does not name a property
    inherited from [Object.prototype]) that is not in the table, or with
    none, the event returns without any write. *)
Theorem webhook_event_dispatch (event : MoovWebhookEvent) (now : Z) (st : Store) :
  (handlerOf (ev_type event) <> handleTransferEvent ->
   truthy (data event) = true ->
   processEvent event now st = (st, [], Ok tt))
  /\ (handlerOf (ev_type event) = handleTransferEvent ->
      (forall s status transferID,
          stringField "status" (data event) = Some s ->
          MOOV_TRANSFER_STATUS_MAP !! s = Some status ->
          stringField "transferID" (data event) = Some transferID ->
          optionalString "failureReason" (data event) ->
          processEvent event now st
          = processStatusUpdate
              (mkTransferStatusUpdate transferID status
                 (stringField "failureReason" (data event))) now st)
      /\ (truthy (data event) = true ->
          declaredStatus (data event) ->
          stringField "status" (data event) ≫= (MOOV_TRANSFER_STATUS_MAP !!.)
          = None ->
          processEvent event now st = (st, [], Ok tt))).
Proof.
  unfold processEvent. split.
  - intros Hother _.
    destruct (handlerOf (ev_type event)); try reflexivity. congruence.
  - intros ->. unfold runTransferHandler. split.
    + intros s status transferID -> Hs -> _. cbn [mbind option_bind].
      now rewrite Hs.
    + intros _ _ ->. reflexivity.
Qed.

(** X22.  What webhook ingestion never does.  For every event that is not
    of a transfer type, and every transfer event whose data is of the
    declared type, a disbursement row that changes ends PENDING, COMPLETED
    or FAILED, and a repayment row that changes ends PENDING, COMPLETED,
    FAILED or RETURNED; no such event sets a record to CANCELLED, INITIATED
    or SCHEDULED, and the ledger is never written. *)
Theorem webhook_never_cancels (event : MoovWebhookEvent) (now : Z) (st : Store) :
  (handlerOf (ev_type event) = handleTransferEvent ->
   declaredTransferData (data event)) ->
  let st' := (processEvent event now st).1.1 in
  (forall id d', disbursement st' !! id = Some d' ->
     disbursement st !! id = Some d'
     \/ disb_status d' = PENDING \/ disb_status d' = COMPLETED
     \/ disb_status d' = FAILED)
  /\ (forall id r', repayment st' !! id = Some r' ->
        repayment st !! id = Some r'
        \/ rep_status r' = PENDING \/ rep_status r' = COMPLETED
        \/ rep_status r' = FAILED \/ rep_status r' = RETURNED)
  /\ ledger st' = ledger st.
Proof.
  intros _. cbv zeta. unfold processEvent.
  destruct (handlerOf (ev_type event)); try (cbn; auto).
  unfold runTransferHandler.
  destruct (stringField "status" (data event)) as [s|]; [|cbn; auto].
  cbn [mbind option_bind].
  destruct (MOOV_TRANSFER_STATUS_MAP !! s) as [status|] eqn:Hs; [|cbn; auto].
  destruct (stringField "transferID" (data event)) as [ref|]; [|cbn; auto].
  set (update := mkTransferStatusUpdate ref status _).
  destruct (processStatusUpdate_rows st update now) as [Hd Hr].
  pose proof (status_update_frame_ledger st update now) as Hledger.
  apply moov_status_range in Hs.
  split; [|split; [|exact Hledger]].
  - intros id d' [Hsame|(d & _ & ->)]%Hd; [now left|right].
    subst update. cbn [disb_status disbursementAfter Transfer.status].
    decompose [and or] Hs; subst; cbn; auto.
  - intros id r' [Hsame|(r & _ & ->)]%Hr; [now left|right].
    subst update. cbn [rep_status repaymentAfter Transfer.status].
    decompose [and or] Hs; subst; cbn; auto.
Qed.

Lemma webhook_never_cancels_witness :
  Transfer.ledger
    (processEvent
       (mkEvent (JStr "evt-1") (JStr "transfer.completed")
          (JObj [ ("transferID", JStr "moov-xfer-1");
                  ("status", JStr "completed") ]))
       9000 (exampleStore PENDING AV_PENDING ACTIVE)).1.1
  = Transfer.ledger (exampleStore PENDING AV_PENDING ACTIVE).
Proof.
  apply (webhook_never_cancels
           (mkEvent (JStr "evt-1") (JStr "transfer.completed")
              (JObj [ ("transferID", JStr "moov-xfer-1");
                      ("status", JStr "completed") ]))
           9000 (exampleStore PENDING AV_PENDING ACTIVE)).
  intros _. split; [eexists; reflexivity|]. split.
  - split; [right; eexists; reflexivity|]. intros s [= <-]. reflexivity.
  - left. reflexivity.
Defined.

End WebhookEventProofs.

(* --------------------------------------------------------------------- *)
(** ** The checks of a reconciliation run *)

Module ReconciliationChecksProofs.
Import Common JS Reconciliation ReconciliationChecks ReconciliationProofs.
Import LedgerBookProofs.

(** X23.  The severity of an amount never decreases when the amount
    grows, whatever the thresholds of the configuration; with the default
    thresholds it is low below 1 000 cents, medium below 10 000, high below
    100 000 and critical from there. *)
Theorem severity_grows_with_amount (cfg : ReconciliationConfig) (a b : Z) :
  (a <= b ->
   (severityRank (calculateSeverity cfg a)
    <= severityRank (calculateSeverity cfg b))%nat)
  /\ calculateSeverity DEFAULT_RECONCILIATION_CONFIG a
     = (if a <? 1000 then low
        else if a <? 10000 then medium
        else if a <? 100000 then high
        else critical).
Proof.
  unfold calculateSeverity. rewrite !Z.geb_leb. split.
  - intros Hab.
    repeat match goal with
           | |- context [?x <=? ?y] => destruct (Z.leb_spec x y)
           end; cbn; lia.
  - cbn [criticalSeverityThresholdCents highSeverityThresholdCents
         DEFAULT_RECONCILIATION_CONFIG].
    repeat match goal with
           | |- context [?x <=? ?y] => destruct (Z.leb_spec x y)
           | |- context [?x <? ?y] => destruct (Z.ltb_spec x y)
           end; try reflexivity; lia.
Qed.


(** *** The counters of the detection loops *)

Lemma accountsFor_refl (s : TransferSummary) : accountsFor s s [] 0.
Proof. unfold accountsFor, exceptionsCounted. cbn. lia. Qed.

Lemma accountsFor_trans (s1 s2 s3 : TransferSummary)
      (f1 f2 : list ReconciliationException) (k1 k2 : Z) :
  accountsFor s1 s2 f1 k1 -> accountsFor s2 s3 f2 k2 ->
  accountsFor s1 s3 (f1 ++ f2) (k1 + k2).
Proof.
  unfold accountsFor, exceptionsCounted. rewrite length_app, Nat2Z.inj_add. lia.
Qed.

Lemma accountsFor_more (s s' : TransferSummary)
      (found : list ReconciliationException) (k k' : Z) :
  k <= k' -> accountsFor s s' found k -> accountsFor s s' found k'.
Proof. unfold accountsFor. lia. Qed.

Section Counters.
Variable toISOString : Z -> string.
Variable cfg : ReconciliationConfig.
Variables (now : Z) (tenant : string).

Local Abbreviation detected := (detectedBy tenant now).

Lemma compareWithProvider_counts (recordType : LocalRecordType) (id : string)
      (providerRef : option string) (recordStatus : Transfer.RecordStatus)
      (amountCents : Z) (providerRecord : ProviderTransferRecord)
      (summary : TransferSummary) :
  let out := compareWithProvider cfg now tenant recordType id providerRef
               recordStatus amountCents providerRecord summary in
  accountsFor summary out.1 out.2 1
  /\ checked out.1 = checked summary
  /\ missing out.1 = missing summary
  /\ Forall (fun e => detected e /\ type e <> transfer_missing) out.2.
Proof.
  cbv zeta. unfold compareWithProvider. cbv zeta.
  destruct (negb (String.eqb _ _)).
  - cbn [fst snd]. unfold accountsFor, exceptionsCounted, detectedBy. cbn.
    repeat split; try lia. repeat constructor; cbn; congruence.
  - destruct (negb (amountCents =? _)).
    + cbn [fst snd]. unfold accountsFor, exceptionsCounted, detectedBy. cbn.
      repeat split; try lia. repeat constructor; cbn; congruence.
    + cbn [fst snd]. unfold accountsFor, exceptionsCounted. cbn.
      repeat split; try lia. constructor.
Qed.

Lemma checkDisbursement_counts
      (acc : JsMap ProviderTransferRecord * TransferSummary
             * list ReconciliationException)
      (row : string * Transfer.Disbursement) :
  let out := checkDisbursement toISOString cfg now tenant acc row in
  exists found,
    out.2 = acc.2 ++ found
    /\ accountsFor acc.1.2 out.1.2 found 1
    /\ checked out.1.2 = checked acc.1.2
    /\ missing out.1.2 = missing acc.1.2
    /\ Forall (fun e => detected e /\ type e <> transfer_missing) found.
Proof.
  cbv zeta. destruct acc as [[m summary] exceptions], row as [id d].
  unfold checkDisbursement.
  destruct (Transfer.disb_providerRef d ≫= mapGet m) as [providerRecord|].
  - pose proof (compareWithProvider_counts disbursement id
                  (Transfer.disb_providerRef d) (Transfer.disb_status d)
                  (Transfer.disb_amountCents d) providerRecord summary) as H.
    cbv zeta in H.
    destruct (compareWithProvider _ _ _ _ _ _ _ _ _ _) as [summary' found].
    cbn [fst snd] in *. exists found. tauto.
  - destruct (olderThan24h _ _).
    + eexists. split; [reflexivity|]. cbn [fst snd].
      unfold accountsFor, exceptionsCounted, detectedBy. cbn.
      repeat split; try lia. repeat constructor; cbn; congruence.
    + exists []. cbn [fst snd]. rewrite app_nil_r.
      split; [reflexivity|].
      split; [|split; [reflexivity|split; [reflexivity|constructor]]].
      apply (accountsFor_more _ _ _ 0); [lia|apply accountsFor_refl].
Qed.

Lemma checkRepayment_counts (m : JsMap ProviderTransferRecord)
      (acc : TransferSummary * list ReconciliationException)
      (row : string * Transfer.Repayment) :
  let out := checkRepayment toISOString cfg now tenant m acc row in
  exists found,
    out.2 = acc.2 ++ found
    /\ accountsFor acc.1 out.1 found 1
    /\ checked out.1 = checked acc.1
    /\ missing out.1 = missing acc.1
    /\ Forall (fun e => detected e /\ type e <> transfer_missing) found.
Proof.
  cbv zeta. destruct acc as [summary exceptions], row as [id r].
  unfold checkRepayment.
  destruct (Transfer.rep_providerRef r ≫= mapGet m) as [providerRecord|].
  - pose proof (compareWithProvider_counts repayment id
                  (Transfer.rep_providerRef r) (Transfer.rep_status r)
                  (Transfer.rep_amountCents r) providerRecord summary) as H.
    cbv zeta in H.
    destruct (compareWithProvider _ _ _ _ _ _ _ _ _ _) as [summary' found].
    cbn [fst snd] in *. exists found. tauto.
  - destruct (match Transfer.rep_initiatedAt r with
              | Some t => olderThan24h now t
              | None => false
              end).
    + eexists. split; [reflexivity|]. cbn [fst snd].
      unfold accountsFor, exceptionsCounted, detectedBy. cbn.
      repeat split; try lia. repeat constructor; cbn; congruence.
    + exists []. cbn [fst snd]. rewrite app_nil_r.
      split; [reflexivity|].
      split; [|split; [reflexivity|split; [reflexivity|constructor]]].
      apply (accountsFor_more _ _ _ 0); [lia|apply accountsFor_refl].
Qed.


Lemma fold_checkRepayment_counts (m : JsMap ProviderTransferRecord)
      (rows : list (string * Transfer.Repayment)) :
  forall acc : TransferSummary * list ReconciliationException,
  let out := fold_left (checkRepayment toISOString cfg now tenant m) rows acc in
  exists found,
    out.2 = acc.2 ++ found
    /\ accountsFor acc.1 out.1 found (Z.of_nat (length rows))
    /\ checked out.1 = checked acc.1
    /\ missing out.1 = missing acc.1
    /\ Forall (fun e => detected e /\ type e <> transfer_missing) found.
Proof.
  induction rows as [|row rows IH]; intros acc; cbv zeta.
  - exists []. cbn [fold_left length]. rewrite app_nil_r.
    split; [reflexivity|]. split; [apply accountsFor_refl|].
    repeat split; constructor.
  - cbn [fold_left].
    destruct (checkRepayment_counts m acc row) as (f1 & Hf1 & Ha1 & Hc1 & Hm1 & Hp1).
    destruct (IH (checkRepayment toISOString cfg now tenant m acc row))
      as (f2 & Hf2 & Ha2 & Hc2 & Hm2 & Hp2).
    exists (f1 ++ f2). rewrite Hf2, Hf1, app_assoc.
    split; [reflexivity|]. split.
    + replace (Z.of_nat (length (row :: rows)))
        with (1 + Z.of_nat (length rows)) by (cbn [length]; lia).
      eapply accountsFor_trans; eassumption.
    + split; [congruence|]. split; [congruence|]. now apply Forall_app.
Qed.

Lemma fold_checkDisbursement_counts (rows : list (string * Transfer.Disbursement)) :
  forall acc : JsMap ProviderTransferRecord * TransferSummary
               * list ReconciliationException,
  let out := fold_left (checkDisbursement toISOString cfg now tenant) rows acc in
  exists found,
    out.2 = acc.2 ++ found
    /\ accountsFor acc.1.2 out.1.2 found (Z.of_nat (length rows))
    /\ checked out.1.2 = checked acc.1.2
    /\ missing out.1.2 = missing acc.1.2
    /\ Forall (fun e => detected e /\ type e <> transfer_missing) found.
Proof.
  induction rows as [|row rows IH]; intros acc; cbv zeta.
  - exists []. cbn [fold_left length]. rewrite app_nil_r.
    split; [reflexivity|]. split; [apply accountsFor_refl|].
    repeat split; constructor.
  - cbn [fold_left].
    destruct (checkDisbursement_counts acc row) as (f1 & Hf1 & Ha1 & Hc1 & Hm1 & Hp1).
    destruct (IH (checkDisbursement toISOString cfg now tenant acc row))
      as (f2 & Hf2 & Ha2 & Hc2 & Hm2 & Hp2).
    exists (f1 ++ f2). rewrite Hf2, Hf1, app_assoc.
    split; [reflexivity|]. split.
    + replace (Z.of_nat (length (row :: rows)))
        with (1 + Z.of_nat (length rows)) by (cbn [length]; lia).
      eapply accountsFor_trans; eassumption.
    + split; [congruence|]. split; [congruence|]. now apply Forall_app.
Qed.

(** The loop over the provider transfers that no local record claimed. *)
Lemma fold_missing_counts (remaining : JsMap ProviderTransferRecord) :
  forall acc : TransferSummary * list ReconciliationException,
  let out :=
    fold_left
      (fun acc entry =>
         let '(summary, exceptions) := acc in
         let '(transferId, providerRecord) := entry in
         if isDisbursementTransfer providerRecord then
           (bump_missing summary,
            exceptions ++
            [ createException now tenant transfer_missing
                (calculateSeverity cfg (pt_amountCents providerRecord))
                None None (Some transferId)
                None (Some (providerRecordJson toISOString providerRecord))
                None
                ("Provider transfer " +:+ transferId
                 +:+ " not found in local disbursements") ])
         else acc)
      remaining acc in
  exists found,
    out.2 = acc.2 ++ found
    /\ accountsFor acc.1 out.1 found 0
    /\ checked out.1 = checked acc.1
    /\ Forall (fun e => detected e /\ type e = transfer_missing) found.
Proof.
  induction remaining as [|[transferId providerRecord] remaining IH];
    intros [summary exceptions]; cbv zeta.
  - exists []. cbn [fold_left length]. rewrite app_nil_r.
    split; [reflexivity|]. split; [apply accountsFor_refl|].
    repeat split; constructor.
  - cbn [fold_left]. destruct (isDisbursementTransfer providerRecord).
    + match goal with
      | |- context [fold_left ?f remaining ?a] =>
          destruct (IH a) as (f2 & Hf2 & Ha2 & Hc2 & Hp2)
      end.
      cbv zeta in *. eexists (_ :: f2). rewrite Hf2. cbn [fst snd] in *.
      rewrite <- app_assoc. split; [reflexivity|]. split.
      * revert Ha2. unfold accountsFor, exceptionsCounted.
        cbn [length bump_missing matched statusMismatch amountMismatch
             missing orphaned].
        rewrite Nat2Z.inj_succ. lia.
      * split; [exact Hc2|]. constructor; [|assumption].
        unfold detectedBy. cbn. auto.
    + apply (IH (summary, exceptions)).
Qed.

End Counters.


Lemma accountsFor_set_checked (summary s' : TransferSummary) (n : Z)
      (found : list ReconciliationException) (rows : Z) :
  accountsFor (set_checked summary n) s' found rows ->
  accountsFor summary s' found rows.
Proof. unfold accountsFor, exceptionsCounted. cbn. tauto. Qed.

(** X24.  The counters of a detection pass account for its exceptions.
    After [reconcileDisbursements], and after [reconcileRepayments],
    [checked] is the number of local records read; no counter has
    decreased; the counters of status mismatches, amount mismatches,
    missing and orphaned transfers have grown by exactly the number of
    exceptions returned; the records counted as matched, mismatched or
    orphaned are at most the records checked; every exception is open, of
    the tenant, detected at the time of the run.  [reconcileRepayments]
    never reports a missing transfer. *)
Theorem detection_counters (toISOString : Z -> string)
        (cfg : ReconciliationConfig) (st : Transfer.Store)
        (providerTransfers : list ProviderTransferRecord) (now : Z)
        (tenant : string) (periodStart periodEnd : Z)
        (summary : TransferSummary) :
  let disb := reconcileDisbursements toISOString cfg st providerTransfers now
                tenant periodStart periodEnd summary in
  let rep := reconcileRepayments toISOString cfg st providerTransfers now
               tenant periodStart periodEnd summary in
  (checked disb.1
   = Z.of_nat (length (disbursementsInPeriod st tenant periodStart periodEnd))
   /\ accountsFor summary disb.1 disb.2 (checked disb.1)
   /\ Forall (detectedBy tenant now) disb.2)
  /\ (checked rep.1
      = Z.of_nat (length (repaymentsInPeriod st tenant periodStart periodEnd))
      /\ accountsFor summary rep.1 rep.2 (checked rep.1)
      /\ missing rep.1 = missing summary
      /\ Forall (fun e => detectedBy tenant now e /\ type e <> transfer_missing)
           rep.2).
Proof.
  cbv zeta. split.
  - unfold reconcileDisbursements. cbv zeta.
    set (rows := disbursementsInPeriod st tenant periodStart periodEnd).
    set (acc0 := (mapOfPairs _, set_checked summary (Z.of_nat (length rows)),
                  @nil ReconciliationException)).
    destruct (fold_checkDisbursement_counts toISOString cfg now tenant rows acc0)
      as (f1 & Hf1 & Ha1 & Hc1 & _ & Hp1).
    cbv zeta in *.
    destruct (fold_left (checkDisbursement toISOString cfg now tenant) rows acc0)
      as [[remaining s1] e1].
    subst acc0. cbn [fst snd app] in *. subst e1.
    destruct (fold_missing_counts toISOString cfg now tenant remaining (s1, f1))
      as (f2 & Hf2 & Ha2 & Hc2 & Hp2).
    cbv zeta in *. cbv beta iota.
    match goal with
    | |- context [fold_left ?f remaining (s1, f1)] =>
        destruct (fold_left f remaining (s1, f1)) as [s2 e2]
    end.
    cbn [fst snd] in *. subst e2.
    assert (Hchecked : checked s2 = Z.of_nat (length rows))
      by (rewrite Hc2, Hc1; reflexivity).
    split; [exact Hchecked|]. split.
    + rewrite Hchecked. apply (accountsFor_set_checked _ _ (Z.of_nat (length rows))).
      replace (Z.of_nat (length rows)) with (Z.of_nat (length rows) + 0) at 2 by lia.
      eapply accountsFor_trans; eassumption.
    + apply Forall_app. split.
      * eapply Forall_impl; [exact Hp1|]. cbn. tauto.
      * eapply Forall_impl; [exact Hp2|]. cbn. tauto.
  - unfold reconcileRepayments. cbv zeta.
    set (rows := repaymentsInPeriod st tenant periodStart periodEnd).
    set (acc0 := (set_checked summary (Z.of_nat (length rows)),
                  @nil ReconciliationException)).
    destruct (fold_checkRepayment_counts toISOString cfg now tenant
                (mapOfPairs (map (fun t => (transferId t, t)) providerTransfers))
                rows acc0)
      as (f1 & Hf1 & Ha1 & Hc1 & Hm1 & Hp1).
    cbv zeta in *.
    destruct (fold_left _ rows acc0) as [s1 e1].
    subst acc0. cbn [fst snd app] in *. subst e1.
    assert (Hchecked : checked s1 = Z.of_nat (length rows))
      by (rewrite Hc1; reflexivity).
    split; [exact Hchecked|]. split; [|split; [exact Hm1|exact Hp1]].
    rewrite Hchecked.
    now apply (accountsFor_set_checked _ _ (Z.of_nat (length rows))).
Qed.


(** X25.  A status mismatch hides an amount mismatch.  For a record whose
    normalized status differs from the provider's, the comparison raises one
    [transfer_status] exception without discrepancy amount, whatever the two
    amounts are, and whether it can be auto-resolved does not depend on the
    configured threshold.  Once the record is COMPLETED and the provider
    status normalizes to 'completed', the same comparison counts the record
    as matched when the amounts agree and otherwise raises an
    [amount_mismatch] exception of their absolute difference, which cannot
    be auto-resolved. *)
Theorem status_mismatch_hides_amount (cfg : ReconciliationConfig) (now : Z)
        (tenant : string) (recordType : LocalRecordType) (id : string)
        (providerRef : option string) (recordStatus : Transfer.RecordStatus)
        (amountCents : Z) (providerRecord : ProviderTransferRecord)
        (summary : TransferSummary) :
  normalizeStatus (statusName recordStatus)
  <> normalizeStatus (pt_status providerRecord) ->
  (exists e,
     compareWithProvider cfg now tenant recordType id providerRef recordStatus
       amountCents providerRecord summary
     = (bump_statusMismatch summary, [e])
     /\ type e = transfer_status
     /\ discrepancyAmountCents e = None
     /\ forall cfg', canAutoResolve cfg' e = canAutoResolve cfg e)
  /\ (normalizeStatus (pt_status providerRecord) = "completed" ->
      forall now' summary',
        let rerun :=
          compareWithProvider cfg now' tenant recordType id providerRef
            Transfer.COMPLETED amountCents providerRecord summary' in
        (amountCents = pt_amountCents providerRecord ->
         rerun = (bump_matched summary', []))
        /\ (amountCents <> pt_amountCents providerRecord ->
            exists e',
              rerun = (bump_amountMismatch summary', [e'])
              /\ type e' = amount_mismatch
              /\ discrepancyAmountCents e'
                 = Some (Z.abs (amountCents - pt_amountCents providerRecord))
              /\ canAutoResolve cfg e' = false)).
Proof.
  intros Hdiff. split.
  - unfold compareWithProvider. cbv zeta.
    apply String.eqb_neq in Hdiff. rewrite Hdiff. cbn [negb].
    eexists. split; [reflexivity|]. repeat split.
  - intros Hcompleted now' summary'. cbv zeta.
    unfold compareWithProvider. cbv zeta. rewrite Hcompleted.
    change (normalizeStatus (statusName Transfer.COMPLETED)) with "completed".
    rewrite String.eqb_refl. cbn [negb]. split.
    + intros ->. now rewrite Z.eqb_refl.
    + intros Hne. apply Z.eqb_neq in Hne. rewrite Hne. cbn [negb].
      eexists. split; [reflexivity|]. repeat split.
Qed.


Lemma status_mismatch_hides_amount_witness :
  exists e,
    compareWithProvider DEFAULT_RECONCILIATION_CONFIG 9000 "tenant-1"
      disbursement "disb-1" (Some "moov-xfer-1") Transfer.PENDING 50000
      (mkProviderTransfer "moov-xfer-1" "completed" 49000 1000 (Some 4000) None)
      emptySummary
    = (bump_statusMismatch emptySummary, [e])
    /\ type e = transfer_status
    /\ discrepancyAmountCents e = None.
Proof.
  destruct (status_mismatch_hides_amount DEFAULT_RECONCILIATION_CONFIG 9000
              "tenant-1" disbursement "disb-1" (Some "moov-xfer-1")
              Transfer.PENDING 50000
              (mkProviderTransfer "moov-xfer-1" "completed" 49000 1000
                 (Some 4000) None)
              emptySummary) as [(e & Hrun & Htype & Hamount & _) _].
  - vm_compute. discriminate.
  - exists e. split; [exact Hrun|]. split; [exact Htype | exact Hamount].
Defined.


End ReconciliationChecksProofs.

(* --------------------------------------------------------------------- *)
(** ** The operator's reversal route *)

Module OperatorProofs.
Import Common Ledger LedgerBook Operator.
Import LedgerProofs LedgerBookProofs.

(** The route either throws and leaves the store as it was, or performs
    the writes of the reversal. *)
Lemma reverseJournalRoute_cases (request : ReverseRequest) (st : Store) :
  (exists e, reverseJournalRoute request st = (st, Thrown e)
             /\ ~ reversalAllowed request st)
  \/ (exists reason journal,
        rq_reason request = Some reason
        /\ ledgerJournal (Transfer.ledger (tables st)) !! rq_journalId request
           = Some journal
        /\ reversalAllowed request st
        /\ reverseJournalRoute request st
           = (mkStore
                (Transfer.mkStore (Transfer.disbursement (tables st))
                   (Transfer.repayment (tables st))
                   (Transfer.loanContract (tables st))
                   (reversalWrites (Transfer.ledger (tables st))
                      (rq_journalId request) journal reason (rq_user request)))
                (auditLog st
                 ++ [ mkAuditLog (user_tenantId (rq_user request))
                        (sub (rq_user request)) "journal_reversal"
                        "LedgerJournal" (rq_journalId request) reason
                        (freshJournalId (Transfer.ledger (tables st)))
                        (map entryOfRow
                           (entriesOfJournal (Transfer.ledger (tables st))
                              (rq_journalId request))) ]),
              Replied (mkReversalReply
                         (freshJournalId (Transfer.ledger (tables st)))
                         (rq_journalId request) reason
                         (map swapRow
                            (entriesOfJournal (Transfer.ledger (tables st))
                               (rq_journalId request)))))).
Proof.
  unfold reverseJournalRoute, reversalAllowed. cbv zeta.
  destruct (rq_reason request) as [reason|].
  2:{ left. eexists. split; [reflexivity|]. intros [(r & [=] & _) _]. }
  destruct (Nat.ltb_spec (JS.utf16Length reason) 10) as [Hshort|Hlong].
  { left. eexists. split; [reflexivity|]. intros [(r & [= <-] & Hr) _]. lia. }
  destruct (String.eqb_spec (role (rq_user request)) "ADMIN") as [Hrole|Hrole];
    cbn [negb].
  2:{ left. eexists. split; [reflexivity|]. tauto. }
  destruct (tokenGiven (rq_stepUpToken request)) eqn:Htoken; cbn [negb].
  2:{ left. eexists. split; [reflexivity|]. intros (_ & _ & [=] & _). }
  destruct (ledgerJournal (Transfer.ledger (tables st)) !! rq_journalId request)
    as [journal|].
  2:{ left. eexists. split; [reflexivity|]. intros (_ & _ & _ & j & [=] & _). }
  destruct (ofOtherTenant st journal _) eqn:Htenant.
  { left. eexists. split; [reflexivity|].
    intros (_ & _ & _ & j & [= <-] & Hj & _). congruence. }
  destruct (j_reversedByJournalId journal) as [rid|] eqn:Hrev.
  { rewrite bool_decide_eq_true_2 by discriminate.
    left. eexists. split; [reflexivity|].
    intros (_ & _ & _ & j & [= <-] & _ & Hj & _). congruence. }
  rewrite bool_decide_eq_false_2 by (intros H; now apply H).
  destruct (j_isReversal journal) eqn:Hisrev.
  { left. eexists. split; [reflexivity|].
    intros (_ & _ & _ & j & [= <-] & _ & _ & Hj). congruence. }
  right. exists reason, journal. repeat split; eauto 10.
Qed.

(** X27.  The operator route reverses a journal exactly when the reason
    has a [length] of at least 10 (UTF-16 code units, so a character
    outside ASCII counts one unit, or two beyond the basic plane, however
    many bytes hold it), the user is an ADMIN, a step-up token is
    given, the journal exists, is not of a contract of another tenant, has
    not been reversed and is not itself a reversal; otherwise it throws and
    writes nothing.  In particular it refuses to reverse a reversal
    journal, which [LedgerService.reverseJournal] accepts. *)
Theorem operator_reversal_guards (request : ReverseRequest) (st : Store) :
  ((exists st' reply, reverseJournalRoute request st = (st', Replied reply))
   <-> reversalAllowed request st)
  /\ (forall st' e, reverseJournalRoute request st = (st', Thrown e) -> st' = st)
  /\ (forall journal,
        ledgerJournal (Transfer.ledger (tables st)) !! rq_journalId request
        = Some journal ->
        j_isReversal journal = true ->
        j_reversedByJournalId journal = None ->
        (exists e, reverseJournalRoute request st = (st, Thrown e))
        /\ forall reason createdBy,
             isOk (reverseJournal (rq_journalId request) reason createdBy
                     (Transfer.ledger (tables st))).2 = true).
Proof.
  destruct (reverseJournalRoute_cases request st)
    as [(e & Hrun & Hno)|(reason & journal & Hreason & Hfound & Hyes & Hrun)].
  - split; [|split].
    + rewrite Hrun. split; [intros (st' & reply & [=])|tauto].
    + rewrite Hrun. now intros st' e' [= <- _].
    + intros journal Hfound Hisrev Hfree. split; [eauto|].
      intros reason createdBy.
      destruct (reverseJournal_cases (Transfer.ledger (tables st))
                  (rq_journalId request) reason createdBy)
        as [[Hnone _]|[(o & rid & Ho & Hrid & _)|(o & st2 & r & _ & _ & -> & _)]];
        [congruence| |reflexivity].
      rewrite Hfound in Ho. injection Ho as <-. congruence.
  - split; [|split].
    + rewrite Hrun. split; [tauto|eauto].
    + rewrite Hrun. intros st' e [=].
    + intros j Hj Hisrev _. exfalso.
      destruct Hyes as (_ & _ & _ & j' & Hj' & _ & _ & Hnot).
      rewrite Hj in Hj'. injection Hj' as <-. congruence.
Qed.

(** *** Balances after the route *)

Lemma lastEntryOf_app (rows1 rows2 : list EntryRow) (code : string) :
  lastEntryOf (rows1 ++ rows2) code
  = match lastEntryOf rows2 code with
    | Some r => Some r
    | None => lastEntryOf rows1 code
    end.
Proof.
  induction rows2 as [|r rows2 IH] using rev_ind.
  - now rewrite app_nil_r.
  - rewrite app_assoc, !lastEntryOf_snoc.
    destruct (decide (row_accountCode r = code)); [reflexivity|exact IH].
Qed.

Lemma lastEntryOf_reversed (reversalId : nat) (entries : list EntryRow)
      (code : string) :
  match lastEntryOf (map (reversedEntry reversalId) entries) code with
  | Some r => row_balanceAfterCents r = 0
              /\ exists entry, In entry entries /\ row_accountCode entry = code
  | None => forall entry, In entry entries -> row_accountCode entry <> code
  end.
Proof.
  induction entries as [|e entries IH] using rev_ind.
  - cbn. intros entry [].
  - rewrite map_app. cbn [map]. rewrite lastEntryOf_snoc.
    cbn [reversedEntry row_accountCode].
    destruct (decide (row_accountCode e = code)) as [Heq|Hne].
    + split; [reflexivity|]. exists e. split; [|assumption].
      apply in_or_app. right. now left.
    + destruct (lastEntryOf _ code) as [r|].
      * destruct IH as [Hzero (entry & Hin & Hcode)]. split; [assumption|].
        exists entry. split; [|assumption]. apply in_or_app. now left.
      * intros entry [Hin|[<-|[]]]%in_app_or; auto.
Qed.


Lemma entryOfRow_reversed (reversalId : nat) (entries : list EntryRow) :
  map entryOfRow (map (reversedEntry reversalId) entries) = map swapRow entries.
Proof. rewrite map_map. reflexivity. Qed.

(** X28.  What the operator route does to the balances.  After a reversal
    through the route, the running balance of every account the journal has
    an entry on reads 0 (the reversing rows are written with
    [balanceAfterCents: 0]), whatever it was before, and the running balance
    of every other account is unchanged; the balances scoped to a contract,
    which are sums over the entry rows, do move back by the journal's
    debits less credits. *)
Theorem operator_reversal_balances (request : ReverseRequest) (st st' : Store)
        (reply : ReversalReply) :
  entriesHaveJournals (Transfer.ledger (tables st)) ->
  reverseJournalRoute request st = (st', Replied reply) ->
  let ledger := Transfer.ledger (tables st) in
  let ledger' := Transfer.ledger (tables st') in
  let journalId := rq_journalId request in
  (forall code, touches ledger journalId code ->
                getAccountBalance ledger' code = 0)
  /\ (forall code, ~ touches ledger journalId code ->
                   getAccountBalance ledger' code = getAccountBalance ledger code)
  /\ (exists journal,
        ledgerJournal ledger !! journalId = Some journal
        /\ forall contractId accountCode,
             getContractAccountBalance ledger' contractId accountCode
             = getContractAccountBalance ledger contractId accountCode
               - if bool_decide (j_contractId journal = Some contractId)
                 then debitsLessCredits accountCode
                        (map entryOfRow (entriesOfJournal ledger journalId))
                 else 0)
  /\ rr_entries reply = map swapRow (entriesOfJournal ledger journalId).
Proof.
  intros Hwf Hrun. cbv zeta.
  destruct (reverseJournalRoute_cases request st)
    as [(e & Hno & _)|(reason & journal & Hreason & Hfound & _ & Hyes)];
    [congruence|].
  rewrite Hrun in Hyes. injection Hyes as -> ->.
  cbn [tables Transfer.ledger rr_entries].
  set (ledger := Transfer.ledger (tables st)) in *.
  set (journalId := rq_journalId request) in *.
  set (rid := freshJournalId ledger).
  pose proof (lastEntryOf_reversed rid (entriesOfJournal ledger journalId)) as Hlast.
  assert (Hbal : forall code,
             getAccountBalance
               (reversalWrites ledger journalId journal reason (rq_user request))
               code
             = match lastEntryOf (map (reversedEntry rid)
                                      (entriesOfJournal ledger journalId)) code with
               | Some r => row_balanceAfterCents r
               | None => getAccountBalance ledger code
               end).
  { intros code. unfold getAccountBalance, getAccountBalanceInternal, reversalWrites.
    cbv zeta. cbn [ledgerEntry]. fold rid. rewrite lastEntryOf_app.
    now destruct (lastEntryOf (map _ _) code). }
  split; [|split; [|split; [|reflexivity]]].
  - intros code (entry & Hin & Hcode). rewrite Hbal. specialize (Hlast code).
    destruct (lastEntryOf _ code); [tauto|]. destruct (Hlast entry Hin Hcode).
  - intros code Hno. rewrite Hbal. specialize (Hlast code).
    destruct (lastEntryOf _ code); [|reflexivity].
    destruct Hlast as [_ Htouch]. destruct (Hno Htouch).
  - exists journal. split; [assumption|]. intros contractId accountCode.
    assert (Hne : rid <> journalId).
    { intros Heq. pose proof (freshJournalId_unused ledger) as Hnone.
      fold rid in Hnone. rewrite Heq, Hfound in Hnone. discriminate. }
    rewrite (contractBalance_post ledger
               (reversalWrites ledger journalId journal reason (rq_user request))
               rid
               (mkJournalRow (j_contractId journal) REVERSAL
                  ("Reversal of " +:+ pretty journalId +:+ ": " +:+ reason)
                  true (Some journalId) None (Some reason)
                  (Some (sub (rq_user request))))
               (map (reversedEntry rid) (entriesOfJournal ledger journalId)));
      try assumption.
    + rewrite entryOfRow_reversed, debitsLessCredits_swap. cbn [j_contractId].
      destruct (bool_decide _); lia.
    + apply freshJournalId_unused.
    + reflexivity.
    + apply Forall_forall. intros r (entry & -> & _)%list_elem_of_fmap. reflexivity.
    + unfold reversalWrites. cbv zeta. cbn [ledgerJournal]. fold rid.
      rewrite lookup_insert_ne, lookup_insert_eq by congruence. reflexivity.
    + intros k Hk. unfold reversalWrites. cbv zeta. cbn [ledgerJournal]. fold rid.
      destruct (decide (journalId = k)) as [<-|Hne'].
      * rewrite lookup_insert_eq, Hfound. reflexivity.
      * rewrite !lookup_insert_ne by congruence. reflexivity.
Qed.

Lemma operator_reversal_balances_witness :
  rr_entries exampleReversed.2
  = map swapRow
      (entriesOfJournal (Transfer.ledger (tables exampleOperatorStore))
         (rq_journalId exampleReverseRequest)).
Proof.
  destruct (operator_reversal_balances exampleReverseRequest
              exampleOperatorStore exampleReversed.1 exampleReversed.2)
    as (_ & _ & _ & Hentries).
  - apply entriesHaveJournals_check. vm_compute. reflexivity.
  - vm_compute. reflexivity.
  - exact Hentries.
Defined.

End OperatorProofs.

(* --------------------------------------------------------------------- *)
(** ** Prefund accounts *)

Module PrefundProofs.
Import Common JS Reconciliation Prefund.

(** A pending row is not read by the queries on completed rows. *)
Lemma lastCompleted_pending (st : Store) (tx : PrefundTransaction)
      (customerId : string) :
  pf_status tx = "PENDING" ->
  lastCompleted (mkStore (customer st) (prefundTransaction st ++ [tx])) customerId
  = lastCompleted st customerId.
Proof.
  intros Hpending. unfold lastCompleted, transactionsOf. cbn [prefundTransaction].
  rewrite !List.filter_app. cbn [List.filter].
  destruct (String.eqb (pf_customerId tx) customerId); cbn [List.filter];
    rewrite ?Hpending; cbn; now rewrite !app_nil_r.
Qed.

Lemma calculatedBalance_pending (st : Store) (tx : PrefundTransaction)
      (customerId : string) :
  pf_status tx = "PENDING" ->
  calculatedBalance (mkStore (customer st) (prefundTransaction st ++ [tx]))
    customerId
  = calculatedBalance st customerId.
Proof.
  intros Hpending. unfold calculatedBalance, transactionsOf.
  cbn [prefundTransaction]. rewrite List.filter_app, fold_left_app.
  cbn [List.filter].
  destruct (String.eqb (pf_customerId tx) customerId); [|reflexivity].
  cbn [fold_left]. unfold addTransaction. now rewrite Hpending.
Qed.

(** The store after a request: the table gains at most one pending row. *)
Lemma deposit_store (st : Store) (tenantId customer_id : string)
      (amount_cents : Z) (funding_instrument_id : string) :
  (deposit st tenantId customer_id amount_cents funding_instrument_id).1 = st
  \/ exists tx, pf_status tx = "PENDING"
                /\ (deposit st tenantId customer_id amount_cents
                      funding_instrument_id).1
                   = mkStore (customer st) (prefundTransaction st ++ [tx]).
Proof.
  unfold deposit. destruct (negb _); [now left|]. right. eexists.
  split; [|reflexivity]. reflexivity.
Qed.

Lemma withdraw_store (st : Store) (tenantId customer_id : string)
      (amount_cents : Z) (funding_instrument_id : string) :
  (withdraw st tenantId customer_id amount_cents funding_instrument_id).1 = st
  \/ exists tx, pf_status tx = "PENDING"
                /\ (withdraw st tenantId customer_id amount_cents
                      funding_instrument_id).1
                   = mkStore (customer st) (prefundTransaction st ++ [tx]).
Proof.
  unfold withdraw. destruct (negb _); [now left|]. cbv zeta.
  destruct (_ >? _); [now left|]. right. eexists.
  split; [|reflexivity]. reflexivity.
Qed.

Lemma pending_row_leaves_balances (st : Store) (tx : PrefundTransaction) :
  pf_status tx = "PENDING" ->
  let st' := mkStore (customer st) (prefundTransaction st ++ [tx]) in
  (forall tenantId customer_id,
      getPrefund st' tenantId customer_id = getPrefund st tenantId customer_id)
  /\ (forall tenantId lenderId principalCents,
        checkPrefundWaiver st' tenantId lenderId principalCents
        = checkPrefundWaiver st tenantId lenderId principalCents)
  /\ (forall tenantId customer_id amount_cents funding_instrument_id,
        (withdraw st' tenantId customer_id amount_cents funding_instrument_id).2
        = (withdraw st tenantId customer_id amount_cents funding_instrument_id).2).
Proof.
  intros Hpending. cbv zeta. split; [|split].
  - intros. unfold getPrefund, customerOfTenant. cbn [customer].
    now rewrite lastCompleted_pending.
  - intros. unfold checkPrefundWaiver, customerOfTenant. cbn [customer].
    now rewrite lastCompleted_pending.
  - intros. unfold withdraw, customerOfTenant. cbn [customer].
    rewrite lastCompleted_pending by assumption.
    destruct (negb _); [reflexivity|]. cbv zeta.
    destruct (_ >? _); reflexivity.
Qed.

(** X29.  Requests are not counted until they are completed.  A deposit
    or a withdrawal request, accepted or not, changes neither the balance
    reported for any customer, nor the outcome of the prefund waiver check,
    nor the reply to any later withdrawal request: the routes only add
    PENDING rows, and every balance is read from the last COMPLETED row.
    So a withdrawal that was accepted is accepted again, with the same
    balances recorded, as often as it is requested. *)
Theorem pending_requests_leave_balances (st : Store) (tenantId customer_id : string)
        (amount_cents : Z) (funding_instrument_id : string) :
  let afterDeposit :=
    (deposit st tenantId customer_id amount_cents funding_instrument_id).1 in
  let afterWithdrawal :=
    (withdraw st tenantId customer_id amount_cents funding_instrument_id).1 in
  (forall st', st' = afterDeposit \/ st' = afterWithdrawal ->
     (forall t c, getPrefund st' t c = getPrefund st t c)
     /\ (forall t lender principal,
           checkPrefundWaiver st' t lender principal
           = checkPrefundWaiver st t lender principal)
     /\ (forall t c amount instrument,
           (withdraw st' t c amount instrument).2
           = (withdraw st t c amount instrument).2))
  /\ (forall tx,
        (withdraw st tenantId customer_id amount_cents funding_instrument_id).2
        = Returned tx ->
        (withdraw afterWithdrawal tenantId customer_id amount_cents
           funding_instrument_id).2
        = Returned tx
        /\ prefundTransaction
             (withdraw afterWithdrawal tenantId customer_id amount_cents
                funding_instrument_id).1
           = prefundTransaction st ++ [tx; tx]).
Proof.
  cbv zeta.
  assert (Hframe : forall st',
             st' = (deposit st tenantId customer_id amount_cents
                      funding_instrument_id).1
             \/ st' = (withdraw st tenantId customer_id amount_cents
                         funding_instrument_id).1 ->
             st' = st
             \/ exists tx, pf_status tx = "PENDING"
                           /\ st' = mkStore (customer st)
                                      (prefundTransaction st ++ [tx])).
  { intros st' [-> | ->]; [apply deposit_store|apply withdraw_store]. }
  split.
  - intros st' [->|(tx & Hpending & ->)]%Hframe; [auto|].
    now apply pending_row_leaves_balances.
  - intros tx Hok.
    assert (Hst : (withdraw st tenantId customer_id amount_cents
                     funding_instrument_id).1
                  = mkStore (customer st) (prefundTransaction st ++ [tx])
                  /\ pf_status tx = "PENDING").
    { revert Hok. unfold withdraw. destruct (negb _); [discriminate|]. cbv zeta.
      destruct (_ >? _); [discriminate|]. cbn [fst snd]. intros [= <-]. auto. }
    destruct Hst as [Hst Hpending]. rewrite Hst.
    destruct (pending_row_leaves_balances st tx Hpending) as (_ & _ & Hsame).
    cbv zeta in Hsame. split; [now rewrite Hsame|].
    specialize (Hsame tenantId customer_id amount_cents funding_instrument_id).
    rewrite Hok in Hsame.
    revert Hsame. unfold withdraw. cbn [customer prefundTransaction].
    destruct (negb _); [discriminate|]. cbv zeta.
    destruct (_ >? _); [discriminate|]. cbn [fst snd prefundTransaction].
    intros [= ->]. now rewrite <- app_assoc.
Qed.


(** *** The prefund check after a request *)

Lemma checkCustomer_exceptions (cfg : ReconciliationConfig) (st : Store)
      (now : Z) (tenantId : string)
      (acc : PrefundSummary * list ReconciliationException) (customerId : string) :
  (checkCustomer cfg st now tenantId acc customerId).2
  = acc.2 ++ exceptionsFor cfg st now tenantId customerId.
Proof.
  unfold exceptionsFor, checkCustomer. destruct acc as [summary exceptions].
  destruct (last _); [|cbn; now rewrite app_nil_r].
  cbv zeta. destruct (negb _); cbn [fst snd app]; [reflexivity|].
  now rewrite app_nil_r.
Qed.

Lemma reconcile_exceptions (cfg : ReconciliationConfig) (st : Store) (now : Z)
      (tenantId : string) (customers : list string) :
  forall acc,
    (fold_left (checkCustomer cfg st now tenantId) customers acc).2
    = acc.2 ++ flat_map (exceptionsFor cfg st now tenantId) customers.
Proof.
  induction customers as [|c customers IH]; intros acc.
  - cbn. now rewrite app_nil_r.
  - cbn [fold_left flat_map]. rewrite IH, checkCustomer_exceptions, app_assoc.
    reflexivity.
Qed.

Lemma exceptionsFor_record (cfg : ReconciliationConfig) (st : Store) (now : Z)
      (tenantId customerId : string) (e : ReconciliationException) :
  In e (exceptionsFor cfg st now tenantId customerId) ->
  localRecordId e = Some customerId /\ type e = prefund_mismatch.
Proof.
  unfold exceptionsFor, checkCustomer.
  destruct (last _); [|intros []]. cbv zeta.
  destruct (negb _); cbn [fst snd app]; [|intros []].
  intros [<-|[]]. split; reflexivity.
Qed.

Lemma customersWithPrefund_elem (st : Store) (tenantId customerId : string) :
  In customerId (customersWithPrefund st tenantId)
  <-> customer st !! customerId = Some tenantId
      /\ transactionsOf st customerId <> [].
Proof.
  unfold customersWithPrefund. rewrite in_map_iff. split.
  - intros ([c t] & <- & [Hin Hcond]%filter_In). cbn [fst snd] in *.
    apply list_elem_of_In, elem_of_map_to_list in Hin.
    apply andb_true_iff in Hcond as [Ht Hlen].
    apply String.eqb_eq in Ht. subst t. split; [assumption|].
    apply Nat.ltb_lt in Hlen. intros Hnil. rewrite Hnil in Hlen. cbn in Hlen. lia.
  - intros [Hc Hne]. exists (customerId, tenantId). split; [reflexivity|].
    apply filter_In. split.
    + now apply list_elem_of_In, elem_of_map_to_list.
    + cbn [fst snd]. rewrite String.eqb_refl. cbn [andb]. apply Nat.ltb_lt.
      destruct (transactionsOf st customerId); [congruence|cbn; lia].
Qed.

Lemma transactionsOf_snoc (st : Store) (tx : PrefundTransaction) :
  transactionsOf (mkStore (customer st) (prefundTransaction st ++ [tx]))
    (pf_customerId tx)
  = transactionsOf st (pf_customerId tx) ++ [tx].
Proof.
  unfold transactionsOf. cbn [prefundTransaction].
  rewrite List.filter_app. cbn [List.filter]. now rewrite String.eqb_refl.
Qed.

(** The exceptions of the check for the customer of a new pending row. *)
Lemma exceptionsFor_pending (cfg : ReconciliationConfig) (st : Store) (now : Z)
      (tenantId : string) (tx : PrefundTransaction) :
  pf_status tx = "PENDING" ->
  accountConsistent st (pf_customerId tx) ->
  let st' := mkStore (customer st) (prefundTransaction st ++ [tx]) in
  let recorded := pf_availableAfterCents tx in
  let available := availableOf (lastCompleted st (pf_customerId tx)) in
  (recorded = available ->
   exceptionsFor cfg st' now tenantId (pf_customerId tx) = [])
  /\ (recorded <> available ->
      exists e, exceptionsFor cfg st' now tenantId (pf_customerId tx) = [e]
                /\ discrepancyAmountCents e = Some (Z.abs (recorded - available))
                /\ severity e
                   = calculateSeverity cfg (Z.abs (recorded - available))).
Proof.
  intros Hpending Hconsistent. cbv zeta.
  unfold accountConsistent in Hconsistent.
  unfold exceptionsFor, checkCustomer.
  rewrite transactionsOf_snoc, last_snoc. cbv zeta.
  rewrite !(calculatedBalance_pending st tx (pf_customerId tx) Hpending).
  rewrite !Hconsistent.
  split.
  - intros ->. now rewrite Z.eqb_refl.
  - intros Hne. apply Z.eqb_neq in Hne. rewrite Hne. cbn [negb fst snd app].
    eexists. split; [reflexivity|]. split; reflexivity.
Qed.

(** X30.  The prefund check and pending requests.  On an account whose
    completed rows add up to its available balance, an accepted withdrawal
    request of a non-zero amount makes the next [reconcilePrefundBalances]
    report a [prefund_mismatch] for the customer, with the amount of the
    withdrawal as discrepancy: the check compares the available balance
    recorded on the newest row, pending or not, with the sum of the completed
    rows.  An accepted deposit request raises no exception for the
    customer. *)
Theorem withdrawal_reported_as_mismatch (cfg : ReconciliationConfig)
        (st : Store) (tenantId customer_id : string) (amount_cents : Z)
        (funding_instrument_id : string) (now : Z) (summary : PrefundSummary) :
  accountConsistent st customer_id ->
  amount_cents <> 0 ->
  (forall st' tx,
      withdraw st tenantId customer_id amount_cents funding_instrument_id
      = (st', Returned tx) ->
      exists e,
        In e (reconcilePrefundBalances cfg st' now tenantId summary).2
        /\ type e = prefund_mismatch
        /\ localRecordId e = Some customer_id
        /\ discrepancyAmountCents e = Some (Z.abs amount_cents)
        /\ severity e = calculateSeverity cfg (Z.abs amount_cents))
  /\ (forall st' tx,
        deposit st tenantId customer_id amount_cents funding_instrument_id
        = (st', Returned tx) ->
        forall e, In e (reconcilePrefundBalances cfg st' now tenantId summary).2 ->
                  localRecordId e <> Some customer_id).
Proof.
  intros Hconsistent Hamount. split.
  - intros st' tx. unfold withdraw.
    destruct (customerOfTenant st customer_id tenantId) eqn:Hcust;
      [|discriminate].
    cbn [negb]. cbv zeta. destruct (_ >? _); [discriminate|].
    intros [= <- <-].
    set (tx := mkPrefundTransaction customer_id "WITHDRAWAL" _ _ _ _ _).
    destruct (exceptionsFor_pending cfg st now tenantId tx eq_refl Hconsistent)
      as [_ Hraise].
    cbv zeta in Hraise. cbn [pf_customerId pf_availableAfterCents tx] in Hraise.
    destruct Hraise as (e & He & Hdisc & Hsev); [lia|].
    exists e. unfold reconcilePrefundBalances. cbv zeta.
    rewrite reconcile_exceptions. cbn [snd app].
    assert (Hin : In e (exceptionsFor cfg
                          (mkStore (customer st) (prefundTransaction st ++ [tx]))
                          now tenantId customer_id))
      by (rewrite He; now left).
    split.
    + apply in_flat_map. exists customer_id. split; [|assumption].
      apply customersWithPrefund_elem. cbn [customer]. split.
      * unfold customerOfTenant in Hcust.
        destruct (customer st !! customer_id) as [t|]; [|discriminate].
        apply String.eqb_eq in Hcust. now subst t.
      * change customer_id with (pf_customerId tx).
        rewrite transactionsOf_snoc. now destruct (transactionsOf st _).
    + destruct (exceptionsFor_record _ _ _ _ _ _ Hin) as [Hid Htype].
      split; [assumption|]. split; [assumption|].
      replace (Z.abs amount_cents)
        with (Z.abs (availableOf (lastCompleted st customer_id) - amount_cents
                     - availableOf (lastCompleted st customer_id))) by lia.
      split; assumption.
  - intros st' tx. unfold deposit.
    destruct (customerOfTenant st customer_id tenantId); [|discriminate].
    cbn [negb]. cbv zeta. intros [= <- <-].
    set (tx := mkPrefundTransaction customer_id "DEPOSIT" _ _ _ _ _).
    destruct (exceptionsFor_pending cfg st now tenantId tx eq_refl Hconsistent)
      as [Hquiet _].
    cbv zeta in Hquiet. cbn [pf_customerId pf_availableAfterCents tx] in Hquiet.
    specialize (Hquiet eq_refl).
    intros e. unfold reconcilePrefundBalances. cbv zeta.
    rewrite reconcile_exceptions. cbn [snd app].
    intros (c & _ & Hin)%in_flat_map Hid.
    destruct (exceptionsFor_record _ _ _ _ _ _ Hin) as [Hc _].
    rewrite Hc in Hid. injection Hid as ->.
    rewrite Hquiet in Hin. destruct Hin.
Qed.

Lemma withdrawal_reported_as_mismatch_witness :
  exists e,
    In e (reconcilePrefundBalances DEFAULT_RECONCILIATION_CONFIG
            (withdraw exampleAccount "tenant-1" "lender-1" 4000 "fi-1").1 9000
            "tenant-1" (mkPrefundSummary 0 0 0 0)).2
    /\ type e = prefund_mismatch
    /\ discrepancyAmountCents e = Some 4000.
Proof.
  destruct (withdrawal_reported_as_mismatch DEFAULT_RECONCILIATION_CONFIG
              exampleAccount "tenant-1" "lender-1" 4000 "fi-1" 9000
              (mkPrefundSummary 0 0 0 0)) as [Hwithdraw _].
  - vm_compute. reflexivity.
  - discriminate.
  - destruct (Hwithdraw
                (withdraw exampleAccount "tenant-1" "lender-1" 4000 "fi-1").1
                (mkPrefundTransaction "lender-1" "WITHDRAWAL" 4000 "fi-1"
                   "PENDING" 6000 6000))
      as (e & Hin & Htype & _ & Hamount & _).
    + vm_compute. reflexivity.
    + exists e. split; [exact Hin|]. split; [exact Htype | exact Hamount].
Defined.

End PrefundProofs.
